(** * MiniRadio "Now Playing" metadata resolution: a shallow embedding

    The development follows the Go sources of the repository:
    - [internal/metadata/helpers.go]     (frame parser, cache key),
    - [internal/metadata/direct_icy.go]  (direct and sibling strategies),
    - [internal/metadata/status_json.go] (status endpoint strategy),
    - [internal/metadata/provider.go]    (dispatcher),
    - [internal/player]                  (title stabilizer).

    Go strings are byte sequences; they are modelled by [string], whose
    characters are the 8-bit [ascii] values.  Go's [int] results that use
    [-1] for "not found" are kept as [Z]. *)

From Stdlib Require Import ZArith Ascii Lia.
From stdpp Require Import base option list strings gmap.

Local Open Scope Z_scope.

(** stdpp keeps [simpl] from unfolding [String.append]; the proofs below
    compute with it. *)
#[local] Arguments String.append !_ _ : simpl nomatch.

(** ** The parts of Go's [strings] package used by the sources *)

Module Strings.

Definition byteZ (c : ascii) : Z := Z.of_N (N_of_ascii c).

Definition len (s : string) : Z := Z.of_nat (String.length s).

(** [s[n:]] and [s[:n]] for an index already known to be in range. *)
Fixpoint drop (n : nat) (s : string) : string :=
  match n, s with
  | O, _ => s
  | S n', String _ r => drop n' r
  | S _, EmptyString => EmptyString
  end.

Fixpoint take (n : nat) (s : string) : string :=
  match n, s with
  | O, _ => EmptyString
  | S n', String c r => String c (take n' r)
  | S _, EmptyString => EmptyString
  end.

Definition sliceFrom (s : string) (i : Z) : string := drop (Z.to_nat i) s.
Definition sliceTo (s : string) (i : Z) : string := take (Z.to_nat i) s.

Fixpoint HasPrefix (s p : string) : bool :=
  match p, s with
  | EmptyString, _ => true
  | String a p', String b s' => Ascii.eqb a b && HasPrefix s' p'
  | String _ _, EmptyString => false
  end.

(** Position of the first occurrence, as an offset from the head. *)
Fixpoint find (s sub : string) : option nat :=
  if HasPrefix s sub then Some O
  else match s with
       | EmptyString => None
       | String _ r => S <$> find r sub
       end.

Definition ofIndex (o : option nat) : Z :=
  match o with Some n => Z.of_nat n | None => -1 end.

Definition Index (s sub : string) : Z := ofIndex (find s sub).

Definition Contains (s sub : string) : bool := 0 <=? Index s sub.

Fixpoint findLast (p : ascii -> bool) (s : string) : option nat :=
  match s with
  | EmptyString => None
  | String c r =>
      match findLast p r with
      | Some n => Some (S n)
      | None => if p c then Some O else None
      end
  end.

Definition LastIndexByte (s : string) (c : ascii) : Z :=
  ofIndex (findLast (Ascii.eqb c) s).

Fixpoint mem (c : ascii) (chars : string) : bool :=
  match chars with
  | EmptyString => false
  | String d r => Ascii.eqb c d || mem c r
  end.

(** [LastIndexAny] for a set of ASCII characters. *)
Definition LastIndexAny (s chars : string) : Z :=
  ofIndex (findLast (fun c => mem c chars) s).

Fixpoint rev (s : string) : string :=
  match s with
  | EmptyString => EmptyString
  | String c r => rev r +:+ String c EmptyString
  end.

Fixpoint trimLeftChars (chars : string) (s : string) : string :=
  match s with
  | String c r => if mem c chars then trimLeftChars chars r else s
  | EmptyString => EmptyString
  end.

(** [Trim] for a cutset of ASCII characters. *)
Definition Trim (s cutset : string) : string :=
  rev (trimLeftChars cutset (rev (trimLeftChars cutset s))).

(** [Replace s old new 1] with a non-empty [old]: only the first
    occurrence is replaced. *)
Definition Replace1 (s old new : string) : string :=
  match find s old with
  | Some i => take i s +:+ new +:+ drop (i + String.length old) s
  | None => s
  end.

(** *** [TrimSpace]

    Go trims the runes with Unicode's White_Space property.  On the byte
    level these are the six ASCII characters of [asciiSpace] and the
    UTF-8 encodings listed in [unicodeSpace]; a byte that does not start
    one of these encodings decodes to a rune that is not a space. *)

Definition asciiSpace (c : ascii) : bool :=
  let n := byteZ c in
  (n =? 9) || (n =? 10) || (n =? 11) || (n =? 12) || (n =? 13) || (n =? 32).

Definition ofBytes (l : list Z) : string :=
  fold_right (fun z s => String (ascii_of_N (Z.to_N z)) s) EmptyString l.

Definition unicodeSpace : list string :=
  ofBytes <$>
    [ [0xC2; 0x85]; [0xC2; 0xA0]; [0xE1; 0x9A; 0x80];
      [0xE2; 0x80; 0x80]; [0xE2; 0x80; 0x81]; [0xE2; 0x80; 0x82];
      [0xE2; 0x80; 0x83]; [0xE2; 0x80; 0x84]; [0xE2; 0x80; 0x85];
      [0xE2; 0x80; 0x86]; [0xE2; 0x80; 0x87]; [0xE2; 0x80; 0x88];
      [0xE2; 0x80; 0x89]; [0xE2; 0x80; 0x8A]; [0xE2; 0x80; 0xA8];
      [0xE2; 0x80; 0xA9]; [0xE2; 0x80; 0xAF]; [0xE2; 0x81; 0x9F];
      [0xE3; 0x80; 0x80] ].

(** Length of the space rune that [s] starts with, if any. *)
Definition spaceWidth (encs : list string) (s : string) : option nat :=
  match s with
  | EmptyString => None
  | String c _ =>
      if asciiSpace c then Some 1%nat
      else String.length <$> List.find (HasPrefix s) encs
  end.

Fixpoint trimLeftSpaces (fuel : nat) (encs : list string) (s : string) : string :=
  match fuel with
  | O => s
  | S fuel' =>
      match spaceWidth encs s with
      | Some w => trimLeftSpaces fuel' encs (drop w s)
      | None => s
      end
  end.

Definition TrimLeftSpace (s : string) : string :=
  trimLeftSpaces (String.length s) unicodeSpace s.

Definition TrimRightSpace (s : string) : string :=
  rev (trimLeftSpaces (String.length s) (rev <$> unicodeSpace) (rev s)).

Definition TrimSpace (s : string) : string := TrimRightSpace (TrimLeftSpace s).

(** [ToLower] and [ToUpper]: the ASCII fast path of Go; for a string with
    a byte outside ASCII Go maps [unicode.ToLower] ([unicode.ToUpper]) over
    the decoded runes, which is taken as a parameter. *)
Definition isASCIIbyte (c : ascii) : bool := byteZ c <? 128.

Fixpoint allASCII (s : string) : bool :=
  match s with
  | EmptyString => true
  | String c r => isASCIIbyte c && allASCII r
  end.

Definition lowerByte (c : ascii) : ascii :=
  let n := byteZ c in
  if (65 <=? n) && (n <=? 90) then ascii_of_N (Z.to_N (n + 32)) else c.

Fixpoint mapBytes (f : ascii -> ascii) (s : string) : string :=
  match s with
  | EmptyString => EmptyString
  | String c r => String (f c) (mapBytes f r)
  end.

Definition ToLower (lowerRunes : string -> string) (s : string) : string :=
  if allASCII s then mapBytes lowerByte s else lowerRunes s.

Definition upperByte (c : ascii) : ascii :=
  let n := byteZ c in
  if (97 <=? n) && (n <=? 122) then ascii_of_N (Z.to_N (n - 32)) else c.

Definition ToUpper (upperRunes : string -> string) (s : string) : string :=
  if allASCII s then mapBytes upperByte s else upperRunes s.

End Strings.

(** ** [html.UnescapeString]

    A model of the standard library function: numeric character references
    (decimal and hexadecimal, encoded in UTF-8) and the named references of
    the table [entity], which holds the references that occur in stream
    titles.  As in Go, a legacy name may be matched without its semicolon
    and as a prefix of a longer run of letters. *)

Module Html.
Import Strings.

Definition wrap32 (z : Z) : Z := (z + 2147483648) mod 4294967296 - 2147483648.

Definition chr (z : Z) : ascii := ascii_of_N (Z.to_N z).

Definition replacementTable : list Z :=
  [ 0x20AC; 0x0081; 0x201A; 0x0192; 0x201E; 0x2026; 0x2020; 0x2021;
    0x02C6; 0x2030; 0x0160; 0x2039; 0x0152; 0x008D; 0x017D; 0x008F;
    0x0090; 0x2018; 0x2019; 0x201C; 0x201D; 0x2022; 0x2013; 0x2014;
    0x02DC; 0x2122; 0x0161; 0x203A; 0x0153; 0x009D; 0x017E; 0x0178 ].

(** [utf8.EncodeRune]; an invalid rune is encoded as U+FFFD. *)
Definition encodeRune (x : Z) : string :=
  let x := if (x <? 0) || (0x10FFFF <? x) || ((0xD800 <=? x) && (x <=? 0xDFFF))
           then 0xFFFD else x in
  if x <? 0x80 then ofBytes [x]
  else if x <? 0x800 then
    ofBytes [Z.lor 0xC0 (Z.shiftr x 6); Z.lor 0x80 (Z.land x 0x3F)]
  else if x <? 0x10000 then
    ofBytes [Z.lor 0xE0 (Z.shiftr x 12);
             Z.lor 0x80 (Z.land (Z.shiftr x 6) 0x3F);
             Z.lor 0x80 (Z.land x 0x3F)]
  else
    ofBytes [Z.lor 0xF0 (Z.shiftr x 18);
             Z.lor 0x80 (Z.land (Z.shiftr x 12) 0x3F);
             Z.lor 0x80 (Z.land (Z.shiftr x 6) 0x3F);
             Z.lor 0x80 (Z.land x 0x3F)].

Definition entity : list (string * string) :=
  [ ("amp;", "&"); ("amp", "&"); ("lt;", "<"); ("lt", "<");
    ("gt;", ">"); ("gt", ">"); ("quot;", String (chr 34) ""); ("quot", String (chr 34) "");
    ("apos;", "'"); ("nbsp;", ofBytes [0xC2; 0xA0]); ("nbsp", ofBytes [0xC2; 0xA0]) ].

Definition lookupEntity (name : string) : option string :=
  snd <$> List.find (fun kv => String.eqb (fst kv) name) entity.

Definition digitValue (hex : bool) (c : ascii) : option Z :=
  let n := byteZ c in
  if (48 <=? n) && (n <=? 57) then Some (n - 48)
  else if hex && (97 <=? n) && (n <=? 102) then Some (n - 97 + 10)
  else if hex && (65 <=? n) && (n <=? 70) then Some (n - 65 + 10)
  else None.

(** The digit loop: the accumulated rune, the number of bytes consumed
    (a terminating semicolon included) and the rest of the input. *)
Fixpoint scanDigits (hex : bool) (x : Z) (s : string) : Z * nat * string :=
  match s with
  | EmptyString => (x, O, s)
  | String c r =>
      match digitValue hex c with
      | Some d =>
          let '(x', n, r') :=
            scanDigits hex (wrap32 ((if hex then 16 else 10) * x + d)) r in
          (x', S n, r')
      | None =>
          if Ascii.eqb c ";" then (x, 1%nat, r) else (x, O, s)
      end
  end.

Definition isAlnum (c : ascii) : bool :=
  let n := byteZ c in
  ((97 <=? n) && (n <=? 122)) || ((65 <=? n) && (n <=? 90)) || ((48 <=? n) && (n <=? 57)).

Fixpoint scanName (s : string) : string * string :=
  match s with
  | EmptyString => (EmptyString, s)
  | String c r =>
      if isAlnum c then let '(n, r') := scanName r in (String c n, r')
      else if Ascii.eqb c ";" then (String c EmptyString, r)
      else (EmptyString, s)
  end.

Definition longestEntityWithoutSemicolon : nat := 6.

Fixpoint prefixEntity (j : nat) (name : string) : option (nat * string) :=
  match j with
  | O | 1%nat => None
  | S j' =>
      match lookupEntity (take j name) with
      | Some v => Some (j, v)
      | None => prefixEntity j' name
      end
  end.

(** [unescapeEntity] for the input ["&" ++ r]: the bytes written and the
    input that is left. *)
Definition unescapeEntity (r : string) : string * string :=
  match r with
  | EmptyString => ("&", r)
  | String c r1 =>
      if Ascii.eqb c "#" then
        if (String.length r <=? 2)%nat then ("&", r)
        else
          let hex := match r1 with
                     | String d _ => Ascii.eqb d "x" || Ascii.eqb d "X"
                     | EmptyString => false
                     end in
          let i0 := if hex then 3%nat else 2%nat in
          let '(x, n, rest) := scanDigits hex 0 (drop (i0 - 1) r) in
          if (i0 + n <=? 3)%nat then ("&", r)
          else
            let x := if (0x80 <=? x) && (x <=? 0x9F)
                     then nth (Z.to_nat (x - 0x80)) replacementTable 0xFFFD
                     else if (x =? 0) || ((0xD800 <=? x) && (x <=? 0xDFFF)) || (0x10FFFF <? x)
                     then 0xFFFD else x in
            (encodeRune x, rest)
      else
        let '(name, rest) := scanName r in
        match name with
        | EmptyString => ("&", r)
        | _ =>
            match lookupEntity name with
            | Some v => (v, rest)
            | None =>
                match prefixEntity
                        (Nat.min (String.length name - 1) longestEntityWithoutSemicolon)
                        name with
                | Some (j, v) => (v, drop j r)
                | None => (String "&" name, rest)
                end
            end
        end
  end.

Fixpoint unescape (fuel : nat) (s : string) : string :=
  match fuel, s with
  | O, _ => s
  | _, EmptyString => EmptyString
  | S fuel', String c r =>
      if Ascii.eqb c "&" then
        let '(out, rest) := unescapeEntity r in out +:+ unescape fuel' rest
      else String c (unescape fuel' r)
  end.

Definition UnescapeString (s : string) : string := unescape (String.length s) s.

End Html.

(** ** Package [metadata]: data model *)

Module Metadata.
Import Strings.

Record Info := { Title : string; Description : string; Station : string }.

Definition emptyInfo : Info := {| Title := ""; Description := ""; Station := "" |}.

Definition MetadataTypeICY : string := "ICY".
Definition MetadataTypeJSON : string := "JSON".

Record StrategyHint := { Type_ : string; URL_ : string }.

(** What the network, a body read or the context can report. *)
Inductive fault :=
| Canceled
| DeadlineExceeded
| Failure (msg : string).

(** Go [error] values of the package.  [errNoICY] is the package's
    sentinel; a [fault] is never equal to it. *)
Inductive error :=
| errNoICY
| errorsNew (msg : string)
| io_EOF
| io_ErrUnexpectedEOF
| urlError (raw : string)
| faultError (f : fault).

(** [errors.Is(err, errNoICY)]: no error of the package wraps another. *)
Definition isNoICY (e : error) : bool :=
  match e with errNoICY => true | _ => false end.

(** *** Byte streams

    A response body: the bytes that arrive, then end of file ([None]) or
    a fault (a broken connection, a cancelled or expired context). *)
Record Reader := { buffered : string; ending : option fault }.

Definition endError (r : Reader) : error :=
  match ending r with None => io_EOF | Some f => faultError f end.

(** [io.ReadFull(r, buf)] with [len(buf) = n]: the bytes and the reader
    after them, or the number of bytes read and the error. *)
Definition ReadFull (r : Reader) (n : Z) : (string * Reader) + (Z * error * Reader) :=
  if n <=? len (buffered r) then
    inl (sliceTo (buffered r) n,
         {| buffered := sliceFrom (buffered r) n; ending := ending r |})
  else
    let got := len (buffered r) in
    let err := match ending r with
               | None => if 0 <? got then io_ErrUnexpectedEOF else io_EOF
               | Some f => faultError f
               end in
    inr (got, err, {| buffered := ""; ending := ending r |}).

Definition ReadByte (r : Reader) : (ascii * Reader) + error :=
  match buffered r with
  | String c rest => inl (c, {| buffered := rest; ending := ending r |})
  | EmptyString => inr (endError r)
  end.

(** *** [strconv.Atoi] on a 64-bit platform *)

Fixpoint digits (acc : Z) (s : string) : option Z :=
  match s with
  | EmptyString => Some acc
  | String c r =>
      let n := byteZ c in
      if (48 <=? n) && (n <=? 57) then digits (10 * acc + (n - 48)) r else None
  end.

Definition Atoi (s : string) : option Z :=
  let '(neg, body) :=
    match s with
    | String c r =>
        if Ascii.eqb c "-" then (true, r)
        else if Ascii.eqb c "+" then (false, r) else (false, s)
    | EmptyString => (false, s)
    end in
  match body with
  | EmptyString => None
  | _ =>
      match digits 0 body with
      | Some n =>
          let v := if neg then - n else n in
          if (- 9223372036854775808 <=? v) && (v <=? 9223372036854775807)
          then Some v else None
      | None => None
      end
  end.

(** *** helpers.go *)

Definition isASCII (s : string) : bool := allASCII s.

Definition fixMojibake (s : string) : string :=
  let s := TrimSpace s in
  let s := Html.UnescapeString s in
  if negb (isASCII s) then s else s.

(** The inner loop of [extractStreamTitle] over spaces and tabs. *)
Fixpoint skipBlank (s : string) : string :=
  match s with
  | String c r => if Ascii.eqb c " " || Ascii.eqb c "009" then skipBlank r else s
  | EmptyString => s
  end.

(** The test made at a quote, on [rest = meta[i+1:]]: only blanks
    follow, or blanks and a [';'] with an ['='] somewhere behind it. *)
Definition closesValue (rest : string) : bool :=
  match skipBlank rest with
  | EmptyString => true
  | String c rest' => Ascii.eqb c ";" && Contains rest' "="
  end.

(** The outer loop: the first index [i] whose quote passes the test. *)
Fixpoint findClosingQuote (quote : ascii) (meta : string) : option nat :=
  match meta with
  | EmptyString => None
  | String c r =>
      if Ascii.eqb c quote && closesValue r then Some O
      else S <$> findClosingQuote quote r
  end.

Definition extractStreamTitle (meta : string) : string :=
  if String.eqb meta "" then ""
  else
    let idx := Index meta "StreamTitle=" in
    if idx <? 0 then ""
    else
      let meta := sliceFrom meta (idx + 12) in
      let meta := TrimSpace meta in
      match meta with
      | EmptyString => ""
      | String c0 tl =>
          let meta :=
            if Ascii.eqb c0 "'" || Ascii.eqb c0 "034" then
              let quote := c0 in
              let meta := tl in
              let end_ := ofIndex (findClosingQuote quote meta) in
              let end_ := if end_ <? 0 then LastIndexByte meta quote else end_ in
              if 0 <=? end_ then sliceTo meta end_ else meta
            else
              let end_ := Index meta ";" in
              if 0 <=? end_ then sliceTo meta end_ else meta
          in
          let meta := TrimSpace meta in
          Html.UnescapeString meta
      end.

(** The skip loop of [firstMetaBlock]: [left] bytes are read in chunks of
    at most 4096.  Every round consumes at least one byte of [left], so
    [fuel = left] rounds are enough ([skipAudio_fuel]). *)
Fixpoint skipAudio (fuel : nat) (left : Z) (r : Reader) : option error * Reader :=
  match fuel with
  | O => (None, r)
  | S fuel' =>
      if 0 <? left then
        let chunk := if 4096 <? left then 4096 else left in
        match ReadFull r chunk with
        | inl (_, r') => skipAudio fuel' (left - chunk) r'
        | inr (_, err, r') => (Some err, r')
        end
      else (None, r)
  end.

Definition firstMetaBlock (r : option Reader) (metaInt : Z)
  : string * option error * option Reader :=
  match r with
  | None => ("", Some io_EOF, r)
  | Some rd =>
      if metaInt <=? 0 then ("", Some io_EOF, r)
      else
        match skipAudio (Z.to_nat metaInt) metaInt rd with
        | (Some err, rd1) => ("", Some err, Some rd1)
        | (None, rd1) =>
            match ReadByte rd1 with
            | inr err => ("", Some err, Some rd1)
            | inl (lb, rd2) =>
                if byteZ lb =? 0 then ("", Some io_EOF, Some rd2)
                else
                  let metaLen := byteZ lb * 16 in
                  match ReadFull rd2 metaLen with
                  | inr (_, err, rd3) => ("", Some err, Some rd3)
                  | inl (meta, rd3) =>
                      let text := extractStreamTitle meta in
                      if String.eqb text "" then ("", Some io_EOF, Some rd3)
                      else (text, None, Some rd3)
                  end
            end
        end
  end.

(** *** Standard library functions taken as parameters

    [net/url], [path.Clean], [unicode.ToLower] and [encoding/json] are
    not modelled; the strategies are defined over any implementation. *)

Record URL := { Scheme : string; Host : string; Path : string; RawQuery : string }.

(** A decoded JSON value of Go type [any]. *)
#[local] Set Warnings "-register-all".
Inductive any :=
| anyNil
| anyBool (b : bool)
| anyNumber (lit : string)
| anyString (s : string)
| anySlice (items : list any)
| anyMap (fields : list (string * any)).

Record iceSource := { srcTitle : string; srcServer : string; srcIcyName : string }.

Class GoLib := {
(** [url.Parse]; [None] for an error. *)
url_Parse : string -> option URL;
(** The [String] method of [url.URL]. *)
URL_String : URL -> string;
(** [strings.Map(unicode.ToLower, s)] and [strings.Map(unicode.ToUpper, s)]
    for a string that is not ASCII. *)
unicode_ToLower : string -> string;
unicode_ToUpper : string -> string;
(** [path.Clean]. *)
path_Clean : string -> string;
(** [json.Decoder.Decode] of a body into [iceStats]: the value of
    [icestats.source], [None] for a decoding error. *)
json_Decode : string -> option any;
(** [json.Marshal] of a value followed by [json.Unmarshal] into an
    [iceSource]; [None] when [Unmarshal] reports an error. *)
json_toSource : any -> option iceSource
}.

Section Helpers.
Context `{GoLib}.

(** [path.Base] and [path.Ext]. *)
Definition path_Base (p : string) : string :=
  if String.eqb p "" then "."
  else
    let p := rev (trimLeftChars "/" (rev p)) in
    let i := LastIndexByte p "/" in
    let p := if 0 <=? i then sliceFrom p (i + 1) else p in
    if String.eqb p "" then "/" else p.

Definition path_Ext (p : string) : string :=
  match findLast (fun c => Ascii.eqb c "." || Ascii.eqb c "/") p with
  | Some i =>
      match drop i p with
      | String c _ as ext => if Ascii.eqb c "." then ext else ""
      | EmptyString => ""
      end
  | None => ""
  end.

Definition TrimSuffix (s suffix : string) : string :=
  if HasPrefix (rev s) (rev suffix)
  then take (String.length s - String.length suffix) s else s.

Definition lower (s : string) : string := ToLower unicode_ToLower s.

Fixpoint findSep (p : string) : option nat :=
  match p with
  | EmptyString => None
  | String c r =>
      if Ascii.eqb c "-" || Ascii.eqb c "_" then Some O else S <$> findSep r
  end.

Definition baseNameFromURL (u : option URL) : string :=
  match u with
  | None => ""
  | Some u =>
      let p := path_Base (Path u) in
      let p := TrimSuffix p (path_Ext p) in
      match findSep p with
      | Some i => lower (take i p)
      | None => lower p
      end
  end.

Definition stationCacheKey (raw : string) : string :=
  match url_Parse raw with
  | None => ""
  | Some u => lower (Host u) +:+ "|" +:+ baseNameFromURL (Some u)
  end.

End Helpers.

(** ** The network and the observable behaviour of a session

    A session talks to the network through [client.Do].  The network is a
    script: the [n]-th request of the session is answered by the [n]-th
    [handler], applied to the URL requested.  The session's context is
    cancelled when the script is exhausted, so every request, context check
    and timer wait behind the end of the script sees a cancelled context.

    Callbacks are functions into lists of events; what a function of the
    package does to the outside is the list of events it returns. *)

Record Response := {
  StatusCode : Z;
  Location : string;      (* Header.Get("Location") *)
  IcyMetaint : string;    (* Header.Get("icy-metaint") *)
  IcyName : string;       (* Header.Get("icy-name") *)
  Body : Reader
}.

Inductive HttpResult :=
| DoError (f : fault)
| DoOK (resp : Response).

Definition handler : Type := string -> HttpResult.
Definition World : Type := list handler.

Inductive strategy := Direct | Sibling | Status.

Inductive event :=
| EvCall (s : strategy) (url : string)               (* a strategy is entered *)
| EvDo (icy : bool) (url : string) (res : HttpResult) (* client.Do, with or without Icy-MetaData: 1 *)
| EvSleep (d : Z)                                    (* time.Sleep(d) *)
| EvTick (d : Z)                                     (* a tick of a ticker of period d *)
| EvUpdate (i : Info)
| EvStrategy (h : StrategyHint).

Definition Millisecond : Z := 1000000.
Definition Second : Z := 1000000000.

Definition isSomeB {A} (o : option A) : bool :=
  match o with Some _ => true | None => false end.

Definition ctxDone (w : World) : bool :=
  match w with [] => true | _ => false end.

Definition clientDo (w : World) (url : string) : HttpResult * World :=
  match w with
  | [] => (DoError Canceled, [])
  | h :: w' => (h url, w')
  end.

(** The check of the [icy-metaint] header made by the direct strategy and
    by the sibling probe. *)
Definition metaIntOf (resp : Response) : option Z :=
  if String.eqb (IcyMetaint resp) "" then None
  else match Atoi (IcyMetaint resp) with
       | Some metaInt => if metaInt <=? 0 then None else Some metaInt
       | None => None
       end.

Definition isRedirect (resp : Response) : bool :=
  (300 <=? StatusCode resp) && (StatusCode resp <? 400).

(** The process-wide [siblingCache]: family key to sibling URL. *)
Abbreviation siblingCache := (gmap string string).

Section Strategies.
Context `{GoLib}.

(** *** direct_icy.go: the direct strategy *)

(** The read loop of [directStrategy.Watch].  A round consumes
    [metaInt + 1] bytes or more, so [fuel = len(body)] rounds are enough; with
    an empty body the next read reports the end of the stream. *)
Fixpoint readLoop (fuel : nat) (metaInt : Z) (station : string)
    (onUpdate : Info -> list event) (r : Reader) : error * list event :=
  match fuel with
  | O => (endError r, [])
  | S fuel' =>
      match ReadFull r metaInt with
      | inr (_, err, _) => (err, [])
      | inl (_, r1) =>
          match ReadByte r1 with
          | inr err => (err, [])
          | inl (length, r2) =>
              let metaLen := byteZ length * 16 in
              if metaLen =? 0 then readLoop fuel' metaInt station onUpdate r2
              else
                match ReadFull r2 metaLen with
                | inr (_, err, _) => (err, [])
                | inl (metaBuf, r3) =>
                    let text := extractStreamTitle metaBuf in
                    let ev :=
                      if negb (String.eqb text "")
                      then onUpdate {| Title := fixMojibake text; Description := "";
                                       Station := Html.UnescapeString station |}
                      else [] in
                    let '(err, tr) := readLoop fuel' metaInt station onUpdate r3 in
                    (err, ev ++ tr)
                end
          end
      end
  end.

(** [directStrategy.Watch].  Every [return] of the Go function returns a
    non-nil error, so the result is an [error]. *)
Fixpoint directWatch (w : World) (streamURL : string)
    (onReady : option (list event)) (onUpdate : Info -> list event)
    : error * list event * World :=
  match url_Parse streamURL with
  | None => (urlError streamURL, [EvCall Direct streamURL], w)
  | Some _ =>
      match w with
      | [] => (faultError Canceled,
               [EvCall Direct streamURL; EvDo true streamURL (DoError Canceled)], [])
      | h :: w' =>
          match h streamURL with
          | DoError f =>
              (faultError f, [EvCall Direct streamURL; EvDo true streamURL (DoError f)], w')
          | DoOK resp =>
              let evs := [EvCall Direct streamURL; EvDo true streamURL (DoOK resp)] in
              if isRedirect resp then
                let loc := Location resp in
                if String.eqb loc "" then (errorsNew "redirect without location", evs, w')
                else
                  let '(err, tr, w'') := directWatch w' loc onReady onUpdate in
                  (err, evs ++ tr, w'')
              else
                match metaIntOf resp with
                | None => (errNoICY, evs, w')
                | Some metaInt =>
                    let station := TrimSpace (IcyName resp) in
                    let ev1 :=
                      if negb (String.eqb station "")
                      then onUpdate {| Title := ""; Description := "";
                                       Station := Html.UnescapeString station |}
                      else [] in
                    let ev2 := match onReady with Some f => f | None => [] end in
                    let '(err, tr) :=
                      readLoop (String.length (buffered (Body resp))) metaInt station
                               onUpdate (Body resp) in
                    (err, evs ++ ev1 ++ ev2 ++ tr, w')
                end
          end
      end
  end.

(** *** direct_icy.go: sibling discovery *)


Definition detectSiblingSuffix (path : string) : string :=
  if String.eqb path "" then ""
  else
    let lastSep := LastIndexAny path "-_." in
    if (0 <=? lastSep) && (lastSep + 1 <? len path) then sliceFrom path (lastSep + 1)
    else Trim path "/".

Definition priorities : list string :=
  [ "320"; "320k"; "256"; "256k"; "192"; "192k"; "128"; "128k";
    "stream"; "live"; "aac"; "aacp"; "mp3" ].

Definition buildSiblingCandidates (originalPath : string) : list string :=
  if String.eqb originalPath "" then []
  else
    let orig := originalPath in
    let orig := if negb (HasPrefix orig "/") then "/" +:+ orig else orig in
    let suffix := detectSiblingSuffix orig in
    if String.eqb suffix "" then []
    else (fun label => Replace1 orig suffix label) <$> priorities.

(** What [probeCandidate] makes of the answer to its request. *)
Definition probeResult (res : HttpResult) : string * string * bool :=
  match res with
  | DoError _ => ("", "", false)
  | DoOK resp =>
      match metaIntOf resp with
      | None => ("", "", false)
      | Some metaInt =>
          let '(title, err, _) := firstMetaBlock (Some (Body resp)) metaInt in
          if isSomeB err || String.eqb (TrimSpace title) "" then ("", "", false)
          else
            let station := TrimSpace (IcyName resp) in
            (fixMojibake title, fixMojibake station, true)
      end
  end.

Definition probeCandidate (w : World) (candidate : string)
    : (string * string * bool) * list event * World :=
  match url_Parse candidate with
  | None => (("", "", false), [], w)
  | Some _ =>
      let '(res, w') := clientDo w candidate in
      (probeResult res, [EvDo true candidate res], w')
  end.

(** The loop of [scanCandidates] over the candidates that are left. *)
Fixpoint probeEach (u : URL) (candidates : list string) (w : World)
    : (string * Info * option error) * list event * World :=
  match candidates with
  | [] => (("", emptyInfo, Some (errorsNew "no sibling metadata")), [], w)
  | suffix :: rest =>
      if ctxDone w then (("", emptyInfo, Some (faultError Canceled)), [], w)
      else
        let cand := {| Scheme := Scheme u; Host := Host u; Path := suffix; RawQuery := "" |} in
        let candURL := URL_String cand in
        let '((title, station, ok), ev, w1) := probeCandidate w candURL in
        if ok then
          ((URL_String cand,
            {| Title := title; Description := ""; Station := station |}, None), ev, w1)
        else
          let pause := match rest with [] => [] | _ :: _ => [EvSleep (80 * Millisecond)] end in
          let '(res, tr, w2) := probeEach u rest w1 in
          (res, ev ++ pause ++ tr, w2)
  end.

Definition scanCandidates (w : World) (streamURL : string)
    : (string * Info * option error) * list event * World :=
  match url_Parse streamURL with
  | None => (("", emptyInfo, Some (errorsNew "invalid url")), [], w)
  | Some u =>
      let candidates := buildSiblingCandidates (Path u) in
      match candidates with
      | [] => (("", emptyInfo, Some (errorsNew "no candidates")), [], w)
      | _ => probeEach u candidates w
      end
  end.

Definition cacheLoad (cache : siblingCache) (key : string) : option string :=
  if String.eqb key "" then None
  else match cache !! key with
       | Some target => if String.eqb target "" then None else Some target
       | None => None
       end.

Definition Discover (cache : siblingCache) (w : World) (streamURL : string)
    : (string * Info * option error) * list event * siblingCache * World :=
  let key := stationCacheKey streamURL in
  match cacheLoad cache key with
  | Some target => ((target, emptyInfo, None), [EvCall Sibling streamURL], cache, w)
  | None =>
      let '((target, info, err), tr, w') := scanCandidates w streamURL in
      let cache' :=
        if negb (isSomeB err) && negb (String.eqb key "")
        then <[key := target]> cache else cache in
      ((target, info, err), EvCall Sibling streamURL :: tr, cache', w')
  end.

End Strategies.

Section StatusAndDispatcher.
Context `{GoLib}.

(** *** status_json.go *)

(** [path.Dir] and [path.Join], over [path.Clean]. *)
Definition path_Dir (p : string) : string :=
  let i := LastIndexByte p "/" in
  path_Clean (sliceTo p (i + 1)).

Fixpoint joinElems (buf : string) (elem : list string) : string :=
  match elem with
  | [] => buf
  | e :: rest =>
      if negb (String.eqb buf "") || negb (String.eqb e "") then
        joinElems ((if negb (String.eqb buf "") then buf +:+ "/" else buf) +:+ e) rest
      else joinElems buf rest
  end.

Definition path_Join (elem : list string) : string :=
  if forallb (fun e => String.eqb e "") elem then ""
  else path_Clean (joinElems "" elem).

(** A URL with its path replaced; [None] for a parse error. *)
Definition buildStatusURL (streamURL : string) : option string :=
  match url_Parse streamURL with
  | None => None
  | Some u =>
      let u := {| Scheme := Scheme u; Host := Host u;
                  Path := path_Join ["/"; path_Dir (Path u); "status-json.xsl"];
                  RawQuery := RawQuery u |} in
      Some (URL_String u)
  end.

Definition extractSources (v : any) : list iceSource :=
  match v with
  | anyMap _ => match json_toSource v with Some s => [s] | None => [] end
  | anySlice items => omap json_toSource items
  | _ => []
  end.

(** The loop of [pollOnce] over the sources. *)
Fixpoint firstTitled (sources : list iceSource) : string * string * bool :=
  match sources with
  | [] => ("", "", false)
  | src :: rest =>
      if negb (String.eqb (TrimSpace (srcTitle src)) "") then
        let station := srcServer src in
        let station := if String.eqb (TrimSpace station) "" then srcIcyName src else station in
        (srcTitle src, station, true)
      else firstTitled rest
  end.

(** What [pollOnce] makes of the answer to its request; the decoder reads
    at most [1<<20] bytes of the body. *)
Definition pollResult (res : HttpResult) : string * string * bool :=
  match res with
  | DoError _ => ("", "", false)
  | DoOK resp =>
      if (StatusCode resp <? 200) || (300 <=? StatusCode resp) then ("", "", false)
      else
        match json_Decode (sliceTo (buffered (Body resp)) 1048576) with
        | None => ("", "", false)
        | Some source => firstTitled (extractSources source)
        end
  end.

Definition pollOnce (w : World) (apiURL : string)
    : (string * string * bool) * list event * World :=
  match url_Parse apiURL with
  | None => (("", "", false), [], w)
  | Some _ =>
      let '(res, w') := clientDo w apiURL in
      (pollResult res, [EvDo false apiURL res], w')
  end.

(** The [for]/[select] loop of [statusJSONStrategy.Watch]: the context is
    done when the script is exhausted; otherwise the ticker fires and the
    poll is answered by the next handler of the script. *)
Fixpoint pollLoop (w : World) (apiURL : string) (onUpdate : Info -> list event)
    : error * list event * World :=
  match w with
  | [] => (faultError Canceled, [], [])
  | h :: w' =>
      let '((title, station, ok), ev, _) := pollOnce [h] apiURL in
      let out :=
        if ok then onUpdate {| Title := title; Description := ""; Station := station |}
        else [] in
      let '(err, tr, w'') := pollLoop w' apiURL onUpdate in
      (err, EvTick (10 * Second) :: ev ++ out ++ tr, w'')
  end.

Definition statusWatch (w : World) (streamURL apiURL : string)
    (onReady : option (string -> list event)) (onUpdate : Info -> list event)
    : error * list event * World :=
  let call := EvCall Status streamURL in
  match (if String.eqb (TrimSpace apiURL) "" then buildStatusURL streamURL
         else Some apiURL) with
  | None => (urlError streamURL, [call], w)
  | Some apiURL =>
      let '((title, station, ok), ev, w1) := pollOnce w apiURL in
      if negb ok then (errorsNew "status-json unavailable", call :: ev, w1)
      else
        let ready := match onReady with Some f => f apiURL | None => [] end in
        let first := onUpdate {| Title := title; Description := ""; Station := station |} in
        let '(err, tr, w2) := pollLoop w1 apiURL onUpdate in
        (err, call :: ev ++ ready ++ first ++ tr, w2)
  end.

(** *** provider.go: the dispatcher *)

Definition notify (onStrategy : option (StrategyHint -> list event)) (h : StrategyHint)
    : list event :=
  match onStrategy with Some f => f h | None => [] end.

(** [autoWatch]: the events of the session, the sibling cache and the
    script that are left. *)
Definition autoWatch (cache : siblingCache) (w : World) (streamURL : string)
    (onUpdate : Info -> list event) (onStrategy : option (StrategyHint -> list event))
    : list event * siblingCache * World :=
  let '(err, tr1, w1) :=
    directWatch w streamURL
      (Some (notify onStrategy {| Type_ := MetadataTypeICY; URL_ := streamURL |}))
      onUpdate in
  if negb (isNoICY err) then (tr1, cache, w1)
  else
    let '((target, info, derr), tr2, cache', w2) := Discover cache w1 streamURL in
    match derr with
    | None =>
        let ev1 := notify onStrategy {| Type_ := MetadataTypeICY; URL_ := target |} in
        let ev2 :=
          if negb (String.eqb (Title info) "") || negb (String.eqb (Station info) "")
          then onUpdate info else [] in
        let '(_, tr3, w3) := directWatch w2 target None onUpdate in
        (tr1 ++ tr2 ++ ev1 ++ ev2 ++ tr3, cache', w3)
    | Some _ =>
        let '(_, tr3, w3) :=
          statusWatch w2 streamURL ""
            (Some (fun api => notify onStrategy {| Type_ := MetadataTypeJSON; URL_ := api |}))
            onUpdate in
        (tr1 ++ tr2 ++ tr3, cache', w3)
    end.

Definition runDirect (w : World) (url : string)
    (onUpdate : Info -> list event) (onStrategy : option (StrategyHint -> list event))
    : list event * World :=
  let '(_, tr, w') :=
    directWatch w url
      (Some (notify onStrategy {| Type_ := MetadataTypeICY; URL_ := url |})) onUpdate in
  (tr, w').

Definition runStatus (w : World) (streamURL apiURL : string)
    (onUpdate : Info -> list event) (onStrategy : option (StrategyHint -> list event))
    : list event * World :=
  let '(_, tr, w') :=
    statusWatch w streamURL apiURL
      (Some (fun actual => notify onStrategy {| Type_ := MetadataTypeJSON; URL_ := actual |}))
      onUpdate in
  (tr, w').

(** [dispatcher.Watch]: what the goroutine it starts does.  The context of
    a session is never nil here. *)
Definition Watch (cache : siblingCache) (w : World) (streamURL : string)
    (hint : StrategyHint) (onUpdate : option (Info -> list event))
    (onStrategy : option (StrategyHint -> list event))
    : list event * siblingCache * World :=
  match onUpdate with
  | None => ([], cache, w)
  | Some onUpdate =>
      if String.eqb streamURL "" then ([], cache, w)
      else
        let hType := ToUpper unicode_ToUpper (TrimSpace (Type_ hint)) in
        if String.eqb hType MetadataTypeJSON then
          let target := URL_ hint in
          let '(tr, w') := runStatus w streamURL target onUpdate onStrategy in
          (tr, cache, w')
        else if String.eqb hType MetadataTypeICY then
          let target := URL_ hint in
          let target := if String.eqb target "" then streamURL else target in
          let '(tr, w') := runDirect w target onUpdate onStrategy in
          (tr, cache, w')
        else autoWatch cache w streamURL onUpdate onStrategy
  end.

End StatusAndDispatcher.
End Metadata.

(** ** Package [player]: the title stabilizer

    Time is [time.Time] as nanoseconds on the monotonic clock.  A call of
    [handleICYTitle] and the body of a delayed apply are atomic steps: the
    races between the two critical sections of one call are not modelled.
    The goroutine armed by [handleICYTitle] is a [Timer]: the value it
    captured and the time before which [time.Sleep] does not return. *)

Module Player.
Import Strings.

Definition Second : Z := 1000000000.

Definition stableWindow : Z := 6 * Second.
Definition nearEndThreshold : Z := 10 * Second.

Record Player := {
  onNow : option (string -> list string);
  currentTitle : string;
  pendingTitle : string;
  firstSeenPending : Z
}.

Record Timer := { pending : string; wake : Z }.

(** [remainingDur]: the fallback implementation. *)
Definition remainingDur (pl : Player) : Z * bool := (0, false).

Definition call (cb : option (string -> list string)) (out : string) : list string :=
  match cb with Some f => f out | None => [] end.

(** [handleICYTitle] at time [now]: the new state, the calls of [onNow]
    and the goroutine that is started. *)
Definition handleICYTitle (now : Z) (raw : string) (pl : Player)
    : Player * list string * option Timer :=
  let title := TrimSpace (Html.UnescapeString raw) in
  if String.eqb title "" then (pl, [], None)
  else if String.eqb title (currentTitle pl) then (pl, [], None)
  else if negb (String.eqb title (pendingTitle pl)) then
    let pl := {| onNow := onNow pl; currentTitle := currentTitle pl;
                 pendingTitle := title; firstSeenPending := now |} in
    let pending := pendingTitle pl in
    (pl, [], Some {| pending := pending; wake := now + stableWindow |})
  else
    let first := firstSeenPending pl in
    if now - first <? stableWindow then (pl, [], None)
    else
      let '(rem, ok) := remainingDur pl in
      if ok && (nearEndThreshold <? rem) then (pl, [], None)
      else
        let pl := {| onNow := onNow pl; currentTitle := pendingTitle pl;
                     pendingTitle := pendingTitle pl;
                     firstSeenPending := firstSeenPending pl |} in
        let applied := currentTitle pl in
        (pl, call (onNow pl) applied, None).

(** The body of the goroutine after [time.Sleep(stableWindow)]. *)
Definition delayedApply (pending : string) (pl : Player) : Player * list string :=
  if negb (String.eqb (pendingTitle pl) pending) || String.eqb (currentTitle pl) pending
  then (pl, [])
  else
    let '(rem, ok) := remainingDur pl in
    if ok && (nearEndThreshold <? rem) then (pl, [])
    else
      let pl := {| onNow := onNow pl; currentTitle := pending;
                   pendingTitle := pendingTitle pl;
                   firstSeenPending := firstSeenPending pl |} in
      let out := currentTitle pl in
      (pl, call (onNow pl) out).

(** The stabilizer with its sleeping goroutines. *)
Record System := { player : Player; timers : list Timer; clock : Z }.

Inductive action :=
| Receive (now : Z) (raw : string)   (* handleICYTitle(raw) is called at time now *)
| Fire (now : Z) (k : nat).          (* the k-th sleeping goroutine wakes up at time now *)

Fixpoint remove {A} (k : nat) (l : list A) : list A :=
  match l, k with
  | [], _ => []
  | _ :: r, O => r
  | x :: r, S k' => x :: remove k' r
  end.

(** One step: the new system and the titles shown by [onNow]; [None] when
    the action cannot happen (time runs backwards, no such goroutine, or a
    goroutine waking up before its sleep is over). *)
Definition step (s : System) (a : action) : option (System * list string) :=
  match a with
  | Receive now raw =>
      if now <? clock s then None
      else
        let '(pl, out, t) := handleICYTitle now raw (player s) in
        Some ({| player := pl;
                 timers := timers s ++ match t with Some t => [t] | None => [] end;
                 clock := now |}, out)
  | Fire now k =>
      match timers s !! k with
      | None => None
      | Some t =>
          if (now <? clock s) || (now <? wake t) then None
          else
            let '(pl, out) := delayedApply (pending t) (player s) in
            Some ({| player := pl; timers := remove k (timers s); clock := now |}, out)
      end
  end.

Fixpoint run (s : System) (acts : list action) : option (System * list string) :=
  match acts with
  | [] => Some (s, [])
  | a :: rest =>
      match step s a with
      | None => None
      | Some (s', out) =>
          match run s' rest with
          | None => None
          | Some (s'', out') => Some (s'', out ++ out')
          end
      end
  end.

(** A display callback that shows every title it is given. *)
Definition display : option (string -> list string) := Some (fun t => [t]).

(** The title that [handleICYTitle] works with. *)
Definition normalize (raw : string) : string := TrimSpace (Html.UnescapeString raw).

(** The actions receive no title that normalizes to [t]. *)
Fixpoint neverReceives (t : string) (acts : list action) : bool :=
  match acts with
  | [] => true
  | Receive _ raw :: rest => negb (String.eqb (normalize raw) t) && neverReceives t rest
  | Fire _ _ :: rest => neverReceives t rest
  end.

(** The state after [Init] and after a stream is loaded. *)
Definition initial (cb : option (string -> list string)) : System :=
  {| player := {| onNow := cb; currentTitle := ""; pendingTitle := "";
                  firstSeenPending := 0 |};
     timers := []; clock := 0 |}.

End Player.

(** ** Package [player]: volume and mute

    The fields [volume] and [muted] of [Player].  The calls made on the
    libVLC player [pl.p] are recorded in the order they are made; Go's
    [int] has 64 bits. *)

Module Controls.

Inductive vlcCall :=
| VlcSetVolume (v : Z)
| VlcToggleMute.

Record Player := { volume : Z; muted : bool }.

Definition wrapInt (z : Z) : Z := (z + 2 ^ 63) mod 2 ^ 64 - 2 ^ 63.

Definition clamp (v lo hi : Z) : Z :=
  if v <? lo then lo else if hi <? v then hi else v.

(** The fields as [NewPlayer] sets them. *)
Definition NewPlayer : Player := {| volume := 70; muted := false |}.

(** Step 3 of [Init], once libVLC and its player are there. *)
Definition Init (volume0 : Z) (muted0 : bool) (pl : Player) : Player * list vlcCall :=
  let pl := {| volume := clamp volume0 0 100; muted := muted pl |} in
  let calls := [VlcSetVolume (volume pl)] in
  if muted0 then ({| volume := volume pl; muted := true |}, calls ++ [VlcToggleMute])
  else (pl, calls).

(** [ToggleMute]: the new state, the calls, and the pair returned. *)
Definition ToggleMute (pl : Player) : Player * list vlcCall * (bool * Z) :=
  let pl := {| volume := volume pl; muted := negb (muted pl) |} in
  let v := volume pl in
  (pl, [VlcToggleMute], (muted pl, v)).

(** [SetVolume]; the error returned is the one of libVLC's [SetVolume],
    [err]. *)
Definition SetVolume (err : option string) (v : Z) (pl : Player)
    : Player * list vlcCall * option string :=
  let v := clamp v 0 100 in
  ({| volume := v; muted := muted pl |}, [VlcSetVolume v], err).

Definition SetMute (m : bool) (pl : Player) : Player * list vlcCall :=
  let calls := if negb (Bool.eqb m (muted pl)) then [VlcToggleMute] else [] in
  ({| volume := volume pl; muted := m |}, calls).

Definition Vol (delta : Z) (pl : Player) : Player * list vlcCall * Z :=
  let newV := clamp (wrapInt (volume pl + delta)) 0 100 in
  ({| volume := newV; muted := muted pl |}, [VlcSetVolume newV], newV).

End Controls.

(** ** Package [player]: the ICY watcher

    The two closures that [startICYWatcher] hands to the provider, and the
    reset of the title stabilizer by [Load] and [Stop]. *)

Module Watcher.
Import Strings Metadata.

(** The [onUpdate] closure.  [didSendStation] is the variable it
    captures; the result is its new value, the calls of [cbStation] and the
    titles handed to [handleICYTitle]. *)
Definition onUpdate (cbStation : option (string -> list string)) (didSendStation : bool)
    (info : Info) : bool * list string * list string :=
  let '(didSendStation, sent) :=
    if negb didSendStation && isSomeB cbStation then
      let name := TrimSpace (Station info) in
      if negb (String.eqb name "") then
        (true, Player.call cbStation (Html.UnescapeString name))
      else (didSendStation, [])
    else (didSendStation, []) in
  let s := TrimSpace (Title info) in
  (didSendStation, sent, if negb (String.eqb s "") then [s] else []).

(** The [onStrategy] closure: the hint kept in [metadataHintType] and
    [metadataHintURL], and the calls of [resolvedCb]. *)
Definition onStrategy {E} (resolvedCb : option (string -> string -> list E))
    (hint sel : StrategyHint) : StrategyHint * list E :=
  let hint := {| Type_ := Type_ sel; URL_ := URL_ sel |} in
  (hint, match resolvedCb with Some f => f (Type_ sel) (URL_ sel) | None => [] end).

(** [startICYWatcher], with the callbacks recorded as events: no watcher
    is started for an empty URL. *)
Definition startICYWatcher `{GoLib} (cache : siblingCache) (w : World) (url : string)
    (hint : StrategyHint) : list event * siblingCache * World :=
  if String.eqb url "" then ([], cache, w)
  else Watch cache w url hint (Some (fun i => [EvUpdate i])) (Some (fun h => [EvStrategy h])).

(** The events of a watcher delivered to the two closures, in order. *)
Fixpoint deliver {E} (cbStation : option (string -> list string))
    (resolvedCb : option (string -> string -> list E))
    (didSendStation : bool) (hint : StrategyHint) (tr : list event)
    : bool * StrategyHint * list string * list string * list E :=
  match tr with
  | [] => (didSendStation, hint, [], [], [])
  | ev :: rest =>
      match ev with
      | EvUpdate info =>
          let '(did, sent, titles) := onUpdate cbStation didSendStation info in
          let '(did', hint', sent', titles', res') :=
            deliver cbStation resolvedCb did hint rest in
          (did', hint', sent ++ sent', titles ++ titles', res')
      | EvStrategy sel =>
          let '(hint1, res) := onStrategy resolvedCb hint sel in
          let '(did', hint', sent', titles', res') :=
            deliver cbStation resolvedCb didSendStation hint1 rest in
          (did', hint', sent', titles', res ++ res')
      | _ => deliver cbStation resolvedCb didSendStation hint rest
      end
  end.

(** What [Load] and [Stop] do to the title stabilizer. *)
Definition resetTitles (pl : Player.Player) : Player.Player :=
  {| Player.onNow := Player.onNow pl; Player.currentTitle := "";
     Player.pendingTitle := ""; Player.firstSeenPending := 0 |}.

End Watcher.

(** ** Vocabulary of the statements *)

Module Spec.
Import Strings Metadata.

(** No quote inside the value [v] passes the closing test of
    [extractStreamTitle] when [tail] follows the value: none is followed,
    after blanks, by the end of the block or by a [';'] that has an ['=']
    behind it. *)
Fixpoint noInnerClose (quote : ascii) (v tail : string) : bool :=
  match v with
  | EmptyString => true
  | String c r =>
      negb (Ascii.eqb c quote && closesValue (r +:+ tail)) && noInnerClose quote r tail
  end.

End Spec.

(** ** A small instance of the library parameters

    Used to run the strategies on concrete sessions: URLs of the form
    [scheme://host/path?query] without escapes, paths that are already
    clean, and a decoder that takes a body as the title of one source. *)

Module Sample.
Import Strings Metadata.

Definition cut (s sep : string) : option (string * string) :=
  match find s sep with
  | Some i => Some (take i s, drop (i + String.length sep) s)
  | None => None
  end.

Definition parse (raw : string) : option URL :=
  match cut raw "://" with
  | None => None
  | Some (scheme, rest) =>
      let '(loc, query) := match cut rest "?" with
                           | Some (l, q) => (l, q)
                           | None => (rest, "")
                           end in
      match find loc "/" with
      | Some i => Some {| Scheme := scheme; Host := take i loc; Path := drop i loc;
                          RawQuery := query |}
      | None => Some {| Scheme := scheme; Host := loc; Path := ""; RawQuery := query |}
      end
  end.

Definition render (u : URL) : string :=
  Scheme u +:+ "://" +:+ Host u +:+ Path u
  +:+ (if String.eqb (RawQuery u) "" then "" else "?" +:+ RawQuery u).

Definition field (name : string) (v : any) : string :=
  match v with
  | anyMap fields =>
      match List.find (fun kv => String.eqb (fst kv) name) fields with
      | Some (_, anyString s) => s
      | _ => ""
      end
  | _ => ""
  end.

(** Runs of slashes collapsed, no slash at the end (but for the root). *)
Fixpoint collapse (p : string) : string :=
  match p with
  | String c r =>
      match r with
      | String d _ =>
          if Ascii.eqb c "/" && Ascii.eqb d "/" then collapse r else String c (collapse r)
      | EmptyString => if Ascii.eqb c "/" then "" else p
      end
  | EmptyString => ""
  end.

Definition clean (p : string) : string :=
  match collapse p with
  | EmptyString => if HasPrefix p "/" then "/" else "."
  | q => q
  end.

#[export] Instance lib : GoLib := {|
  url_Parse := parse;
  URL_String := render;
  unicode_ToLower := fun s => s;
  unicode_ToUpper := fun s => s;
  path_Clean := clean;
  json_Decode := fun body =>
    if String.eqb body "" then None
    else Some (anyMap [("title", anyString body); ("server_name", anyString "Station")]);
  json_toSource := fun v =>
    match v with
    | anyMap _ => Some {| srcTitle := field "title" v; srcServer := field "server_name" v;
                          srcIcyName := field "icy-name" v |}
    | _ => None
    end
|}.

(** The body of the repository's test server ([buildICYBody]): one byte of
    audio and one metadata block with the title. *)
Definition buildICYBody (title : string) : string :=
  let meta := "StreamTitle='" +:+ title +:+ "';" in
  let pad := ((16 - String.length meta mod 16) mod 16)%nat in
  let meta := meta +:+ ofBytes (repeat 0 pad) in
  ofBytes [0] +:+ String (ascii_of_nat (String.length meta / 16)) meta.

Definition icyResponse (name title : string) : Response :=
  {| StatusCode := 200; Location := ""; IcyMetaint := "1"; IcyName := name;
     Body := {| buffered := buildICYBody title; ending := None |} |}.

(** A response without ICY headers. *)
Definition plainResponse (status : Z) (body : string) : Response :=
  {| StatusCode := status; Location := ""; IcyMetaint := ""; IcyName := "";
     Body := {| buffered := body; ending := None |} |}.

(** The server of the repository's fallback tests: a stream without ICY
    headers, a sibling with them, and a status endpoint. *)
Definition testServer : handler := fun url =>
  match parse url with
  | Some u =>
      if String.eqb (Path u) "/rock-flac" then DoOK (plainResponse 200 "flac stream without icy")
      else if String.eqb (Path u) "/rock-320" then DoOK (icyResponse "Rock Paradise" "Test Title")
      else if String.eqb (Path u) "/status-json.xsl" then DoOK (plainResponse 200 "A - B")
      else DoOK (plainResponse 404 "404 page not found")
  | None => DoError (Failure "unsupported protocol scheme")
  end.

End Sample.

(** ** Vocabulary of the statements about sessions *)

Module Observe.
Import Strings Metadata.

(** The path as [buildSiblingCandidates] uses it. *)
Definition withSlash (path : string) : string :=
  if negb (HasPrefix path "/") then "/" +:+ path else path.

Fixpoint noneOf (chars : string) (s : string) : bool :=
  match s with
  | EmptyString => true
  | String c r => negb (mem c chars) && noneOf chars r
  end.

Fixpoint slashes (n : nat) : string :=
  match n with O => "" | S n' => String "/" (slashes n') end.

(** The URL probed for a candidate path. *)
Definition candidateURL `{GoLib} (u : URL) (suffix : string) : string :=
  URL_String {| Scheme := Scheme u; Host := Host u; Path := suffix; RawQuery := "" |}.

Definition parseable `{GoLib} (urls : list string) : list string :=
  List.filter (fun x => isSomeB (url_Parse x)) urls.

(** The ICY requests of a trace, with the verdict of the probe on the
    answer. *)
Definition probeOutcomes (tr : list event) : list (string * bool) :=
  omap (fun ev => match ev with
                  | EvDo true url res => Some (url, snd (probeResult res))
                  | _ => None
                  end) tr.

Definition failed (urls : list string) : list (string * bool) :=
  (fun x => (x, false)) <$> urls.

(** What one round of the poll loop of the status strategy does when the
    network answers with [h]. *)
Definition tickEvents `{GoLib} (apiURL : string) (onUpdate : Info -> list event)
    (h : handler) : list event :=
  EvTick (10 * Second) :: EvDo false apiURL (h apiURL)
  :: match pollResult (h apiURL) with
     | (title, station, true) =>
         onUpdate {| Title := title; Description := ""; Station := station |}
     | (_, _, false) => []
     end.

(** The API URL that [statusJSONStrategy.Watch] polls. *)
Definition resolvedAPI `{GoLib} (streamURL apiURL : string) : option string :=
  if String.eqb (TrimSpace apiURL) "" then buildStatusURL streamURL else Some apiURL.

Definition titled (src : iceSource) : bool :=
  negb (String.eqb (TrimSpace (srcTitle src)) "").

(** Callbacks that record their calls. *)
Definition recordUpdate : Info -> list event := fun i => [EvUpdate i].
Definition recordStrategy : option (StrategyHint -> list event) :=
  Some (fun h => [EvStrategy h]).

(** The strategies entered in a trace, and the hints reported in it. *)
Definition callsOf (tr : list event) : list strategy :=
  omap (fun ev => match ev with EvCall s _ => Some s | _ => None end) tr.

Definition strategiesOf (tr : list event) : list StrategyHint :=
  omap (fun ev => match ev with EvStrategy h => Some h | _ => None end) tr.

(** The response that ends the chain of redirects followed by the direct
    strategy from [url], if the chain gets that far. *)
Fixpoint finalResponse `{GoLib} (w : World) (url : string) : option Response :=
  match url_Parse url with
  | None => None
  | Some _ =>
      match w with
      | [] => None
      | h :: w' =>
          match h url with
          | DoError _ => None
          | DoOK resp =>
              if isRedirect resp then
                if String.eqb (Location resp) "" then None
                else finalResponse w' (Location resp)
              else Some resp
          end
      end
  end.

(** A successful protocol handshake for a hint: an answer to an ICY
    request with a positive [icy-metaint], or a successful poll of the
    hint's URL. *)
Definition handshake `{GoLib} (h : StrategyHint) (ev : event) : bool :=
  match ev with
  | EvDo icy url (DoOK resp) =>
      if String.eqb (Type_ h) MetadataTypeICY then icy && isSomeB (metaIntOf resp)
      else if String.eqb (Type_ h) MetadataTypeJSON then
        negb icy && String.eqb url (URL_ h) && snd (pollResult (DoOK resp))
      else false
  | _ => false
  end.

(** Every hint reported in [tr] comes behind a handshake for it, in [tr]
    or in the events [seen] before. *)
Fixpoint backed `{GoLib} (seen tr : list event) : bool :=
  match tr with
  | [] => true
  | ev :: rest =>
      match ev with
      | EvStrategy h => existsb (handshake h) seen
      | _ => true
      end && backed (seen ++ [ev]) rest
  end.

(** The hint is the sibling that the cache holds for the stream URL. *)
Definition cachedSibling `{GoLib} (cache : siblingCache) (url : string)
    (h : StrategyHint) : bool :=
  String.eqb (Type_ h) MetadataTypeICY
  && match cacheLoad cache (stationCacheKey url) with
     | Some target => String.eqb target (URL_ h)
     | None => false
     end.

(** [backed], with the hints that satisfy [excuse] passed. *)
Fixpoint backedBut `{GoLib} (excuse : StrategyHint -> bool) (seen tr : list event) : bool :=
  match tr with
  | [] => true
  | ev :: rest =>
      match ev with
      | EvStrategy h => existsb (handshake h) seen || excuse h
      | _ => true
      end && backedBut excuse (seen ++ [ev]) rest
  end.

(** Watch sessions of one process, one after the other on the shared
    sibling cache. *)
Record session := { sURL : string; sHint : StrategyHint; sScript : World }.

Definition runSession `{GoLib} (cache : siblingCache) (s : session)
    : list event * siblingCache :=
  let '(tr, cache', _) :=
    Watch cache (sScript s) (sURL s) (sHint s) (Some recordUpdate) recordStrategy in
  (tr, cache').

Fixpoint runSessions `{GoLib} (cache : siblingCache) (ss : list session)
    : list event * siblingCache :=
  match ss with
  | [] => ([], cache)
  | s :: rest =>
      let '(tr, cache1) := runSession cache s in
      let '(tr', cache2) := runSessions cache1 rest in
      (tr ++ tr', cache2)
  end.

(** Kinds of events. *)
Definition isUpdate (ev : event) : Prop :=
  match ev with EvUpdate _ => True | _ => False end.

(** The events of a request chain of the direct strategy. *)
Definition isRequest (ev : event) : Prop :=
  match ev with EvCall Direct _ | EvDo true _ _ => True | _ => False end.

Definition noStrategy (ev : event) : Prop :=
  match ev with EvStrategy _ => False | _ => True end.

Definition isProbeIO (ev : event) : Prop :=
  match ev with EvDo true _ _ | EvSleep _ => True | _ => False end.

Definition isPollIO (ev : event) : Prop :=
  match ev with EvTick _ | EvDo false _ _ | EvUpdate _ => True | _ => False end.

(** An ICY handshake among the events. *)
Definition icySeen `{GoLib} (seen : list event) : bool :=
  existsb (handshake {| Type_ := MetadataTypeICY; URL_ := "" |}) seen.


End Observe.

(** ** Vocabulary of the statements about the player *)

Module Measure.
Import Controls.

(** A call of the application on the volume and mute controls. *)
Inductive op :=
| OpSetVolume (err : option string) (v : Z)
| OpVol (delta : Z)
| OpToggleMute
| OpSetMute (m : bool).

Definition exec (pl : Player) (o : op) : Player * list vlcCall :=
  match o with
  | OpSetVolume err v => fst (SetVolume err v pl)
  | OpVol delta => fst (Vol delta pl)
  | OpToggleMute => fst (ToggleMute pl)
  | OpSetMute m => SetMute m pl
  end.

Fixpoint execAll (pl : Player) (ops : list op) : Player * list vlcCall :=
  match ops with
  | [] => (pl, [])
  | o :: rest =>
      let '(pl1, calls1) := exec pl o in
      let '(pl2, calls2) := execAll pl1 rest in
      (pl2, calls1 ++ calls2)
  end.

(** A player after [NewPlayer], [Init] and the calls [ops], with the calls
    made on libVLC. *)
Definition session (volume0 : Z) (muted0 : bool) (ops : list op) : Player * list vlcCall :=
  let '(pl, calls0) := Init volume0 muted0 NewPlayer in
  let '(pl', calls) := execAll pl ops in
  (pl', calls0 ++ calls).

(** The mute state of a libVLC player that starts unmuted, and the volume
    it was last given. *)
Fixpoint vlcMuted (calls : list vlcCall) : bool :=
  match calls with
  | [] => false
  | VlcToggleMute :: rest => negb (vlcMuted rest)
  | VlcSetVolume _ :: rest => vlcMuted rest
  end.

Fixpoint vlcVolume (calls : list vlcCall) : option Z :=
  match calls with
  | [] => None
  | c :: rest =>
      match vlcVolume rest with
      | Some v => Some v
      | None => match c with VlcSetVolume v => Some v | VlcToggleMute => None end
      end
  end.

(** The time of an action of the title stabilizer. *)
Definition at_ (a : Player.action) : Z :=
  match a with Player.Receive now _ | Player.Fire now _ => now end.


(** What the controls keep: the volume is in range and is the one libVLC
    was last given, and the mute flag is libVLC's mute state. *)
Definition inSync (pl : Player) (calls : list vlcCall) : Prop :=
  0 <= volume pl <= 100
  /\ vlcVolume calls = Some (volume pl)
  /\ muted pl = vlcMuted calls.

(** The title [t] was received at time [t0] in the actions [hist]. *)
Definition received (hist : list Player.action) (t : string) (t0 : Z) : Prop :=
  exists raw, Player.Receive t0 raw ∈ hist /\ Player.normalize raw = t.

(** What the stabilizer keeps along the actions [hist]: every sleeping
    goroutine holds a title that is not empty and was received one
    [stableWindow] before its wake-up time, and a pending title was
    received at the time kept with it. *)
Definition armed (hist : list Player.action) (s : Player.System) : Prop :=
  Player.onNow (Player.player s) = Player.display
  /\ (forall tm, tm ∈ Player.timers s ->
        Player.pending tm <> ""
        /\ received hist (Player.pending tm) (Player.wake tm - Player.stableWindow))
  /\ (Player.pendingTitle (Player.player s) <> "" ->
      received hist (Player.pendingTitle (Player.player s))
        (Player.firstSeenPending (Player.player s))).

End Measure.

(** ** Vocabulary of the statements about the traffic of a session *)

Module Traffic.
Import Strings Metadata.

(** The requests of a trace (with or without [Icy-MetaData: 1]), its
    pauses, and the [Info] values it emits. *)
Definition requestsOf (tr : list event) : list (bool * string) :=
  omap (fun ev => match ev with EvDo icy url _ => Some (icy, url) | _ => None end) tr.

Definition pausesOf (tr : list event) : list Z :=
  omap (fun ev => match ev with EvSleep d => Some d | _ => None end) tr.

Definition updatesOf (tr : list event) : list Info :=
  omap (fun ev => match ev with EvUpdate i => Some i | _ => None end) tr.

(** An [Info] with a station name, and one with a title, that is not
    blank. *)
Definition namesStation (i : Info) : bool :=
  negb (String.eqb (TrimSpace (Station i)) "").

Definition forwardedTitle (i : Info) : option string :=
  let s := TrimSpace (Title i) in
  if negb (String.eqb s "") then Some s else None.

(** The station that [pollOnce] reports for a source. *)
Definition stationOf (src : iceSource) : string :=
  if String.eqb (TrimSpace (srcServer src)) "" then srcIcyName src else srcServer src.

End Traffic.

(** * Properties *)

(** ** Facts about the string functions *)

Module StringFacts.
Import Strings.

Lemma append_nil_r (s : string) : s +:+ "" = s.
Proof. induction s as [|c s IH]; simpl; [reflexivity | now rewrite IH]. Qed.

Lemma append_assoc (a b c : string) : (a +:+ b) +:+ c = a +:+ (b +:+ c).
Proof. induction a as [|x a IH]; simpl; [reflexivity | now rewrite IH]. Qed.

Lemma length_append (a b : string) :
  String.length (a +:+ b) = (String.length a + String.length b)%nat.
Proof.
  induction a as [|x a IH]; simpl; [reflexivity | now rewrite IH].
Qed.

Lemma rev_append (a b : string) : rev (a +:+ b) = rev b +:+ rev a.
Proof.
  induction a as [|x a IH].
  - symmetry. apply append_nil_r.
  - cbn [rev String.append]. now rewrite IH, append_assoc.
Qed.

Lemma rev_involutive (s : string) : rev (rev s) = s.
Proof.
  induction s as [|c s IH]; simpl; [reflexivity|].
  now rewrite rev_append, IH.
Qed.

Lemma take_append (a b : string) : take (String.length a) (a +:+ b) = a.
Proof. induction a as [|x a IH]; simpl; [now destruct b | now rewrite IH]. Qed.

Lemma drop_append (a b : string) : drop (String.length a) (a +:+ b) = b.
Proof. induction a as [|x a IH]; simpl; [reflexivity | exact IH]. Qed.

Lemma drop_add (n m : nat) (s : string) : drop (n + m) s = drop m (drop n s).
Proof.
  revert s; induction n as [|n IH]; intros s; [reflexivity|].
  destruct s as [|c s]; simpl; [now destruct m | apply IH].
Qed.

Lemma take_drop (n : nat) (s : string) : take n s +:+ drop n s = s.
Proof.
  revert s; induction n as [|n IH]; intros [|c s]; simpl; try reflexivity.
  now rewrite IH.
Qed.

Lemma length_drop (n : nat) (s : string) :
  String.length (drop n s) = (String.length s - n)%nat.
Proof.
  revert s; induction n as [|n IH]; intros [|c s]; simpl; try reflexivity; try lia.
  apply IH.
Qed.

Lemma length_take (n : nat) (s : string) :
  String.length (take n s) = Nat.min n (String.length s).
Proof.
  revert s; induction n as [|n IH]; intros [|c s]; simpl; try reflexivity.
  now rewrite IH.
Qed.

Lemma eqb_empty (s : string) : String.eqb s "" = true <-> s = "".
Proof. destruct s; simpl; split; congruence. Qed.

Lemma eqb_nonempty (s : string) : String.eqb s "" = false <-> s <> "".
Proof. destruct s; simpl; split; congruence. Qed.

Lemma append_eq_nil (a b : string) : a +:+ b = "" -> a = "" /\ b = "".
Proof. destruct a; simpl; [auto | discriminate]. Qed.

(** The last match is behind a prefix without matches. *)
Lemma findLast_append_hit (p : ascii -> bool) (a : string) (c : ascii) (b : string) :
  p c = true -> findLast p b = None ->
  findLast p (a +:+ String c b) = Some (String.length a).
Proof.
  intros Hc Hb. induction a as [|x a IH]; simpl.
  - now rewrite Hb, Hc.
  - now rewrite IH.
Qed.

End StringFacts.

(** ** The frame parser: [extractStreamTitle] *)

Module ExtractFacts.
Import Strings Metadata StringFacts Spec Observe.

Lemma findClosingQuote_hit (q : ascii) (v tail : string) :
  noInnerClose q v (String q tail) = true -> closesValue tail = true ->
  findClosingQuote q (v +:+ String q tail) = Some (String.length v).
Proof.
  intros Hv Htail. induction v as [|c v IH].
  - cbn [String.append findClosingQuote]. now rewrite Ascii.eqb_refl, Htail.
  - simpl in Hv |- *. apply andb_prop in Hv as [Hc Hv].
    apply negb_true_iff in Hc. now rewrite Hc, (IH Hv).
Qed.

Lemma findClosingQuote_absent (q : ascii) (tail : string) :
  noneOf (String q "") tail = true -> findClosingQuote q tail = None.
Proof.
  induction tail as [|c tail IH]; [reflexivity|]. cbn [noneOf mem findClosingQuote].
  intros Hn. apply andb_prop in Hn as [Hc Ht].
  rewrite orb_false_r in Hc. apply negb_true_iff in Hc.
  now rewrite Hc, (IH Ht).
Qed.

Lemma findClosingQuote_none (q : ascii) (v tail : string) :
  noInnerClose q v (String q tail) = true -> closesValue tail = false ->
  noneOf (String q "") tail = true ->
  findClosingQuote q (v +:+ String q tail) = None.
Proof.
  intros Hv Htail Hnone. induction v as [|c v IH].
  - cbn [String.append findClosingQuote].
    now rewrite Ascii.eqb_refl, Htail, (findClosingQuote_absent _ _ Hnone).
  - simpl in Hv |- *. apply andb_prop in Hv as [Hc Hv].
    apply negb_true_iff in Hc. now rewrite Hc, (IH Hv).
Qed.

Lemma findLast_absent (q : ascii) (tail : string) :
  noneOf (String q "") tail = true -> findLast (Ascii.eqb q) tail = None.
Proof.
  induction tail as [|c tail IH]; [reflexivity|]. cbn [noneOf mem findLast].
  intros Hn. apply andb_prop in Hn as [Hc Ht].
  rewrite orb_false_r in Hc. apply negb_true_iff in Hc.
  now rewrite (IH Ht), Ascii.eqb_sym, Hc.
Qed.

(** The value between the quotes is returned whole when no quote inside
    it passes the closing test and the closing quote passes it or is the
    last quote of the block. *)
Lemma extractStreamTitle_block (pre : string) (q : ascii) (v tail : string) :
  q = "'"%char \/ q = "034"%char ->
  find (pre +:+ "StreamTitle=" +:+ String q (v +:+ String q tail)) "StreamTitle="
  = Some (String.length pre) ->
  TrimSpace (String q (v +:+ String q tail)) = String q (v +:+ String q tail) ->
  noInnerClose q v (String q tail) = true ->
  closesValue tail || noneOf (String q "") tail = true ->
  extractStreamTitle (pre +:+ "StreamTitle=" +:+ String q (v +:+ String q tail))
  = Html.UnescapeString (TrimSpace v).
Proof.
  intros Hq Hfirst Htrim Hv Htail. unfold extractStreamTitle, Index.
  rewrite Hfirst. cbn [ofIndex].
  replace (String.eqb (pre +:+ "StreamTitle=" +:+ String q (v +:+ String q tail)) "")
    with false by now destruct pre.
  replace (Z.of_nat (String.length pre) <? 0) with false by (symmetry; apply Z.ltb_ge; lia).
  unfold sliceFrom.
  replace (Z.to_nat (Z.of_nat (String.length pre) + 12))
    with (String.length pre + 12)%nat by lia.
  rewrite drop_add, drop_append.
  change (drop 12 ("StreamTitle=" +:+ String q (v +:+ String q tail)))
    with (String q (v +:+ String q tail)).
  rewrite Htrim.
  replace (Ascii.eqb q "'" || Ascii.eqb q "034") with true
    by (destruct Hq as [-> | ->]; reflexivity).
  assert (Hend : (if ofIndex (findClosingQuote q (v +:+ String q tail)) <? 0
                  then LastIndexByte (v +:+ String q tail) q
                  else ofIndex (findClosingQuote q (v +:+ String q tail)))
                 = Z.of_nat (String.length v)).
  { destruct (closesValue tail) eqn:Hc.
    - rewrite (findClosingQuote_hit _ _ _ Hv Hc). cbn [ofIndex].
      now replace (Z.of_nat (String.length v) <? 0) with false
        by (symmetry; apply Z.ltb_ge; lia).
    - cbn [orb] in Htail. rewrite (findClosingQuote_none _ _ _ Hv Hc Htail).
      cbn [ofIndex Z.ltb Z.compare]. unfold LastIndexByte.
      rewrite findLast_append_hit;
        [reflexivity | apply Ascii.eqb_refl | now apply findLast_absent]. }
  rewrite Hend.
  replace (0 <=? Z.of_nat (String.length v)) with true by (symmetry; apply Z.leb_le; lia).
  unfold sliceTo. now rewrite Nat2Z.id, take_append.
Qed.

End ExtractFacts.

(** C1 (as amended).  Take a block in which the first [StreamTitle=] is
    followed by a quoted value [v] and, behind the closing quote, by
    [tail]; the block does not end in white space.  When no quote inside
    [v] is followed, after optional spaces and tabs, by the end of the
    block or by a [';'] that has an ['='] somewhere behind it, and the
    closing quote is so followed or [tail] has no further quote, then
    [extractStreamTitle] returns all of [v], trimmed and entity-decoded: an
    apostrophe inside [v] does not truncate it.  The empty quoted value and
    a block without the [StreamTitle] key give the empty string, and
    [' AC/DC &amp; Friends '] gives [AC/DC & Friends]. *)
Theorem extractStreamTitle_quoted_value (pre : string) (q : ascii) (v tail : string)
    (Hq : q = "'"%char \/ q = "034"%char)
    (Hfirst : Strings.find (pre +:+ "StreamTitle=" +:+ String q (v +:+ String q tail))
                "StreamTitle=" = Some (String.length pre))
    (Hends : Strings.TrimSpace (String q (v +:+ String q tail))
             = String q (v +:+ String q tail))
    (Hv : Spec.noInnerClose q v (String q tail) = true)
    (Htail : Metadata.closesValue tail || Observe.noneOf (String q "") tail = true) :
  Metadata.extractStreamTitle (pre +:+ "StreamTitle=" +:+ String q (v +:+ String q tail))
    = Html.UnescapeString (Strings.TrimSpace v)
  /\ Metadata.extractStreamTitle "StreamTitle='';" = ""
  /\ Metadata.extractStreamTitle "StreamUrl='x'" = ""
  /\ Metadata.extractStreamTitle "StreamTitle=' AC/DC &amp; Friends ';" = "AC/DC & Friends".
Proof.
  split; [now apply ExtractFacts.extractStreamTitle_block|].
  repeat split; reflexivity.
Qed.

Lemma extractStreamTitle_quoted_value_witness :
  Metadata.extractStreamTitle "StreamTitle='JANE'S ADDICTION - BEEN CAUGHT STEALING';"
    = "JANE'S ADDICTION - BEEN CAUGHT STEALING".
Proof.
  exact (proj1 (extractStreamTitle_quoted_value
                  "" "'" "JANE'S ADDICTION - BEEN CAUGHT STEALING" ";"
                  (or_introl eq_refl) eq_refl eq_refl eq_refl eq_refl)).
Defined.

(** The same with a second field behind the title and the padding of the
    block. *)
Example extractStreamTitle_two_fields :
  Metadata.extractStreamTitle
    ("StreamTitle='It's Time - Don't Stop';StreamUrl='http://example.org/?a=b';"
     +:+ Strings.ofBytes [0; 0; 0; 0; 0; 0; 0])
  = "It's Time - Don't Stop".
Proof. reflexivity. Qed.

(** C1 as stated fails: a value with an apostrophe that is followed by a
    [';'] and, further on, an ['='] is cut at that apostrophe. *)
Lemma extractStreamTitle_truncated_counterexample :
  ~ (forall v : string,
       Strings.Contains v "'" = true ->
       Metadata.extractStreamTitle ("StreamTitle='" +:+ v +:+ "';")
       = Html.UnescapeString (Strings.TrimSpace v)).
Proof.
  intros Hall.
  specialize (Hall "Rock 'n'; Roll=Life" eq_refl).
  vm_compute in Hall. discriminate Hall.
Qed.

(** ** The frame parser: [firstMetaBlock] *)

Module FrameFacts.
Import Strings Metadata StringFacts.

(** A read that the buffered bytes can serve. *)
Lemma ReadFull_ok (a b : string) (e : option fault) (n : Z) :
  len a = n ->
  ReadFull {| buffered := a +:+ b; ending := e |} n
  = inl (a, {| buffered := b; ending := e |}).
Proof.
  intros Hn. unfold ReadFull, len, sliceTo, sliceFrom in *. cbn [buffered ending].
  rewrite length_append.
  replace (n <=? Z.of_nat (String.length a + String.length b)) with true
    by (symmetry; apply Z.leb_le; lia).
  subst n. now rewrite Nat2Z.id, take_append, drop_append.
Qed.

Lemma ReadFull_prefix (k : Z) (a b : string) (e : option fault) :
  0 <= k <= len a ->
  ReadFull {| buffered := a +:+ b; ending := e |} k
  = inl (take (Z.to_nat k) a, {| buffered := drop (Z.to_nat k) a +:+ b; ending := e |}).
Proof.
  intros Hk.
  rewrite <- (take_drop (Z.to_nat k) a) at 1. rewrite append_assoc.
  rewrite ReadFull_ok; [reflexivity|].
  unfold len in *. rewrite length_take. lia.
Qed.

(** The skip loop consumes exactly [left] bytes when they are there. *)
Lemma skipAudio_exact (fuel : nat) :
  forall (left : Z) (audio rest : string) (e : option fault),
    len audio = left -> (Z.to_nat left <= fuel)%nat ->
    skipAudio fuel left {| buffered := audio +:+ rest; ending := e |}
    = (None, {| buffered := rest; ending := e |}).
Proof.
  induction fuel as [|fuel IH]; intros left audio rest e Hlen Hfuel.
  - unfold len in Hlen. destruct audio; [reflexivity | simpl in Hlen; lia].
  - cbn [skipAudio]. destruct (0 <? left) eqn:Hpos.
    + apply Z.ltb_lt in Hpos.
      set (chunk := if 4096 <? left then 4096 else left).
      assert (Hchunk : 0 < chunk <= left).
      { unfold chunk. destruct (4096 <? left) eqn:Hc; [apply Z.ltb_lt in Hc|]; lia. }
      rewrite ReadFull_prefix by lia.
      apply IH; [|lia].
      unfold len in *. rewrite length_drop. lia.
    + apply Z.ltb_ge in Hpos. unfold len in Hlen.
      destruct audio; [reflexivity | simpl in Hlen; lia].
Qed.

(** More fuel than [left] changes nothing. *)
Lemma skipAudio_fuel (f1 : nat) :
  forall (f2 : nat) (left : Z) (r : Reader),
    (Z.to_nat left <= f1)%nat -> (Z.to_nat left <= f2)%nat ->
    skipAudio f1 left r = skipAudio f2 left r.
Proof.
  induction f1 as [|f1 IH]; intros f2 left r H1 H2.
  - destruct f2 as [|f2]; [reflexivity|]. cbn [skipAudio].
    now replace (0 <? left) with false by (symmetry; apply Z.ltb_ge; lia).
  - cbn [skipAudio]. destruct (0 <? left) eqn:Hpos.
    + apply Z.ltb_lt in Hpos.
      destruct f2 as [|f2]; [lia|]. cbn [skipAudio].
      replace (0 <? left) with true by (symmetry; apply Z.ltb_lt; lia).
      set (chunk := if 4096 <? left then 4096 else left).
      assert (Hchunk : 0 < chunk <= left).
      { unfold chunk. destruct (4096 <? left) eqn:Hc; [apply Z.ltb_lt in Hc|]; lia. }
      destruct (ReadFull r chunk) as [[? r']|[[? ?] ?]]; [|reflexivity].
      apply IH; lia.
    + destruct f2 as [|f2]; [reflexivity|]. cbn [skipAudio]. now rewrite Hpos.
Qed.

Lemma firstMetaBlock_frame_eq (audio : string) (lb : ascii) (meta rest : string)
    (e : option fault) (metaInt : Z) :
  0 < metaInt -> len audio = metaInt -> len meta = byteZ lb * 16 ->
  firstMetaBlock
    (Some {| buffered := audio +:+ String lb (meta +:+ rest); ending := e |}) metaInt
  = if byteZ lb =? 0
    then ("", Some io_EOF, Some {| buffered := meta +:+ rest; ending := e |})
    else let text := extractStreamTitle meta in
         (text, if String.eqb text "" then Some io_EOF else None,
          Some {| buffered := rest; ending := e |}).
Proof.
  intros Hpos Haudio Hmeta. unfold firstMetaBlock.
  replace (metaInt <=? 0) with false by (symmetry; apply Z.leb_gt; lia).
  rewrite skipAudio_exact by (auto; lia).
  cbn [ReadByte buffered ending].
  destruct (byteZ lb =? 0) eqn:Hlb; [reflexivity|].
  rewrite ReadFull_ok by assumption.
  cbv zeta. destruct (String.eqb (extractStreamTitle meta) "") eqn:Ht; [|reflexivity].
  apply eqb_empty in Ht. now rewrite Ht.
Qed.

Lemma firstMetaBlock_nonempty (r : option Reader) (metaInt : Z) (t : string)
    (r' : option Reader) :
  firstMetaBlock r metaInt = (t, None, r') -> t <> "".
Proof.
  unfold firstMetaBlock. intros Heq.
  destruct r as [rd|]; [|discriminate].
  destruct (metaInt <=? 0); [discriminate|].
  destruct (skipAudio _ _ _) as [[err|] rd1]; [discriminate|].
  destruct (ReadByte rd1) as [[lb rd2]|err]; [|discriminate].
  destruct (byteZ lb =? 0); [discriminate|].
  destruct (ReadFull rd2 _) as [[meta rd3]|[[? ?] ?]]; [|discriminate].
  destruct (String.eqb (extractStreamTitle meta) "") eqn:Ht; [discriminate|].
  injection Heq as <- _. now apply eqb_nonempty.
Qed.

End FrameFacts.

(** C9.  With a positive [metaInt], [firstMetaBlock] skips exactly
    [metaInt] bytes of audio and reads the length byte [lb]; for [lb = 0]
    it returns [io.EOF], otherwise it reads exactly [lb * 16] bytes and
    returns the result of [extractStreamTitle] on them (with [io.EOF] when
    that result is empty), leaving the reader behind the block. *)
Theorem firstMetaBlock_frame (audio : string) (lb : ascii) (meta rest : string)
    (e : option Metadata.fault) (metaInt : Z)
    (Hpos : 0 < metaInt)
    (Haudio : Strings.len audio = metaInt)
    (Hmeta : Strings.len meta = Strings.byteZ lb * 16) :
  Metadata.firstMetaBlock
    (Some {| Metadata.buffered := audio +:+ String lb (meta +:+ rest);
             Metadata.ending := e |}) metaInt
  = if Strings.byteZ lb =? 0
    then ("", Some Metadata.io_EOF,
          Some {| Metadata.buffered := meta +:+ rest; Metadata.ending := e |})
    else let text := Metadata.extractStreamTitle meta in
         (text, if String.eqb text "" then Some Metadata.io_EOF else None,
          Some {| Metadata.buffered := rest; Metadata.ending := e |}).
Proof. now apply FrameFacts.firstMetaBlock_frame_eq. Qed.

Lemma firstMetaBlock_frame_witness :
  Metadata.firstMetaBlock
    (Some {| Metadata.buffered :=
               "a" +:+ String (Html.chr 2)
                 (("StreamTitle='Test Title';" +:+ Strings.ofBytes [0; 0; 0; 0; 0; 0; 0])
                  +:+ "more audio");
             Metadata.ending := None |}) 1
  = ("Test Title", None,
     Some {| Metadata.buffered := "more audio"; Metadata.ending := None |}).
Proof.
  exact (firstMetaBlock_frame "a" (Html.chr 2)
           ("StreamTitle='Test Title';" +:+ Strings.ofBytes [0; 0; 0; 0; 0; 0; 0])
           "more audio" None 1 eq_refl eq_refl eq_refl).
Defined.

(** ** A probe succeeds with a title only *)

Module ProbeFacts.
Import Strings Metadata StringFacts FrameFacts.

Lemma probeResult_ok (res : HttpResult) (title station : string) :
  probeResult res = (title, station, true) ->
  exists resp metaInt t r',
    res = DoOK resp /\ metaIntOf resp = Some metaInt
    /\ firstMetaBlock (Some (Body resp)) metaInt = (t, None, r')
    /\ t <> "" /\ title = fixMojibake t.
Proof.
  unfold probeResult. intros Hok.
  destruct res as [f|resp]; [discriminate|].
  destruct (metaIntOf resp) as [metaInt|] eqn:Hmi; [|discriminate].
  destruct (firstMetaBlock (Some (Body resp)) metaInt) as [[t err] r'] eqn:Hfm.
  destruct err as [e|]; [discriminate|]. cbn [isSomeB orb] in Hok.
  destruct (String.eqb (TrimSpace t) ""); [discriminate|].
  injection Hok as <- _.
  exists resp, metaInt, t, r'. repeat split; try assumption.
  now apply (firstMetaBlock_nonempty _ _ _ _ Hfm).
Qed.

Lemma probeResult_handshake (res : HttpResult) (title station : string) :
  probeResult res = (title, station, true) ->
  exists resp, res = DoOK resp /\ isSomeB (metaIntOf resp) = true.
Proof.
  intros Hok. apply probeResult_ok in Hok as (resp & metaInt & _ & _ & -> & Hmi & _).
  exists resp. now rewrite Hmi.
Qed.

End ProbeFacts.

(** C10.  [firstMetaBlock] never returns an empty title with a nil error,
    and a successful sibling probe rests on a non-empty title extracted by
    [firstMetaBlock]. *)
Theorem probe_needs_title (res : Metadata.HttpResult) (title station : string)
    (Hok : Metadata.probeResult res = (title, station, true)) :
  (forall r metaInt t r',
      Metadata.firstMetaBlock r metaInt = (t, None, r') -> t <> "")
  /\ exists resp metaInt t r',
       res = Metadata.DoOK resp /\ Metadata.metaIntOf resp = Some metaInt
       /\ Metadata.firstMetaBlock (Some (Metadata.Body resp)) metaInt = (t, None, r')
       /\ t <> "" /\ title = Metadata.fixMojibake t.
Proof.
  split.
  - intros r metaInt t r'. apply FrameFacts.firstMetaBlock_nonempty.
  - now apply (ProbeFacts.probeResult_ok res title station).
Qed.

Lemma probe_needs_title_witness :
  (forall r metaInt t r',
      Metadata.firstMetaBlock r metaInt = (t, None, r') -> t <> "")
  /\ exists resp metaInt t r',
       Metadata.DoOK (Sample.icyResponse "Rock Paradise" "Test Title") = Metadata.DoOK resp
       /\ Metadata.metaIntOf resp = Some metaInt
       /\ Metadata.firstMetaBlock (Some (Metadata.Body resp)) metaInt = (t, None, r')
       /\ t <> "" /\ "Test Title" = Metadata.fixMojibake t.
Proof.
  exact (probe_needs_title
           (Metadata.DoOK (Sample.icyResponse "Rock Paradise" "Test Title"))
           "Test Title" "Rock Paradise" eq_refl).
Defined.

(** ** Sibling candidates and the order of the probes *)

Module SiblingFacts.
Import Strings Metadata StringFacts FrameFacts Observe.

Lemma findLast_noneOf (chars t : string) :
  noneOf chars t = true -> findLast (fun c => mem c chars) t = None.
Proof.
  induction t as [|c t IH]; simpl; [reflexivity|].
  intros Hn. apply andb_prop in Hn as [Hc Ht].
  rewrite (IH Ht). apply negb_true_iff in Hc. now rewrite Hc.
Qed.

(** Replacing an occurrence that is the first one. *)
Lemma Replace1_at (pre old post new : string) :
  find (pre +:+ old +:+ post) old = Some (String.length pre) ->
  Replace1 (pre +:+ old +:+ post) old new = pre +:+ new +:+ post.
Proof.
  intros Hfind. unfold Replace1. rewrite Hfind.
  rewrite take_append, drop_add, drop_append, drop_append. reflexivity.
Qed.

(** The token behind the last separator. *)
Lemma detectSiblingSuffix_token (pre : string) (sep : ascii) (t : string) :
  mem sep "-_." = true -> String.eqb t "" = false -> noneOf "-_." t = true ->
  detectSiblingSuffix (pre +:+ String sep t) = t.
Proof.
  intros Hsep Ht Hnone. unfold detectSiblingSuffix.
  replace (String.eqb (pre +:+ String sep t) "") with false
    by (symmetry; apply eqb_nonempty; intros E; apply append_eq_nil in E as [_ E];
        discriminate).
  unfold LastIndexAny. rewrite findLast_append_hit; auto using findLast_noneOf.
  cbn [ofIndex]. unfold len. rewrite length_append. cbn [String.length].
  apply eqb_nonempty in Ht. destruct t as [|c t]; [congruence|]. cbn [String.length].
  replace (0 <=? Z.of_nat (String.length pre)) with true by (symmetry; apply Z.leb_le; lia).
  replace (Z.of_nat (String.length pre) + 1
           <? Z.of_nat (String.length pre + S (S (String.length t)))) with true
    by (symmetry; apply Z.ltb_lt; lia).
  cbn [andb]. unfold sliceFrom.
  replace (Z.to_nat (Z.of_nat (String.length pre) + 1))
    with (String.length pre + 1)%nat by lia.
  rewrite drop_add, drop_append. reflexivity.
Qed.

(** Without a separator the token is the path between its slashes. *)
Lemma detectSiblingSuffix_plain (path : string) :
  String.eqb path "" = false -> noneOf "-_." path = true ->
  detectSiblingSuffix path = Trim path "/".
Proof.
  intros Hne Hnone. unfold detectSiblingSuffix, LastIndexAny.
  now rewrite Hne, findLast_noneOf.
Qed.

Lemma trimLeftChars_slashes (n : nat) : trimLeftChars "/" (slashes n) = "".
Proof. induction n as [|n IH]; [reflexivity | exact IH]. Qed.

Lemma noneOf_slashes (n : nat) : noneOf "-_." (slashes n) = true.
Proof. induction n as [|n IH]; [reflexivity | exact IH]. Qed.

Lemma HasPrefix_nil (s : string) : HasPrefix s "" = true.
Proof. now destruct s. Qed.

Lemma withSlash_slashes (n : nat) : withSlash (slashes (S n)) = slashes (S n).
Proof.
  unfold withSlash. cbn [slashes HasPrefix]. rewrite HasPrefix_nil. reflexivity.
Qed.

Lemma buildSiblingCandidates_slashes (n : nat) : buildSiblingCandidates (slashes n) = [].
Proof.
  destruct n as [|n]; [reflexivity|].
  unfold buildSiblingCandidates. fold (withSlash (slashes (S n))).
  rewrite withSlash_slashes.
  rewrite detectSiblingSuffix_plain; [|reflexivity|apply (noneOf_slashes (S n))].
  unfold Trim. now rewrite (trimLeftChars_slashes (S n)).
Qed.

Lemma buildSiblingCandidates_eq (path : string) :
  String.eqb path "" = false ->
  String.eqb (detectSiblingSuffix (withSlash path)) "" = false ->
  buildSiblingCandidates path
  = (fun label => Replace1 (withSlash path) (detectSiblingSuffix (withSlash path)) label)
      <$> priorities.
Proof.
  intros Hp Ht. unfold buildSiblingCandidates. fold (withSlash path). now rewrite Hp, Ht.
Qed.

(** The candidates when the token behind the last separator is replaced
    where it stands. *)
Lemma buildSiblingCandidates_trailing (path pre : string) (sep : ascii) (t : string) :
  String.eqb path "" = false ->
  withSlash path = pre +:+ String sep t ->
  mem sep "-_." = true -> String.eqb t "" = false -> noneOf "-_." t = true ->
  find (withSlash path) t = Some (S (String.length pre)) ->
  buildSiblingCandidates path = (fun label => pre +:+ String sep label) <$> priorities.
Proof.
  intros Hp Horig Hsep Ht Hnone Hfind.
  assert (Htok : detectSiblingSuffix (withSlash path) = t)
    by (rewrite Horig; now apply detectSiblingSuffix_token).
  rewrite buildSiblingCandidates_eq by (try rewrite Htok; assumption).
  rewrite Htok. apply map_ext. intros label.
  assert (Hshape : withSlash path = (pre +:+ String sep "") +:+ t +:+ "").
  { rewrite Horig, append_nil_r, append_assoc. reflexivity. }
  rewrite Hshape, Replace1_at.
  - now rewrite append_nil_r, append_assoc.
  - rewrite <- Hshape, Hfind, length_append. cbn [String.length]. f_equal. lia.
Qed.

Section Order.
Context `{GoLib}.

Lemma probeOutcomes_do (url : string) (res : HttpResult) (t : list event) :
  probeOutcomes (EvDo true url res :: t) = (url, snd (probeResult res)) :: probeOutcomes t.
Proof.
  reflexivity.
Qed.

Lemma probeOutcomes_pause (rest : list string) (t : list event) :
  probeOutcomes (match rest with [] => [] | _ :: _ => [EvSleep (80 * Millisecond)] end ++ t)
  = probeOutcomes t.
Proof.
  now destruct rest.
Qed.

Lemma parseable_cons (k : nat) (x : string) (urls : list string) :
  failed (parseable (firstn (S k) (x :: urls)))
  = match url_Parse x with
    | Some _ => (x, false) :: failed (parseable (firstn k urls))
    | None => failed (parseable (firstn k urls))
    end.
Proof.
  unfold parseable. cbn [firstn List.filter]. now destruct (url_Parse x).
Qed.

(** The probes of [probeEach]: the candidates in order, every one before
    the winner a failure. *)
Lemma probeEach_order (u : URL) (cands : list string) :
  forall (w : World) (res : string * Info * option error) (tr : list event) (w' : World),
    probeEach u cands w = (res, tr, w') ->
    let urls := candidateURL u <$> cands in
    exists k, (k <= length urls)%nat /\
      match res with
      | (target, _, None) =>
          urls !! k = Some target
          /\ probeOutcomes tr = failed (parseable (firstn k urls)) ++ [(target, true)]
      | (_, _, Some err) =>
          probeOutcomes tr = failed (parseable (firstn k urls))
          /\ (err = errorsNew "no sibling metadata" -> k = length urls)
      end.
Proof.
  induction cands as [|c rest IH]; intros w res tr w' Heq; cbn [probeEach] in Heq.
  - injection Heq as <- <- _. exists O. cbn. auto.
  - destruct (ctxDone w) eqn:Hdone.
    { injection Heq as <- <- _. exists O. cbn. split; [lia|]. split; [reflexivity|].
      discriminate. }
    fold (candidateURL u c) in Heq.
    unfold probeCandidate in Heq.
    destruct (url_Parse (candidateURL u c)) eqn:Hparse.
    + destruct w as [|h w0]; [discriminate|]. cbn [clientDo] in Heq.
      destruct (probeResult (h (candidateURL u c))) as [[title station] ok] eqn:Hres.
      destruct ok.
      * injection Heq as <- <- _. exists O. cbn [fmap list_fmap length].
        split; [lia|]. split; [reflexivity|].
        cbn. now rewrite Hres.
      * destruct (probeEach u rest w0) as [[res0 tr0] w1] eqn:Hrest.
        injection Heq as <- <- _.
        destruct (IH _ _ _ _ Hrest) as (k & Hk & Hspec).
        exists (S k). cbn [fmap list_fmap length]. split; [cbn in Hk |- *; lia|].
        cbn [app]. rewrite probeOutcomes_do, probeOutcomes_pause, Hres. cbn [snd].
        rewrite parseable_cons, Hparse.
        destruct res0 as [[target info] [err|]].
        -- destruct Hspec as [-> Hlen]. split; [reflexivity|]. intros E. f_equal. auto.
        -- destruct Hspec as [Hlook ->]. split; [exact Hlook | reflexivity].
    + destruct (probeEach u rest w) as [[res0 tr0] w1] eqn:Hrest.
      injection Heq as <- <- _.
      destruct (IH _ _ _ _ Hrest) as (k & Hk & Hspec).
      exists (S k). cbn [fmap list_fmap length]. split; [cbn in Hk |- *; lia|].
      cbn [app]. rewrite probeOutcomes_pause.
      rewrite parseable_cons, Hparse.
      destruct res0 as [[target info] [err|]].
      * destruct Hspec as [-> Hlen]. split; [reflexivity|]. intros E. f_equal. auto.
      * destruct Hspec as [Hlook ->]. split; [exact Hlook | reflexivity].
Qed.

End Order.

End SiblingFacts.

Section SiblingCandidates.
Context `{Metadata.GoLib}.
Import Strings Metadata Observe.

(** C5 (as amended).  For a path with a non-empty token, candidate
    generation yields exactly 13 paths in the order of [priorities]; when
    the token stands behind the last ['-'], ['_'] or ['.'] and does not
    occur earlier in the path, every candidate is the path with this
    trailing token replaced by the label; without such a separator the
    token is the whole path between its leading and trailing slashes; a
    path of slashes only has no candidate; and [scanCandidates] probes the
    candidate URLs one after the other in that order, every probe before
    the winning one a failure and none behind it. *)
Theorem sibling_candidates_in_order (path : string)
    (Hpath : String.eqb path "" = false)
    (Htok : String.eqb (detectSiblingSuffix (withSlash path)) "" = false) :
  length (buildSiblingCandidates path) = 13%nat
  /\ (forall pre sep t,
        withSlash path = pre +:+ String sep t ->
        mem sep "-_." = true -> String.eqb t "" = false -> noneOf "-_." t = true ->
        find (withSlash path) t = Some (S (String.length pre)) ->
        buildSiblingCandidates path
        = (fun label => pre +:+ String sep label) <$> priorities)
  /\ (noneOf "-_." (withSlash path) = true ->
      detectSiblingSuffix (withSlash path) = Trim (withSlash path) "/")
  /\ (forall n, buildSiblingCandidates (slashes n) = [])
  /\ (forall streamURL u w res tr w',
        url_Parse streamURL = Some u -> Path u = path ->
        scanCandidates w streamURL = (res, tr, w') ->
        let urls := candidateURL u <$> buildSiblingCandidates path in
        exists k, (k <= length urls)%nat /\
          match res with
          | (target, _, None) =>
              urls !! k = Some target
              /\ probeOutcomes tr = failed (parseable (firstn k urls)) ++ [(target, true)]
          | (_, _, Some err) =>
              probeOutcomes tr = failed (parseable (firstn k urls))
              /\ (err = errorsNew "no sibling metadata" -> k = length urls)
          end).
Proof.
  pose proof (SiblingFacts.buildSiblingCandidates_eq path Hpath Htok) as Heq.
  split; [now rewrite Heq|].
  split; [intros pre sep t; now apply SiblingFacts.buildSiblingCandidates_trailing|].
  split.
  { apply SiblingFacts.detectSiblingSuffix_plain.
    unfold withSlash. destruct path; [discriminate|].
    now destruct (negb (HasPrefix (String a path) "/")). }
  split; [apply SiblingFacts.buildSiblingCandidates_slashes|].
  intros streamURL u w res tr w' Hparse Hp Hscan.
  unfold scanCandidates in Hscan. rewrite Hparse, Hp in Hscan.
  rewrite Heq in Hscan |- *.
  exact (SiblingFacts.probeEach_order u _ w res tr w' Hscan).
Qed.

End SiblingCandidates.

Lemma sibling_candidates_in_order_witness :
  length (Metadata.buildSiblingCandidates "/rock-flac") = 13%nat
  /\ Metadata.buildSiblingCandidates "/rock-flac"
     = (fun label => "/rock" +:+ String "-" label) <$> Metadata.priorities.
Proof.
  pose proof (sibling_candidates_in_order (H := Sample.lib) "/rock-flac" eq_refl eq_refl)
    as (Hlen & Htrail & _).
  split; [exact Hlen|].
  exact (Htrail "/rock" "-"%char "flac" eq_refl eq_refl eq_refl eq_refl eq_refl).
Defined.

(** C5 as stated fails: the non-empty path ["/"] has no candidate. *)
Lemma sibling_candidates_counterexample :
  ~ (forall path : string,
       path <> "" -> length (Metadata.buildSiblingCandidates path) = 13%nat).
Proof.
  intros Hall. specialize (Hall "/" ltac:(discriminate)). discriminate Hall.
Qed.

(** Without a separator the whole path is the token, not its last segment. *)
Example buildSiblingCandidates_whole_path :
  Metadata.buildSiblingCandidates "/live/rock"
  = (fun label => "/" +:+ label) <$> Metadata.priorities.
Proof. reflexivity. Qed.

(** [strings.Replace(orig, suffix, label, 1)] replaces the first occurrence
    of the token, which need not be the trailing one. *)
Example buildSiblingCandidates_first_occurrence :
  Metadata.buildSiblingCandidates "/128/radio-128"
  = (fun label => "/" +:+ label +:+ "/radio-128") <$> Metadata.priorities.
Proof. reflexivity. Qed.

(** ** The sibling cache *)

Module CacheFacts.
Import Strings Metadata StringFacts Observe.

Lemma withSlash_nonempty (path : string) : withSlash path <> "".
Proof.
  unfold withSlash. destruct path as [|c path]; [discriminate|].
  destruct (negb (HasPrefix (String c path) "/")); discriminate.
Qed.

Lemma Replace1_nonempty (s old new : string) :
  new <> "" -> s <> "" -> Replace1 s old new <> "".
Proof.
  intros Hnew Hs. unfold Replace1. destruct (find s old) as [i|]; [|exact Hs].
  intros E. apply append_eq_nil in E as [_ E]. apply append_eq_nil in E as [E _].
  contradiction.
Qed.

Lemma candidate_nonempty (path c : string) :
  c ∈ buildSiblingCandidates path -> c <> "".
Proof.
  unfold buildSiblingCandidates. fold (withSlash path).
  destruct (String.eqb path ""); [intros Hin; inversion Hin|].
  destruct (String.eqb (detectSiblingSuffix (withSlash path)) "");
    [intros Hin; inversion Hin|].
  intros Hin. apply list_elem_of_fmap in Hin as (label & -> & Hlabel).
  apply Replace1_nonempty; [|apply withSlash_nonempty].
  unfold priorities in Hlabel.
  repeat (apply elem_of_cons in Hlabel as [-> | Hlabel]; [discriminate|]).
  inversion Hlabel.
Qed.

Section Cache.
Context `{GoLib}.

Lemma stationCacheKey_parsed (raw : string) (u : URL) :
  url_Parse raw = Some u -> String.eqb (stationCacheKey raw) "" = false.
Proof.
  intros Hp. unfold stationCacheKey. rewrite Hp. apply eqb_nonempty.
  intros E. apply append_eq_nil in E as [_ E]. discriminate.
Qed.

(** A successful scan returns the URL of one of the candidates. *)
Lemma scanCandidates_found (w : World) (streamURL target : string) (info : Info)
    (tr : list event) (w' : World) :
  scanCandidates w streamURL = ((target, info, None), tr, w') ->
  exists u c, url_Parse streamURL = Some u
              /\ c ∈ buildSiblingCandidates (Path u) /\ target = candidateURL u c.
Proof.
  unfold scanCandidates. intros Hscan.
  destruct (url_Parse streamURL) as [u|] eqn:Hp; [|discriminate].
  exists u.
  assert (Hprobe : probeEach u (buildSiblingCandidates (Path u)) w
                   = ((target, info, None), tr, w')).
  { destruct (buildSiblingCandidates (Path u)); [discriminate | exact Hscan]. }
  destruct (SiblingFacts.probeEach_order u _ w _ tr w' Hprobe) as (k & _ & Hlook & _).
  apply list_lookup_fmap_Some in Hlook as (c & -> & Hc).
  exists c. split; [reflexivity|]. split; [|reflexivity].
  now apply list_elem_of_lookup_2 in Hc.
Qed.

Lemma cacheLoad_Some (cache : siblingCache) (key target : string) :
  cacheLoad cache key = Some target <->
  key <> "" /\ cache !! key = Some target /\ target <> "".
Proof.
  unfold cacheLoad. destruct (String.eqb key "") eqn:Hk.
  - apply eqb_empty in Hk. split; [discriminate | tauto].
  - apply eqb_nonempty in Hk. destruct (cache !! key) as [t|]; [|split; [discriminate|]].
    + destruct (String.eqb t "") eqn:Ht.
      * apply eqb_empty in Ht. subst t.
        split; [discriminate | intros (_ & E & Hne); congruence].
      * apply eqb_nonempty in Ht. split.
        -- intros [= ->]. auto.
        -- now intros (_ & [= ->] & _).
    + intros (_ & E & _). discriminate.
Qed.

Lemma Discover_cached (cache : siblingCache) (w : World) (url target : string) :
  stationCacheKey url <> "" -> cache !! stationCacheKey url = Some target -> target <> "" ->
  Discover cache w url = ((target, emptyInfo, None), [EvCall Sibling url], cache, w).
Proof.
  intros Hk Hc Ht. unfold Discover.
  now rewrite (proj2 (cacheLoad_Some cache _ target) (conj Hk (conj Hc Ht))).
Qed.

End Cache.
End CacheFacts.

Section SiblingCache.
Context `{Metadata.GoLib}.
Import Strings Metadata Observe.

(** C6.  A failing [Discover] leaves the cache as it was; a successful one
    leaves the returned sibling URL under the host+basename key of the
    stream URL (and no other key changed); and a later [Discover] for any
    URL with the same key returns that URL with an empty [Info], without a
    request and without touching the script.  The hypothesis states what
    the [String] method of [url.URL] guarantees: a URL with a path is not
    rendered as the empty string. *)
Theorem sibling_cache_positive_only (cache : siblingCache) (w : World) (streamURL : string)
    (target : string) (info : Info) (err : option error) (tr : list event)
    (cache' : siblingCache) (w' : World)
    (HString : forall u : URL, Path u <> "" -> URL_String u <> "")
    (HDiscover : Discover cache w streamURL = ((target, info, err), tr, cache', w')) :
  match err with
  | Some _ => cache' = cache
  | None =>
      stationCacheKey streamURL <> ""
      /\ cache' !! stationCacheKey streamURL = Some target
      /\ (forall k, k <> stationCacheKey streamURL -> cache' !! k = cache !! k)
      /\ forall (url2 : string) (w2 : World),
           stationCacheKey url2 = stationCacheKey streamURL ->
           Discover cache' w2 url2
           = ((target, emptyInfo, None), [EvCall Sibling url2], cache', w2)
  end.
Proof.
  unfold Discover in HDiscover.
  destruct (cacheLoad cache (stationCacheKey streamURL)) as [t|] eqn:Hload.
  - injection HDiscover as <- <- <- <- <- <-.
    apply CacheFacts.cacheLoad_Some in Hload as (Hk & Hc & Ht).
    repeat split; auto.
    intros url2 w2 Hkey. apply CacheFacts.Discover_cached; now rewrite ?Hkey.
  - destruct (scanCandidates w streamURL) as [[[[t i] e] tr0] w0] eqn:Hscan.
    injection HDiscover as <- <- <- <- <- <-.
    destruct e as [e|]; cbn [isSomeB negb andb]; [reflexivity|].
    destruct (CacheFacts.scanCandidates_found _ _ _ _ _ _ Hscan) as (u & c & Hp & Hc & ->).
    rewrite (CacheFacts.stationCacheKey_parsed _ _ Hp). cbn [negb].
    pose proof (proj1 (StringFacts.eqb_nonempty _) (CacheFacts.stationCacheKey_parsed _ _ Hp))
      as Hk.
    assert (Ht : candidateURL u c <> "").
    { apply HString. cbn [Path]. now apply (CacheFacts.candidate_nonempty (Path u)). }
    split; [exact Hk|]. split; [apply lookup_insert_eq|].
    split; [intros k Hne; now apply lookup_insert_ne|].
    intros url2 w2 Hkey. apply CacheFacts.Discover_cached; rewrite ?Hkey; auto.
    apply lookup_insert_eq.
Qed.

End SiblingCache.

Lemma render_nonempty (u : Metadata.URL) :
  Metadata.Path u <> "" -> Metadata.URL_String (GoLib := Sample.lib) u <> "".
Proof.
  intros _ E. cbn in E. unfold Sample.render in E.
  apply StringFacts.append_eq_nil in E as [_ E]. discriminate E.
Qed.

Lemma sibling_cache_positive_only_witness :
  Metadata.stationCacheKey (H := Sample.lib) "http://host/rock-flac" <> ""
  /\ (<["host|rock" := "http://host/rock-320"]> (∅ : gmap string string))
       !! Metadata.stationCacheKey (H := Sample.lib) "http://host/rock-flac"
     = Some "http://host/rock-320"
  /\ (forall k, k <> Metadata.stationCacheKey (H := Sample.lib) "http://host/rock-flac" ->
       (<["host|rock" := "http://host/rock-320"]> (∅ : gmap string string)) !! k
       = (∅ : gmap string string) !! k)
  /\ forall (url2 : string) (w2 : Metadata.World),
       Metadata.stationCacheKey (H := Sample.lib) url2
       = Metadata.stationCacheKey (H := Sample.lib) "http://host/rock-flac" ->
       Metadata.Discover (H := Sample.lib)
         (<["host|rock" := "http://host/rock-320"]> ∅) w2 url2
       = (("http://host/rock-320", Metadata.emptyInfo, None),
          [Metadata.EvCall Metadata.Sibling url2],
          <["host|rock" := "http://host/rock-320"]> ∅, w2).
Proof.
  exact (sibling_cache_positive_only (H := Sample.lib) ∅ [Sample.testServer]
           "http://host/rock-flac" "http://host/rock-320"
           {| Metadata.Title := "Test Title"; Metadata.Description := "";
              Metadata.Station := "Rock Paradise" |}
           None
           [Metadata.EvCall Metadata.Sibling "http://host/rock-flac";
            Metadata.EvDo true "http://host/rock-320"
              (Sample.testServer "http://host/rock-320")]
           (<["host|rock" := "http://host/rock-320"]> ∅) []
           render_nonempty eq_refl).
Defined.

(** ** The status strategy *)

Module StatusFacts.
Import Strings Metadata StringFacts Observe.

Lemma firstTitled_none (sources : list iceSource) :
  existsb titled sources = false -> firstTitled sources = ("", "", false).
Proof.
  induction sources as [|src rest IH]; [reflexivity|]. cbn [existsb firstTitled].
  intros Hex. apply orb_false_iff in Hex as [Hsrc Hrest].
  unfold titled in Hsrc. rewrite Hsrc. now apply IH.
Qed.

Lemma firstTitled_some (sources : list iceSource) :
  existsb titled sources = true -> snd (firstTitled sources) = true.
Proof.
  induction sources as [|src rest IH]; [discriminate|]. cbn [existsb firstTitled].
  unfold titled at 1. destruct (negb (String.eqb (TrimSpace (srcTitle src)) "")).
  - reflexivity.
  - cbn [orb]. exact IH.
Qed.

Section Status.
Context `{GoLib}.

Lemma pollOnce_parsed (w : World) (apiURL : string) (u : URL) :
  url_Parse apiURL = Some u ->
  pollOnce w apiURL
  = match w with
    | [] => (pollResult (DoError Canceled), [EvDo false apiURL (DoError Canceled)], [])
    | h :: w' => (pollResult (h apiURL), [EvDo false apiURL (h apiURL)], w')
    end.
Proof. intros Hp. unfold pollOnce. rewrite Hp. now destruct w. Qed.

Lemma pollOnce_ok_parsed (w : World) (apiURL title station : string)
    (ev : list event) (w' : World) :
  pollOnce w apiURL = ((title, station, true), ev, w') ->
  exists u, url_Parse apiURL = Some u.
Proof.
  unfold pollOnce. destruct (url_Parse apiURL) as [u|]; [eauto | discriminate].
Qed.

(** The loop polls once per handler that is left and ends with the
    cancellation. *)
Lemma pollLoop_ticks (apiURL : string) (u : URL) (onUpdate : Info -> list event) :
  url_Parse apiURL = Some u ->
  forall w : World,
    pollLoop w apiURL onUpdate
    = (faultError Canceled, concat (tickEvents apiURL onUpdate <$> w), []).
Proof.
  intros Hp. induction w as [|h w IH]; [reflexivity|].
  cbn [pollLoop]. rewrite (pollOnce_parsed _ _ _ Hp), IH.
  cbn [fmap list_fmap concat]. unfold tickEvents at 2.
  destruct (pollResult (h apiURL)) as [[title station] ok].
  now destruct ok.
Qed.

Lemma pollResult_ok (res : HttpResult) :
  snd (pollResult res) = true <->
  exists resp source,
    res = DoOK resp /\ 200 <= StatusCode resp < 300
    /\ json_Decode (sliceTo (buffered (Body resp)) 1048576) = Some source
    /\ existsb titled (extractSources source) = true.
Proof.
  unfold pollResult. split.
  - destruct res as [f|resp]; [discriminate|].
    destruct ((StatusCode resp <? 200) || (300 <=? StatusCode resp)) eqn:Hst; [discriminate|].
    apply orb_false_iff in Hst as [H1 H2]. apply Z.ltb_ge in H1. apply Z.leb_gt in H2.
    destruct (json_Decode _) as [source|] eqn:Hdec; [|discriminate].
    intros Hok. exists resp, source.
    split; [reflexivity|]. split; [lia|]. split; [exact Hdec|].
    destruct (existsb titled (extractSources source)) eqn:Hex; [reflexivity|].
    now rewrite firstTitled_none in Hok.
  - intros (resp & source & -> & Hst & Hdec & Hex).
    replace ((StatusCode resp <? 200) || (300 <=? StatusCode resp)) with false.
    + rewrite Hdec. now apply firstTitled_some.
    + symmetry. apply orb_false_iff. split; [apply Z.ltb_ge | apply Z.leb_gt]; lia.
Qed.

End Status.
End StatusFacts.

Section StatusWatch.
Context `{Metadata.GoLib}.
Import Strings Metadata Observe.

(** C7.  With the API URL resolved, [Watch] makes one poll.  When it fails
    the result is the error, and the events are those of the poll alone:
    neither callback is called.  When it succeeds, [onReady] is called once
    with the API URL, the first [Info] is emitted, and then every handler
    left in the script gives one round: a tick of the 10 second ticker, one
    poll, and an [Info] exactly when the poll succeeds; the loop ends only
    with the cancellation of the context.  A poll succeeds exactly on a 2xx
    answer whose body decodes and has a source with a title that is not
    blank. *)
Theorem status_watch_polls (w : World) (streamURL apiURL api : string)
    (onReady : option (string -> list event)) (onUpdate : Info -> list event)
    (Hapi : resolvedAPI streamURL apiURL = Some api) :
  (forall title station ev w1,
      pollOnce w api = ((title, station, false), ev, w1) ->
      statusWatch w streamURL apiURL onReady onUpdate
      = (errorsNew "status-json unavailable", EvCall Status streamURL :: ev, w1))
  /\ (forall title station ev w1,
        pollOnce w api = ((title, station, true), ev, w1) ->
        statusWatch w streamURL apiURL onReady onUpdate
        = (faultError Canceled,
           EvCall Status streamURL
           :: ev ++ match onReady with Some f => f api | None => [] end
              ++ onUpdate {| Title := title; Description := ""; Station := station |}
              ++ concat (tickEvents api onUpdate <$> w1),
           []))
  /\ (forall res,
        snd (pollResult res) = true <->
        exists resp source,
          res = DoOK resp /\ 200 <= StatusCode resp < 300
          /\ json_Decode (sliceTo (buffered (Body resp)) 1048576) = Some source
          /\ existsb titled (extractSources source) = true).
Proof.
  unfold resolvedAPI in Hapi.
  split; [|split].
  - intros title station ev w1 Hpoll. unfold statusWatch. now rewrite Hapi, Hpoll.
  - intros title station ev w1 Hpoll. unfold statusWatch. rewrite Hapi, Hpoll.
    cbn [negb].
    destruct (StatusFacts.pollOnce_ok_parsed _ _ _ _ _ _ Hpoll) as [u Hu].
    rewrite (StatusFacts.pollLoop_ticks api u onUpdate Hu). reflexivity.
  - apply StatusFacts.pollResult_ok.
Qed.

End StatusWatch.

Lemma status_watch_polls_witness :
  Metadata.statusWatch (H := Sample.lib) [Sample.testServer; Sample.testServer]
    "http://host/rock-flac" ""
    (Some (fun api => [Metadata.EvStrategy {| Metadata.Type_ := "JSON"; Metadata.URL_ := api |}]))
    (fun i => [Metadata.EvUpdate i])
  = (Metadata.faultError Metadata.Canceled,
     Metadata.EvCall Metadata.Status "http://host/rock-flac"
     :: [Metadata.EvDo false "http://host/status-json.xsl"
           (Sample.testServer "http://host/status-json.xsl")]
        ++ [Metadata.EvStrategy {| Metadata.Type_ := "JSON";
                                   Metadata.URL_ := "http://host/status-json.xsl" |}]
        ++ [Metadata.EvUpdate {| Metadata.Title := "A - B"; Metadata.Description := "";
                                 Metadata.Station := "Station" |}]
        ++ concat (Observe.tickEvents (H := Sample.lib) "http://host/status-json.xsl"
                     (fun i => [Metadata.EvUpdate i]) <$> [Sample.testServer]),
     []).
Proof.
  exact (proj1 (proj2 (status_watch_polls (H := Sample.lib)
                         [Sample.testServer; Sample.testServer]
                         "http://host/rock-flac" "" "http://host/status-json.xsl"
                         (Some (fun api => [Metadata.EvStrategy
                                              {| Metadata.Type_ := "JSON"; Metadata.URL_ := api |}]))
                         (fun i => [Metadata.EvUpdate i]) eq_refl))
           "A - B" "Station"
           [Metadata.EvDo false "http://host/status-json.xsl"
              (Sample.testServer "http://host/status-json.xsl")]
           [Sample.testServer] eq_refl).
Defined.

(** ** The strategies as the dispatcher sees them *)

Module DispatchFacts.
Import Strings Metadata StringFacts Observe.

Lemma isUpdate_noStrategy (ev : event) : isUpdate ev -> noStrategy ev.
Proof. now destruct ev. Qed.

Lemma isRequest_noStrategy (ev : event) : isRequest ev -> noStrategy ev.
Proof. now destruct ev. Qed.

Lemma strategiesOf_app (a b : list event) :
  strategiesOf (a ++ b) = strategiesOf a ++ strategiesOf b.
Proof.
  apply omap_app.
Qed.

Lemma callsOf_app (a b : list event) : callsOf (a ++ b) = callsOf a ++ callsOf b.
Proof.
  apply omap_app.
Qed.

Lemma callsOf_call (s : strategy) (url : string) (tr : list event) :
  callsOf (EvCall s url :: tr) = s :: callsOf tr.
Proof.
  reflexivity.
Qed.

Lemma callsOf_strategy (h : StrategyHint) (tr : list event) :
  callsOf (EvStrategy h :: tr) = callsOf tr.
Proof.
  reflexivity.
Qed.

Lemma strategiesOf_none (tr : list event) :
  Forall noStrategy tr -> strategiesOf tr = [].
Proof.
  induction 1 as [|ev tr Hev _ IH]; [reflexivity|].
  destruct ev; try contradiction; exact IH.
Qed.

Lemma callsOf_updates (tr : list event) : Forall isUpdate tr -> callsOf tr = [].
Proof.
  induction 1 as [|ev tr Hev _ IH]; [reflexivity|].
  destruct ev; try contradiction; exact IH.
Qed.

Lemma callsOf_requests (tr : list event) :
  Forall isRequest tr -> Forall (fun s => s = Direct) (callsOf tr).
Proof.
  induction 1 as [|ev tr Hev _ IH]; [constructor|].
  destruct ev as [[| |] ?|[|] ? ?| | | |]; try contradiction; cbn; auto.
Qed.

Lemma ReadFull_error (r : Reader) (n k : Z) (e : error) (r' : Reader) :
  ReadFull r n = inr (k, e, r') -> isNoICY e = false.
Proof.
  unfold ReadFull. destruct (n <=? len (buffered r)); [discriminate|].
  intros [= _ <- _]. destruct (ending r); [reflexivity|].
  now destruct (0 <? len (buffered r)).
Qed.

Lemma ReadByte_error (r : Reader) (e : error) : ReadByte r = inr e -> isNoICY e = false.
Proof.
  unfold ReadByte, endError. destruct (buffered r); [|discriminate].
  intros [= <-]. now destruct (ending r).
Qed.

(** A read leaves no more bytes than there were, and fewer when it was
    asked for some. *)
Lemma ReadFull_shorter (r r' : Reader) (n : Z) (a : string) :
  ReadFull r n = inl (a, r') ->
  (String.length (buffered r') <= String.length (buffered r))%nat
  /\ (0 < n -> (String.length (buffered r') < String.length (buffered r))%nat).
Proof.
  unfold ReadFull, len, sliceFrom. destruct (n <=? _) eqn:Hn; [|discriminate].
  apply Z.leb_le in Hn. intros [= _ <-]. cbn [buffered].
  rewrite length_drop. lia.
Qed.

Lemma ReadByte_shorter (r r' : Reader) (c : ascii) :
  ReadByte r = inl (c, r') ->
  String.length (buffered r) = S (String.length (buffered r')).
Proof.
  unfold ReadByte. destruct (buffered r) as [|c0 rest] eqn:Hb; [discriminate|].
  now intros [= _ <-].
Qed.

Section Direct.
Context `{GoLib}.

(** The read loop ends with a read error. *)
Lemma readLoop_error (fuel : nat) (metaInt : Z) (station : string)
    (onUpdate : Info -> list event) :
  forall (r : Reader) (err : error) (tr : list event),
    readLoop fuel metaInt station onUpdate r = (err, tr) -> isNoICY err = false.
Proof.
  induction fuel as [|fuel IH]; intros r err tr Heq; cbn [readLoop] in Heq.
  - injection Heq as <- _. unfold endError. now destruct (ending r).
  - destruct (ReadFull r metaInt) as [[? r1]|[[? e1] ?]] eqn:H1.
    2:{ injection Heq as <- _. now apply (ReadFull_error _ _ _ _ _ H1). }
    destruct (ReadByte r1) as [[lb r2]|e2] eqn:H2.
    2:{ injection Heq as <- _. now apply (ReadByte_error _ _ H2). }
    destruct (byteZ lb * 16 =? 0); [now apply (IH r2 _ tr)|].
    destruct (ReadFull r2 (byteZ lb * 16)) as [[metaBuf r3]|[[? e3] ?]] eqn:H3.
    2:{ injection Heq as <- _. now apply (ReadFull_error _ _ _ _ _ H3). }
    destruct (readLoop fuel metaInt station onUpdate r3) as [err0 tr0] eqn:Hloop.
    injection Heq as <- _. now apply (IH r3 _ tr0).
Qed.

(** The read loop does not depend on its fuel once there is one unit of
    it for every byte of the body: it ends on a read error before the fuel
    is used up. *)
Lemma readLoop_fuel (metaInt : Z) (station : string) (onUpdate : Info -> list event)
    (f1 : nat) :
  forall (f2 : nat) (r : Reader),
    0 < metaInt ->
    (String.length (buffered r) <= f1)%nat -> (String.length (buffered r) <= f2)%nat ->
    readLoop f1 metaInt station onUpdate r = readLoop f2 metaInt station onUpdate r.
Proof.
  assert (Hempty : forall f r, 0 < metaInt -> String.length (buffered r) = O ->
            readLoop f metaInt station onUpdate r = (endError r, [])).
  { intros [|f] r Hpos Hlen; [reflexivity|]. cbn [readLoop].
    unfold ReadFull, len, endError. rewrite Hlen.
    replace (metaInt <=? Z.of_nat 0) with false by (symmetry; apply Z.leb_gt; lia).
    now destruct (ending r). }
  induction f1 as [|f1 IH]; intros f2 r Hpos H1 H2.
  - rewrite !Hempty by lia. reflexivity.
  - destruct f2 as [|f2]; [rewrite !Hempty by lia; reflexivity|].
    cbn [readLoop].
    destruct (ReadFull r metaInt) as [[? r1]|[[? e1] ?]] eqn:E1; [|reflexivity].
    apply ReadFull_shorter in E1 as [_ E1]. specialize (E1 Hpos).
    destruct (ReadByte r1) as [[lb r2]|e2] eqn:E2; [|reflexivity].
    apply ReadByte_shorter in E2.
    destruct (byteZ lb * 16 =? 0); [apply IH; lia|].
    destruct (ReadFull r2 (byteZ lb * 16)) as [[metaBuf r3]|[[? e3] ?]] eqn:E3; [|reflexivity].
    apply ReadFull_shorter in E3 as [E3 _].
    rewrite (IH f2 r3) by lia. reflexivity.
Qed.

(** With the recording callback it emits updates only. *)
Lemma readLoop_updates (fuel : nat) (metaInt : Z) (station : string) :
  forall (r : Reader) (err : error) (tr : list event),
    readLoop fuel metaInt station recordUpdate r = (err, tr) ->
    isNoICY err = false /\ Forall isUpdate tr.
Proof.
  induction fuel as [|fuel IH]; intros r err tr Heq; cbn [readLoop] in Heq.
  - injection Heq as <- <-. split; [|constructor].
    unfold endError. now destruct (ending r).
  - destruct (ReadFull r metaInt) as [[? r1]|[[? e1] ?]] eqn:H1.
    2:{ injection Heq as <- <-. split; [now apply (ReadFull_error _ _ _ _ _ H1) | constructor]. }
    destruct (ReadByte r1) as [[lb r2]|e2] eqn:H2.
    2:{ injection Heq as <- <-. split; [now apply (ReadByte_error _ _ H2) | constructor]. }
    destruct (byteZ lb * 16 =? 0); [now apply (IH r2)|].
    destruct (ReadFull r2 (byteZ lb * 16)) as [[metaBuf r3]|[[? e3] ?]] eqn:H3.
    2:{ injection Heq as <- <-. split; [now apply (ReadFull_error _ _ _ _ _ H3) | constructor]. }
    destruct (readLoop fuel metaInt station recordUpdate r3) as [err0 tr0] eqn:Hloop.
    injection Heq as <- <-.
    destruct (IH _ _ _ Hloop) as [Herr Htr]. split; [exact Herr|].
    apply Forall_app. split; [|exact Htr].
    destruct (negb (String.eqb (extractStreamTitle metaBuf) "")); repeat constructor.
Qed.

(** The trace of [directStrategy.Watch]: a chain of requests, and behind
    an answer with a positive [icy-metaint], and only there, the station
    update, the call of [onReady] and the title updates. *)
Lemma directWatch_trace (onReady : option (list event)) :
  forall (w : World) (url : string) (err : error) (tr : list event) (w' : World),
    directWatch w url onReady recordUpdate = (err, tr, w') ->
    exists reqs tail,
      tr = reqs ++ tail /\ Forall isRequest reqs /\ callsOf reqs <> []
      /\ (tail = []
          \/ exists ups1 ups2 u resp,
               tail = ups1 ++ match onReady with Some f => f | None => [] end ++ ups2
               /\ Forall isUpdate ups1 /\ Forall isUpdate ups2
               /\ isNoICY err = false
               /\ EvDo true u (DoOK resp) ∈ reqs /\ isSomeB (metaIntOf resp) = true).
Proof.
  induction w as [|h w IH]; intros url err tr w' Heq; cbn [directWatch] in Heq.
  - destruct (url_Parse url); injection Heq as <- <- <-.
    + eexists _, []. rewrite app_nil_r. split; [reflexivity|].
      split; [repeat constructor|]. split; [discriminate | now left].
    + eexists _, []. rewrite app_nil_r. split; [reflexivity|].
      split; [repeat constructor|]. split; [discriminate | now left].
  - destruct (url_Parse url).
    2:{ injection Heq as <- <- <-. eexists _, []. rewrite app_nil_r.
        split; [reflexivity|]. split; [repeat constructor|]. split; [discriminate | now left]. }
    destruct (h url) as [f|resp] eqn:Hh.
    { injection Heq as <- <- <-. eexists _, []. rewrite app_nil_r.
      split; [reflexivity|]. split; [repeat constructor|]. split; [discriminate | now left]. }
    destruct (isRedirect resp).
    + destruct (String.eqb (Location resp) "").
      { injection Heq as <- <- <-. eexists _, []. rewrite app_nil_r.
        split; [reflexivity|]. split; [repeat constructor|]. split; [discriminate | now left]. }
      destruct (directWatch w (Location resp) onReady recordUpdate) as [[err0 tr0] w0] eqn:Hrec.
      injection Heq as <- <- <-.
      destruct (IH _ _ _ _ Hrec) as (reqs & tail & -> & Hreqs & Hcalls & Htail).
      exists ([EvCall Direct url; EvDo true url (DoOK resp)] ++ reqs), tail.
      split; [now rewrite <- app_assoc|].
      split; [apply Forall_app; split; [repeat constructor | exact Hreqs]|].
      split; [discriminate|].
      destruct Htail as [-> | (ups1 & ups2 & u1 & r & -> & H1 & H2 & He & Hin & Hmi)];
        [now left | right].
      exists ups1, ups2, u1, r. repeat split; auto.
      apply elem_of_app. now right.
    + destruct (metaIntOf resp) as [metaInt|] eqn:Hmi.
      2:{ injection Heq as <- <- <-. eexists _, []. rewrite app_nil_r.
          split; [reflexivity|]. split; [repeat constructor|].
          split; [discriminate | now left]. }
      destruct (readLoop _ metaInt _ recordUpdate (Body resp)) as [err0 tr0] eqn:Hloop.
      injection Heq as <- <- <-.
      destruct (readLoop_updates _ _ _ _ _ _ Hloop) as [Herr Htr].
      eexists [EvCall Direct url; EvDo true url (DoOK resp)], _.
      split; [reflexivity|]. split; [repeat constructor|]. split; [discriminate|].
      right. eexists _, tr0, url, resp. split; [reflexivity|].
      split; [destruct (negb _); repeat constructor|].
      split; [exact Htr|]. split; [exact Herr|].
      split; [|now rewrite Hmi].
      apply elem_of_cons. right. apply elem_of_cons. now left.
Qed.

(** [errNoICY] comes from the final response of the chain, when its
    [icy-metaint] is missing or not a positive integer. *)
Lemma directWatch_noICY (onReady : option (list event)) (onUpdate : Info -> list event) :
  forall (w : World) (url : string) (err : error) (tr : list event) (w' : World),
    directWatch w url onReady onUpdate = (err, tr, w') ->
    (isNoICY err = true <->
     exists resp, finalResponse w url = Some resp /\ metaIntOf resp = None).
Proof.
  induction w as [|h w IH]; intros url err tr w' Heq;
    cbn [directWatch finalResponse] in *.
  - destruct (url_Parse url); injection Heq as <- <- <-;
      (split; [discriminate | intros (r & [=] & _)]).
  - destruct (url_Parse url).
    2:{ injection Heq as <- <- <-. split; [discriminate | intros (r & [=] & _)]. }
    destruct (h url) as [f|resp].
    { injection Heq as <- <- <-. split; [discriminate | intros (r & [=] & _)]. }
    destruct (isRedirect resp).
    + destruct (String.eqb (Location resp) "").
      { injection Heq as <- <- <-. split; [discriminate | intros (r & [=] & _)]. }
      destruct (directWatch w (Location resp) onReady onUpdate) as [[err0 tr0] w0] eqn:Hrec.
      injection Heq as <- <- <-. now apply (IH _ _ _ _ Hrec).
    + destruct (metaIntOf resp) as [metaInt|] eqn:Hmi.
      * destruct (readLoop _ metaInt _ onUpdate (Body resp)) as [err0 tr0] eqn:Hloop.
        injection Heq as <- <- <-. split.
        -- intros Herr. now rewrite (readLoop_error _ _ _ _ _ _ _ Hloop) in Herr.
        -- intros (r & [= <-] & Hr). congruence.
      * injection Heq as <- <- <-. split; [eauto | reflexivity].
Qed.

Lemma directWatch_calls (onReady : option (list event)) (w : World) (url : string)
    (err : error) (tr : list event) (w' : World) :
  callsOf (match onReady with Some f => f | None => [] end) = [] ->
  directWatch w url onReady recordUpdate = (err, tr, w') ->
  Forall (fun s => s = Direct) (callsOf tr).
Proof.
  intros Hready Heq.
  destruct (directWatch_trace _ _ _ _ _ _ Heq) as (reqs & tail & -> & Hreqs & _ & Htail).
  rewrite callsOf_app. apply Forall_app. split; [now apply callsOf_requests|].
  destruct Htail as [-> | (ups1 & ups2 & _ & _ & -> & H1 & H2 & _)]; [constructor|].
  rewrite !callsOf_app, Hready, (callsOf_updates _ H1), (callsOf_updates _ H2). constructor.
Qed.

End Direct.

(** *** Sibling discovery *)

Lemma callsOf_probeIO (tr : list event) : Forall isProbeIO tr -> callsOf tr = [].
Proof.
  induction 1 as [|ev tr Hev _ IH]; [reflexivity|].
  destruct ev as [| [|] ? ? | | | |]; try contradiction; exact IH.
Qed.

Section Discovery.
Context `{GoLib}.

Lemma probeEach_events (u : URL) (cands : list string) :
  forall (w : World) res (tr : list event) (w' : World),
    probeEach u cands w = (res, tr, w') -> Forall isProbeIO tr.
Proof.
  induction cands as [|c rest IH]; intros w res tr w' Heq; cbn [probeEach] in Heq.
  - injection Heq as _ <- _. constructor.
  - destruct (ctxDone w); [injection Heq as _ <- _; constructor|].
    destruct (probeCandidate w _) as [[[[title station] ok] ev] w1] eqn:Hprobe.
    assert (Hev : Forall isProbeIO ev).
    { unfold probeCandidate in Hprobe. destruct (url_Parse _).
      - destruct (clientDo w _).
        apply (f_equal (fun x => snd (fst x))) in Hprobe. cbn [fst snd] in Hprobe.
        subst ev. repeat constructor.
      - apply (f_equal (fun x => snd (fst x))) in Hprobe. cbn [fst snd] in Hprobe.
        subst ev. constructor. }
    destruct ok; [injection Heq as _ <- _; exact Hev|].
    destruct (probeEach u rest w1) as [[res0 tr0] w2] eqn:Hrest.
    injection Heq as _ <- _.
    apply Forall_app. split; [exact Hev|]. apply Forall_app. split.
    + destruct rest; repeat constructor.
    + now apply (IH _ _ _ _ Hrest).
Qed.

Lemma scanCandidates_events (w : World) (url : string) res (tr : list event) (w' : World) :
  scanCandidates w url = (res, tr, w') -> Forall isProbeIO tr.
Proof.
  unfold scanCandidates. destruct (url_Parse url) as [u|].
  - destruct (buildSiblingCandidates (Path u)) eqn:Hc.
    + intros [= _ <- _]. constructor.
    + apply probeEach_events.
  - intros [= _ <- _]. constructor.
Qed.

(** The trace of [Discover]: the call and the events of the probes. *)
Lemma Discover_events (cache : siblingCache) (w : World) (url : string) res
    (tr : list event) (cache' : siblingCache) (w' : World) :
  Discover cache w url = (res, tr, cache', w') ->
  exists tr0, tr = EvCall Sibling url :: tr0 /\ Forall isProbeIO tr0.
Proof.
  unfold Discover. destruct (cacheLoad cache _).
  - intros [= _ <- _ _]. exists []. split; [reflexivity | constructor].
  - destruct (scanCandidates w url) as [[[[t i] e] tr0] w0] eqn:Hscan.
    intros [= _ <- _ _]. exists tr0. split; [reflexivity|].
    now apply (scanCandidates_events _ _ _ _ _ Hscan).
Qed.

End Discovery.

(** *** The status strategy *)

Section StatusTrace.
Context `{GoLib}.

Lemma pollOnce_events (w : World) (api : string) r (ev : list event) (w' : World) :
  pollOnce w api = (r, ev, w') ->
  ev = [] /\ snd r = false
  \/ exists res, ev = [EvDo false api res] /\ r = pollResult res.
Proof.
  unfold pollOnce. destruct (url_Parse api).
  - destruct (clientDo w api) as [res w0]. intros [= <- <- _]. right. eauto.
  - intros [= <- <- _]. now left.
Qed.

Lemma pollLoop_events (api : string) :
  forall (w : World) (err : error) (tr : list event) (w' : World),
    pollLoop w api recordUpdate = (err, tr, w') -> Forall isPollIO tr.
Proof.
  induction w as [|h w IH]; intros err tr w' Heq; cbn [pollLoop] in Heq.
  - injection Heq as _ <- _. constructor.
  - destruct (pollOnce [h] api) as [[[[title station] ok] ev] w0] eqn:Hpoll.
    destruct (pollLoop w api recordUpdate) as [[err0 tr0] w1] eqn:Hloop.
    injection Heq as _ <- _.
    constructor; [exact I|]. apply Forall_app. split.
    + destruct (pollOnce_events _ _ _ _ _ Hpoll) as [[-> _] | (res & -> & _)];
        repeat constructor.
    + apply Forall_app. split; [destruct ok; repeat constructor|].
      now apply (IH _ _ _ eq_refl).
Qed.

(** The trace of [statusJSONStrategy.Watch]: the call; then the events of
    polls alone, or a successful poll of the API URL, the call of [onReady]
    and the events of the updates and polls behind it. *)
Lemma statusWatch_trace (w : World) (url apiURL : string)
    (onReady : option (string -> list event))
    (err : error) (tr : list event) (w' : World) :
  statusWatch w url apiURL onReady recordUpdate = (err, tr, w') ->
  exists tail,
    tr = EvCall Status url :: tail
    /\ (Forall isPollIO tail
        \/ exists api resp rest,
             tail = EvDo false api (DoOK resp)
                    :: match onReady with Some f => f api | None => [] end ++ rest
             /\ snd (pollResult (DoOK resp)) = true /\ Forall isPollIO rest).
Proof.
  unfold statusWatch.
  destruct (if String.eqb (TrimSpace apiURL) "" then buildStatusURL url else Some apiURL)
    as [api|].
  2:{ intros [= _ <- _]. exists []. split; [reflexivity | left; constructor]. }
  destruct (pollOnce w api) as [[[[title station] ok] ev] w1] eqn:Hpoll.
  destruct ok; cbn [negb].
  - destruct (pollLoop w1 api recordUpdate) as [[err0 tr0] w2] eqn:Hloop.
    intros [= _ <- _]. eexists. split; [reflexivity|]. right.
    destruct (pollOnce_events _ _ _ _ _ Hpoll) as [[_ [=]] | (res & -> & Hres)].
    destruct res as [f|resp]; [discriminate|].
    exists api, resp, (recordUpdate {| Title := title; Description := ""; Station := station |}
                       ++ tr0).
    split; [reflexivity|]. split; [now rewrite <- Hres|].
    apply Forall_app. split; [repeat constructor | now apply (pollLoop_events _ _ _ _ _ Hloop)].
  - intros [= _ <- _]. eexists. split; [reflexivity|]. left.
    destruct (pollOnce_events _ _ _ _ _ Hpoll) as [[-> _] | (res & -> & _)];
      repeat constructor.
Qed.

End StatusTrace.
End DispatchFacts.

(** ** The auto fallback chain *)

Module ChainFacts.
Import Strings Metadata StringFacts Observe DispatchFacts.

Lemma metaIntOf_None (resp : Response) :
  metaIntOf resp = None <->
  IcyMetaint resp = ""
  \/ Atoi (IcyMetaint resp) = None
  \/ exists n, Atoi (IcyMetaint resp) = Some n /\ n <= 0.
Proof.
  unfold metaIntOf. destruct (String.eqb (IcyMetaint resp) "") eqn:He.
  - apply eqb_empty in He. tauto.
  - apply eqb_nonempty in He. destruct (Atoi (IcyMetaint resp)) as [n|].
    + destruct (n <=? 0) eqn:Hn.
      * apply Z.leb_le in Hn. split; [eauto | reflexivity].
      * apply Z.leb_gt in Hn. split; [discriminate|].
        intros [E | [E | (m & [= <-] & Hm)]]; [contradiction | discriminate | lia].
    + tauto.
Qed.

Lemma isNoICY_eq (err : error) : isNoICY err = true <-> err = errNoICY.
Proof. destruct err; cbn; split; congruence. Qed.

Ltac calls :=
  cbn [app];
  repeat first [rewrite callsOf_app | rewrite callsOf_call | rewrite callsOf_strategy];
  repeat first [rewrite elem_of_app | rewrite elem_of_cons].

Lemma not_in_all (s t : strategy) (l : list strategy) :
  s <> t -> Forall (fun x => x = t) l -> s ∉ l.
Proof.
  intros Hne Hall Hin. rewrite Forall_forall in Hall.
  apply Hne. now apply Hall.
Qed.

End ChainFacts.

Section AutoFallback.
Context `{Metadata.GoLib}.
Import Strings Metadata Observe.

(** C2.  In auto mode the direct strategy returns [errNoICY] exactly when
    the final response of its request chain has no [icy-metaint] header or
    one that does not parse to a positive integer; sibling discovery is
    entered exactly when the direct strategy returns [errNoICY], and on any
    other error the session ends with the events of the direct strategy;
    the status strategy is entered exactly when, after [errNoICY], sibling
    discovery fails as well. *)
Theorem auto_fallback_chain (cache : siblingCache) (w : World) (streamURL : string) :
  let '(err, tr1, w1) :=
    directWatch w streamURL
      (Some (notify recordStrategy {| Type_ := MetadataTypeICY; URL_ := streamURL |}))
      recordUpdate in
  let '(res, tr2, cache2, w2) := Discover cache w1 streamURL in
  let '(tr, cache', w') := autoWatch cache w streamURL recordUpdate recordStrategy in
  (err = errNoICY <->
   exists resp,
     finalResponse w streamURL = Some resp
     /\ (IcyMetaint resp = ""
         \/ Atoi (IcyMetaint resp) = None
         \/ exists n, Atoi (IcyMetaint resp) = Some n /\ n <= 0))
  /\ (Sibling ∈ callsOf tr <-> err = errNoICY)
  /\ (err <> errNoICY -> tr = tr1 /\ cache' = cache /\ w' = w1)
  /\ (Status ∈ callsOf tr <-> err = errNoICY /\ snd res <> None).
Proof.
  destruct (directWatch w streamURL _ recordUpdate) as [[err tr1] w1] eqn:Hdirect.
  destruct (Discover cache w1 streamURL) as [[[res tr2] cache2] w2] eqn:Hsib.
  destruct (autoWatch cache w streamURL recordUpdate recordStrategy)
    as [[tr cache'] w'] eqn:Hauto.
  assert (Hcalls1 : Forall (fun s => s = Direct) (callsOf tr1))
    by (eapply DispatchFacts.directWatch_calls; [|exact Hdirect]; reflexivity).
  split.
  { rewrite <- ChainFacts.isNoICY_eq, (DispatchFacts.directWatch_noICY _ _ _ _ _ _ _ Hdirect).
    split; intros (resp & Hfin & Hmi); exists resp; (split; [exact Hfin|]);
      now apply ChainFacts.metaIntOf_None. }
  unfold autoWatch in Hauto. rewrite Hdirect in Hauto.
  destruct (isNoICY err) eqn:Herr; cbn [negb] in Hauto.
  - apply ChainFacts.isNoICY_eq in Herr. subst err.
    rewrite Hsib in Hauto.
    destruct (DispatchFacts.Discover_events _ _ _ _ _ _ _ Hsib) as (tr0 & -> & Htr0).
    destruct res as [[target info] derr]. cbn [snd].
    assert (HinS : forall rest, Sibling ∈ callsOf (tr1 ++ (EvCall Sibling streamURL :: tr0) ++ rest)).
    { intros rest. ChainFacts.calls. auto. }
    destruct derr as [e|].
    + destruct (statusWatch w2 streamURL "" _ recordUpdate) as [[e3 tr3] w3] eqn:Hst.
      injection Hauto as <- <- <-.
      split; [split; [reflexivity | intros _; apply (HinS tr3)]|].
      split; [congruence|].
      split; [intros _; split; [reflexivity | discriminate]|]. intros _.
      destruct (DispatchFacts.statusWatch_trace _ _ _ _ _ _ _ Hst) as (tail & -> & _).
      ChainFacts.calls. auto 6.
    + destruct (directWatch w2 target None recordUpdate) as [[e3 tr3] w3] eqn:Hd2.
      injection Hauto as <- <- <-.
      split; [split; [reflexivity | intros _; apply HinS]|].
      split; [congruence|].
      split; [|intros [_ Hne]; congruence].
      intros Hin. exfalso. revert Hin.
      assert (Hcalls3 : Forall (fun s => s = Direct) (callsOf tr3))
        by (eapply DispatchFacts.directWatch_calls; [|exact Hd2]; reflexivity).
      replace (if negb (String.eqb (Title info) "") || negb (String.eqb (Station info) "")
               then recordUpdate info else [])
        with (match negb (String.eqb (Title info) "") || negb (String.eqb (Station info) "")
              with true => [EvUpdate info] | false => [] end) by reflexivity.
      assert (Hup : forall b : bool,
                 callsOf (if b then [EvUpdate info] else []) = []) by now intros [|].
      ChainFacts.calls. rewrite (DispatchFacts.callsOf_probeIO _ Htr0), Hup.
      rewrite ?elem_of_nil.
      intros [Hin | [Hin | [[] | [[] | Hin]]]];
        try discriminate;
        now apply (ChainFacts.not_in_all Status Direct) in Hin.
  - injection Hauto as <- <- <-.
    assert (Hne : err <> errNoICY)
      by (intros E; apply ChainFacts.isNoICY_eq in E; congruence).
    split; [split; [|contradiction]|].
    { intros Hin. now apply (ChainFacts.not_in_all Sibling Direct) in Hin. }
    split; [auto|].
    split; [|intros [E _]; contradiction].
    intros Hin. now apply (ChainFacts.not_in_all Status Direct) in Hin.
Qed.

End AutoFallback.

(** ** Strategy resolution is reported once, behind a handshake *)

Module ResolveFacts.
Import Strings Metadata StringFacts Observe DispatchFacts.

Section Backed.
Context `{GoLib}.

Lemma backed_app (a : list event) :
  forall (seen b : list event),
    backed seen (a ++ b) = backed seen a && backed (seen ++ a) b.
Proof.
  induction a as [|ev a IH]; intros seen b.
  - now rewrite app_nil_r.
  - cbn [app backed]. rewrite IH, <- app_assoc, andb_assoc. reflexivity.
Qed.

Lemma backed_none (tr : list event) :
  forall seen, Forall noStrategy tr -> backed seen tr = true.
Proof.
  induction tr as [|ev tr IH]; intros seen Hall; [reflexivity|].
  inversion Hall as [|? ? Hev Htr]; subst. cbn [backed].
  rewrite (IH _ Htr). now destruct ev.
Qed.


Lemma icySeen_handshake (seen : list event) (url : string) :
  icySeen seen = true ->
  existsb (handshake {| Type_ := MetadataTypeICY; URL_ := url |}) seen = true.
Proof.
  unfold icySeen. rewrite !existsb_exists. intros (ev & Hin & Hev).
  exists ev. split; [exact Hin|]. destruct ev as [| icy u [f|resp] | | | |]; auto.
Qed.

Lemma icySeen_app (a b : list event) : icySeen (a ++ b) = icySeen a || icySeen b.
Proof. apply existsb_app. Qed.

Lemma icySeen_elem (seen : list event) (u : string) (resp : Response) :
  EvDo true u (DoOK resp) ∈ seen -> isSomeB (metaIntOf resp) = true -> icySeen seen = true.
Proof.
  intros Hin Hmi. apply existsb_exists. exists (EvDo true u (DoOK resp)).
  split; [now apply list_elem_of_In | exact Hmi].
Qed.

(** The direct strategy with the dispatcher's [onReady]. *)
Lemma directWatch_backed (seen : list event) (w : World) (url hurl : string)
    (err : error) (tr : list event) (w' : World) :
  directWatch w url
    (Some (notify recordStrategy {| Type_ := MetadataTypeICY; URL_ := hurl |}))
    recordUpdate = (err, tr, w') ->
  backed seen tr = true
  /\ (length (strategiesOf tr) <= 1)%nat
  /\ (isNoICY err = true -> strategiesOf tr = []).
Proof.
  intros Heq.
  destruct (directWatch_trace _ _ _ _ _ _ Heq) as (reqs & tail & -> & Hreqs & _ & Htail).
  pose proof (Forall_impl _ _ _ Hreqs isRequest_noStrategy) as Hreqs'.
  destruct Htail as [-> | (ups1 & ups2 & u & resp & -> & H1 & H2 & Herr & Hin & Hmi)].
  - rewrite app_nil_r. rewrite (strategiesOf_none _ Hreqs').
    split; [now apply backed_none|]. split; [cbn; lia | reflexivity].
  - pose proof (Forall_impl _ _ _ H1 isUpdate_noStrategy) as H1'.
    pose proof (Forall_impl _ _ _ H2 isUpdate_noStrategy) as H2'.
    cbn [notify recordStrategy].
    split; [|split].
    + rewrite !backed_app, (backed_none _ _ Hreqs'), (backed_none _ _ H1').
      cbn [app backed andb]. rewrite (backed_none _ _ H2'), !andb_true_r.
      apply icySeen_handshake. rewrite !icySeen_app.
      rewrite (icySeen_elem reqs u resp Hin Hmi). now rewrite orb_true_r.
    + rewrite !strategiesOf_app, (strategiesOf_none _ Hreqs'), (strategiesOf_none _ H1'),
        (strategiesOf_none _ H2'). cbn. lia.
    + congruence.
Qed.

(** The direct strategy without [onReady]. *)
Lemma directWatch_silent (w : World) (url : string)
    (err : error) (tr : list event) (w' : World) :
  directWatch w url None recordUpdate = (err, tr, w') -> Forall noStrategy tr.
Proof.
  intros Heq.
  destruct (directWatch_trace _ _ _ _ _ _ Heq) as (reqs & tail & -> & Hreqs & _ & Htail).
  apply Forall_app. split; [exact (Forall_impl _ _ _ Hreqs isRequest_noStrategy)|].
  destruct Htail as [-> | (ups1 & ups2 & _ & _ & -> & H1 & H2 & _)]; [constructor|].
  cbn [app]. apply Forall_app.
  split; [exact (Forall_impl _ _ _ H1 isUpdate_noStrategy)
         | exact (Forall_impl _ _ _ H2 isUpdate_noStrategy)].
Qed.

Lemma isPollIO_noStrategy (ev : event) : isPollIO ev -> noStrategy ev.
Proof. now destruct ev. Qed.

Lemma isProbeIO_noStrategy (ev : event) : isProbeIO ev -> noStrategy ev.
Proof. now destruct ev. Qed.

(** The status strategy with the dispatcher's [onReady]. *)
Lemma statusWatch_backed (seen : list event) (w : World) (url apiURL : string)
    (err : error) (tr : list event) (w' : World) :
  statusWatch w url apiURL
    (Some (fun api => notify recordStrategy {| Type_ := MetadataTypeJSON; URL_ := api |}))
    recordUpdate = (err, tr, w') ->
  backed seen tr = true /\ (length (strategiesOf tr) <= 1)%nat.
Proof.
  intros Heq.
  destruct (statusWatch_trace _ _ _ _ _ _ _ Heq)
    as (tail & -> & [Htail | (api & resp & rest & -> & Hok & Hrest)]).
  - pose proof (Forall_impl _ _ _ Htail isPollIO_noStrategy) as Htail'.
    change (EvCall Status url :: tail) with ([EvCall Status url] ++ tail).
    rewrite backed_app, strategiesOf_app, (strategiesOf_none _ Htail').
    rewrite (backed_none tail _ Htail'). split; [reflexivity | cbn; lia].
  - pose proof (Forall_impl _ _ _ Hrest isPollIO_noStrategy) as Hrest'.
    cbn [notify recordStrategy app]. split.
    + cbn [backed andb]. rewrite (backed_none rest _ Hrest'), andb_true_r.
      rewrite !existsb_app. cbn [existsb handshake Type_ URL_ negb andb].
      change (String.eqb MetadataTypeJSON MetadataTypeICY) with false.
      change (String.eqb MetadataTypeJSON MetadataTypeJSON) with true.
      cbv iota. rewrite String.eqb_refl, Hok.
      cbn [andb orb]. now rewrite !orb_true_r.
    + cbn [strategiesOf omap list_omap]. fold (strategiesOf rest).
      rewrite (strategiesOf_none _ Hrest'). cbn. lia.
Qed.


Lemma scanCandidates_handshake (w : World) (url target : string) (info : Info)
    (tr : list event) (w' : World) :
  scanCandidates w url = ((target, info, None), tr, w') -> icySeen tr = true.
Proof.
  intros Hscan. unfold scanCandidates in Hscan.
  destruct (url_Parse url) as [u|]; [|discriminate].
  assert (Hprobe : probeEach u (buildSiblingCandidates (Path u)) w
                   = ((target, info, None), tr, w'))
    by (destruct (buildSiblingCandidates (Path u)); [discriminate | exact Hscan]).
  destruct (SiblingFacts.probeEach_order u _ w _ tr w' Hprobe) as (k & _ & _ & Hout).
  assert (Hin : (target, true) ∈ probeOutcomes tr)
    by (rewrite Hout; apply elem_of_app; right; apply elem_of_cons; now left).
  unfold probeOutcomes in Hin. apply list_elem_of_omap in Hin as (ev & Hev & Hsome).
  destruct ev as [| [|] u0 res | | | |]; try discriminate.
  injection Hsome as -> Hres.
  destruct (probeResult res) as [[title station] ok] eqn:Hp. cbn [snd] in Hres. subst ok.
  apply ProbeFacts.probeResult_handshake in Hp as (resp & -> & Hmi).
  now apply (icySeen_elem tr target resp).
Qed.

Lemma Discover_noStrategy (cache : siblingCache) (w : World) (url : string) res
    (tr : list event) (cache' : siblingCache) (w' : World) :
  Discover cache w url = (res, tr, cache', w') -> Forall noStrategy tr.
Proof.
  intros Heq. destruct (Discover_events _ _ _ _ _ _ _ Heq) as (tr0 & -> & Htr0).
  constructor; [exact I|]. exact (Forall_impl _ _ _ Htr0 isProbeIO_noStrategy).
Qed.


Lemma strategiesOf_strategy (h : StrategyHint) (tr : list event) :
  strategiesOf (EvStrategy h :: tr) = h :: strategiesOf tr.
Proof. reflexivity. Qed.

Lemma strategiesOf_update (b : bool) (info : Info) :
  strategiesOf (if b then recordUpdate info else []) = [].
Proof. now destruct b. Qed.

Lemma noStrategy_update (b : bool) (info : Info) :
  Forall noStrategy (if b then recordUpdate info else []).
Proof. destruct b; repeat constructor. Qed.






(** *** One session, on any cache *)

Lemma backedBut_app (excuse : StrategyHint -> bool) (a : list event) :
  forall (seen b : list event),
    backedBut excuse seen (a ++ b)
    = backedBut excuse seen a && backedBut excuse (seen ++ a) b.
Proof.
  induction a as [|ev a IH]; intros seen b.
  - now rewrite app_nil_r.
  - cbn [app backedBut]. rewrite IH, <- app_assoc, andb_assoc. reflexivity.
Qed.

Lemma backed_weaken (excuse : StrategyHint -> bool) (tr : list event) :
  forall seen, backed seen tr = true -> backedBut excuse seen tr = true.
Proof.
  induction tr as [|ev tr IH]; intros seen Hb; [reflexivity|].
  cbn [backed backedBut] in *. apply andb_prop in Hb as [Hev Hb].
  rewrite (IH _ Hb), andb_true_r.
  destruct ev; try reflexivity. now rewrite Hev.
Qed.

Lemma backedBut_split (excuse : StrategyHint -> bool) (seen pre : list event)
    (h : StrategyHint) (post : list event) :
  backedBut excuse seen (pre ++ EvStrategy h :: post) = true ->
  existsb (handshake h) (seen ++ pre) = true \/ excuse h = true.
Proof.
  rewrite backedBut_app. cbn [backedBut]. intros Hb.
  apply andb_prop in Hb as [_ Hb]. apply andb_prop in Hb as [Hb _].
  now apply orb_prop in Hb.
Qed.

(** A sibling that [Discover] returns was probed or was in the cache. *)
Lemma Discover_found (cache : siblingCache) (w : World) (url target : string)
    (info : Info) (tr : list event) (cache' : siblingCache) (w' : World) :
  Discover cache w url = ((target, info, None), tr, cache', w') ->
  icySeen tr = true \/ cacheLoad cache (stationCacheKey url) = Some target.
Proof.
  unfold Discover.
  destruct (cacheLoad cache (stationCacheKey url)) as [t|].
  - intros [= <- _ _ _ _]. now right.
  - destruct (scanCandidates w url) as [[[[t i] e] tr1] w1] eqn:Hscan.
    intros [= -> _ -> <- _ _]. left.
    change (EvCall Sibling url :: tr1) with ([EvCall Sibling url] ++ tr1).
    rewrite icySeen_app, (scanCandidates_handshake _ _ _ _ _ _ Hscan).
    apply orb_true_r.
Qed.

Lemma autoWatch_session (seen : list event) (cache : siblingCache) (w : World)
    (url : string) (tr : list event) (cache' : siblingCache) (w' : World) :
  autoWatch cache w url recordUpdate recordStrategy = (tr, cache', w') ->
  backedBut (cachedSibling cache url) seen tr = true.
Proof.
  unfold autoWatch.
  destruct (directWatch w url _ recordUpdate) as [[err tr1] w1] eqn:Hd.
  destruct (directWatch_backed seen _ _ _ _ _ _ Hd) as (Hb1 & _ & _).
  apply (backed_weaken (cachedSibling cache url)) in Hb1.
  destruct (isNoICY err); cbn [negb]; [|now intros [= <- _ _]].
  destruct (Discover cache w1 url) as [[[[[target info] derr] tr2] cache2] w2] eqn:Hs.
  pose proof (Discover_noStrategy _ _ _ _ _ _ _ Hs) as Hn2.
  destruct derr as [e|].
  - destruct (statusWatch w2 url "" _ recordUpdate) as [[e3 tr3] w3] eqn:Hst.
    destruct (statusWatch_backed ((seen ++ tr1) ++ tr2) _ _ _ _ _ _ Hst) as [Hb3 _].
    apply (backed_weaken (cachedSibling cache url)) in Hb3.
    intros [= <- _ _].
    rewrite !backedBut_app, Hb1, Hb3.
    now rewrite (backed_weaken _ _ _ (backed_none _ _ Hn2)).
  - destruct (directWatch w2 target None recordUpdate) as [[e3 tr3] w3] eqn:Hd2.
    pose proof (directWatch_silent _ _ _ _ _ Hd2) as Hn3.
    intros [= <- _ _].
    rewrite !backedBut_app, Hb1, (backed_weaken _ _ _ (backed_none _ _ Hn2)).
    cbn [notify recordStrategy app backedBut andb].
    assert (Hok : existsb (handshake {| Type_ := MetadataTypeICY; URL_ := target |})
                    ((seen ++ tr1) ++ tr2)
                  || cachedSibling cache url {| Type_ := MetadataTypeICY; URL_ := target |}
                  = true).
    { destruct (Discover_found _ _ _ _ _ _ _ _ Hs) as [Hseen | Hhit].
      - rewrite (icySeen_handshake ((seen ++ tr1) ++ tr2) target); [reflexivity|].
        now rewrite icySeen_app, Hseen, orb_true_r.
      - unfold cachedSibling. rewrite Hhit. cbn [URL_ Type_].
        change (String.eqb MetadataTypeICY MetadataTypeICY) with true.
        rewrite String.eqb_refl. apply orb_true_r. }
    rewrite Hok. cbn [andb]. apply backed_weaken, backed_none.
    apply Forall_app. split; [apply noStrategy_update | exact Hn3].
Qed.

Lemma runSession_session (cache : siblingCache) (s : session) :
  backedBut (cachedSibling cache (sURL s)) [] (fst (runSession cache s)) = true.
Proof.
  unfold runSession, Watch, runStatus, runDirect.
  destruct (String.eqb (sURL s) ""); [reflexivity|].
  destruct (String.eqb _ MetadataTypeJSON).
  { destruct (statusWatch _ _ _ _ _) as [[e tr] w'] eqn:Hst. cbn [fst].
    apply backed_weaken. now destruct (statusWatch_backed [] _ _ _ _ _ _ Hst). }
  destruct (String.eqb _ MetadataTypeICY).
  { destruct (directWatch _ _ _ _) as [[e tr] w'] eqn:Hd. cbn [fst].
    apply backed_weaken. now destruct (directWatch_backed [] _ _ _ _ _ _ Hd). }
  destruct (autoWatch _ _ _ _ _) as [[tr cache'] w'] eqn:Ha. cbn [fst].
  exact (autoWatch_session _ _ _ _ _ _ _ Ha).
Qed.

End Backed.
End ResolveFacts.

Section Resolution.
Context `{Metadata.GoLib}.
Import Strings Metadata Observe.


End Resolution.

(** A session that finds the sibling in the cache reports it before any
    request to it; here the sibling no longer answers. *)
Example cached_sibling_reported_before_request :
  fst (Observe.runSession (H := Sample.lib)
         (<["host|rock" := "http://host/rock-320"]> ∅)
         {| Observe.sURL := "http://host/rock-flac";
            Observe.sHint := {| Metadata.Type_ := ""; Metadata.URL_ := "" |};
            Observe.sScript :=
              [Sample.testServer;
               fun _ => Metadata.DoError (Metadata.Failure "connection refused")] |})
  = [ Metadata.EvCall Metadata.Direct "http://host/rock-flac";
      Metadata.EvDo true "http://host/rock-flac"
        (Metadata.DoOK (Sample.plainResponse 200 "flac stream without icy"));
      Metadata.EvCall Metadata.Sibling "http://host/rock-flac";
      Metadata.EvStrategy {| Metadata.Type_ := "ICY"; Metadata.URL_ := "http://host/rock-320" |};
      Metadata.EvCall Metadata.Direct "http://host/rock-320";
      Metadata.EvDo true "http://host/rock-320"
        (Metadata.DoError (Metadata.Failure "connection refused")) ].
Proof. reflexivity. Qed.

(** The fallback test of the repository: with an empty cache the sibling
    is found by its probe and reported once. *)
Example fallback_to_sibling :
  Observe.strategiesOf
    (fst (Observe.runSession (H := Sample.lib) ∅
            {| Observe.sURL := "http://host/rock-flac";
               Observe.sHint := {| Metadata.Type_ := ""; Metadata.URL_ := "" |};
               Observe.sScript := [Sample.testServer; Sample.testServer; Sample.testServer] |}))
  = [ {| Metadata.Type_ := "ICY"; Metadata.URL_ := "http://host/rock-320" |} ].
Proof. reflexivity. Qed.

(** ** The title stabilizer *)

Module StabilizerFacts.
Import Strings Player StringFacts.

Lemma eqb_neq (a b : string) : String.eqb a b = false <-> a <> b.
Proof. apply String.eqb_neq. Qed.

(** What a call of [handleICYTitle] shows is the pending title. *)
Lemma handleICYTitle_shows (now : Z) (raw : string) (pl : Player) :
  onNow pl = display ->
  let '(pl', out, _) := handleICYTitle now raw pl in
  onNow pl' = display
  /\ (out = [] \/ out = [pendingTitle pl] /\ normalize raw = pendingTitle pl).
Proof.
  intros Hcb. unfold handleICYTitle. fold (normalize raw).
  destruct (String.eqb (normalize raw) ""); [auto|].
  destruct (String.eqb (normalize raw) (currentTitle pl)); [auto|].
  destruct (String.eqb (normalize raw) (pendingTitle pl)) eqn:Hp; cbn [negb]; [|auto].
  apply String.eqb_eq in Hp.
  destruct (now - firstSeenPending pl <? stableWindow); [auto|].
  cbn [remainingDur andb onNow currentTitle]. rewrite Hcb. cbn. auto.
Qed.

Lemma handleICYTitle_pending (now : Z) (raw : string) (pl : Player) :
  let '(pl', _, _) := handleICYTitle now raw pl in
  pendingTitle pl' = pendingTitle pl \/ pendingTitle pl' = normalize raw.
Proof.
  unfold handleICYTitle. fold (normalize raw).
  destruct (String.eqb (normalize raw) ""); [auto|].
  destruct (String.eqb (normalize raw) (currentTitle pl)); [auto|].
  destruct (negb (String.eqb (normalize raw) (pendingTitle pl))); [cbn; auto|].
  destruct (now - firstSeenPending pl <? stableWindow); cbn; auto.
Qed.

(** What a delayed apply shows is the pending title. *)
Lemma delayedApply_shows (captured : string) (pl : Player) :
  onNow pl = display ->
  let '(pl', out) := delayedApply captured pl in
  onNow pl' = display /\ pendingTitle pl' = pendingTitle pl
  /\ (out = [] \/ out = [pendingTitle pl]).
Proof.
  intros Hcb. unfold delayedApply.
  destruct (String.eqb (pendingTitle pl) captured) eqn:Hp; cbn [negb orb]; [|auto].
  apply String.eqb_eq in Hp.
  destruct (String.eqb (currentTitle pl) captured); [auto|].
  cbn [remainingDur andb onNow currentTitle pendingTitle]. rewrite Hcb, Hp. cbn. auto.
Qed.

(** A new candidate becomes the pending title. *)
Lemma handleICYTitle_new (now : Z) (raw : string) (pl : Player) :
  normalize raw <> "" -> normalize raw <> currentTitle pl ->
  normalize raw <> pendingTitle pl ->
  handleICYTitle now raw pl
  = ({| onNow := onNow pl; currentTitle := currentTitle pl;
        pendingTitle := normalize raw; firstSeenPending := now |},
     [], Some {| pending := normalize raw; wake := now + stableWindow |}).
Proof.
  intros H1 H2 H3. unfold handleICYTitle. fold (normalize raw).
  apply eqb_nonempty in H1. apply String.eqb_neq in H2, H3.
  now rewrite H1, H2, H3.
Qed.

(** While the pending title differs from [a] and [a] is not received, no
    step shows [a]. *)
Lemma run_never_shows (a : string) (acts : list action) :
  forall (s s' : System) (out : list string),
    onNow (player s) = display ->
    pendingTitle (player s) <> a ->
    neverReceives a acts = true ->
    run s acts = Some (s', out) ->
    a ∉ out.
Proof.
  induction acts as [|act acts IH]; intros s s' out Hcb Hp Hnever Hrun; cbn [run] in Hrun.
  - injection Hrun as _ <-. apply not_elem_of_nil.
  - destruct (step s act) as [[s1 out1]|] eqn:Hstep; [|discriminate].
    destruct (run s1 acts) as [[s2 out2]|] eqn:Hrest; [|discriminate].
    injection Hrun as _ <-.
    assert (Hinv : onNow (player s1) = display /\ pendingTitle (player s1) <> a
                   /\ (a ∉ out1) /\ neverReceives a acts = true).
    { destruct act as [now raw | now k]; cbn [step neverReceives] in *.
      - destruct (now <? clock s); [discriminate|].
        apply andb_prop in Hnever as [Hraw Hacts].
        apply negb_true_iff in Hraw. apply eqb_neq in Hraw.
        pose proof (handleICYTitle_shows now raw (player s) Hcb) as Hshow.
        pose proof (handleICYTitle_pending now raw (player s)) as Hpend.
        destruct (handleICYTitle now raw (player s)) as [[pl out0] t].
        injection Hstep as <- <-. cbn [player].
        destruct Hshow as [Hcb' Hout].
        split; [exact Hcb'|]. split; [destruct Hpend as [-> | ->]; assumption|].
        split; [|exact Hacts].
        destruct Hout as [-> | [-> _]]; [apply not_elem_of_nil|].
        intros Hin. apply list_elem_of_singleton in Hin. congruence.
      - destruct (timers s !! k) as [t|]; [|discriminate].
        destruct ((now <? clock s) || (now <? wake t)); [discriminate|].
        pose proof (delayedApply_shows (pending t) (player s) Hcb) as Hshow.
        destruct (delayedApply (pending t) (player s)) as [pl out0].
        injection Hstep as <- <-. cbn [player].
        destruct Hshow as (Hcb' & Hpend & Hout).
        split; [exact Hcb'|]. split; [now rewrite Hpend|]. split; [|exact Hnever].
        destruct Hout as [-> | ->]; [apply not_elem_of_nil|].
        intros Hin. apply list_elem_of_singleton in Hin. congruence. }
    destruct Hinv as (Hcb1 & Hp1 & Hout1 & Hnever1).
    intros Hin. apply elem_of_app in Hin as [Hin | Hin]; [contradiction|].
    exact (IH _ _ _ Hcb1 Hp1 Hnever1 Hrest Hin).
Qed.

End StabilizerFacts.

Section Stabilizer.
Import Strings Player.

(** C3.  With [title] the trimmed, entity-decoded input: a title equal to
    the displayed one is ignored; a (non-empty) title that differs from
    the displayed and from the pending one becomes the pending title, with
    the time of the call as its timestamp and a delayed apply that wakes
    up [stableWindow] (6 seconds) later; the delayed apply promotes its
    captured value exactly when it equals the pending title and differs
    from the displayed one, and cannot run before its wake-up time; and a
    title equal to the pending one is promoted at once when [stableWindow]
    has passed since the pending title was first seen, and ignored before
    that. *)
Theorem title_stabilizer_steps (pl : Player) (now : Z) (raw : string) :
  let title := normalize raw in
  let promoted (t : string) :=
    {| onNow := onNow pl; currentTitle := t; pendingTitle := pendingTitle pl;
       firstSeenPending := firstSeenPending pl |} in
  stableWindow = 6 * Second
  /\ (title = currentTitle pl -> handleICYTitle now raw pl = (pl, [], None))
  /\ (title <> "" -> title <> currentTitle pl -> title <> pendingTitle pl ->
      handleICYTitle now raw pl
      = ({| onNow := onNow pl; currentTitle := currentTitle pl;
            pendingTitle := title; firstSeenPending := now |},
         [], Some {| pending := title; wake := now + stableWindow |}))
  /\ (forall captured,
        delayedApply captured pl
        = if String.eqb (pendingTitle pl) captured
             && negb (String.eqb (currentTitle pl) captured)
          then (promoted captured, call (onNow pl) captured)
          else (pl, []))
  /\ (forall (s : System) (k : nat) (t : Timer) (at_ : Z),
        timers s !! k = Some t -> at_ < wake t -> step s (Fire at_ k) = None)
  /\ (title <> "" -> title <> currentTitle pl -> title = pendingTitle pl ->
      handleICYTitle now raw pl
      = if now - firstSeenPending pl <? stableWindow then (pl, [], None)
        else (promoted title, call (onNow pl) title, None)).
Proof.
  cbv zeta. split; [reflexivity|].
  unfold handleICYTitle. fold (normalize raw).
  split; [|split; [|split; [|split]]].
  - intros ->. destruct (String.eqb (currentTitle pl) ""); [reflexivity|].
    now rewrite String.eqb_refl.
  - intros H1 H2 H3.
    apply StringFacts.eqb_nonempty in H1. apply String.eqb_neq in H2, H3.
    now rewrite H1, H2, H3.
  - intros captured. unfold delayedApply.
    destruct (String.eqb (pendingTitle pl) captured); [|reflexivity].
    now destruct (String.eqb (currentTitle pl) captured).
  - intros s k t at_ Hk Hlt. cbn [step]. rewrite Hk.
    replace (at_ <? wake t) with true by (symmetry; now apply Z.ltb_lt).
    now rewrite orb_true_r.
  - intros H1 H2 H3.
    apply StringFacts.eqb_nonempty in H1. apply String.eqb_neq in H2.
    rewrite H1, H2, H3, String.eqb_refl. cbn [negb].
    destruct (now - firstSeenPending pl <? stableWindow); [reflexivity|].
    cbn [remainingDur andb]. now rewrite <- H3.
Qed.

(** C4 (as amended).  When a pending title [a] is contradicted by a
    title [b] that differs from [a] and from the displayed title, [b]
    replaces it, and as long as [a] is not received again no delayed apply
    and no call of [handleICYTitle] shows [a]: the delayed apply armed for
    [a] finds another pending title and does nothing. *)
Theorem contradicted_title_not_shown (s s' : System) (now : Z) (rawB : string)
    (acts : list action) (out : list string)
    (Hcb : onNow (player s) = display)
    (Hb : normalize rawB <> "")
    (Hab : normalize rawB <> pendingTitle (player s))
    (Hcur : normalize rawB <> currentTitle (player s))
    (Hnever : neverReceives (pendingTitle (player s)) acts = true)
    (Hrun : run s (Receive now rawB :: acts) = Some (s', out)) :
  (pendingTitle (player s) ∉ out)
  /\ forall pl, pendingTitle pl <> pendingTitle (player s) ->
               delayedApply (pendingTitle (player s)) pl = (pl, []).
Proof.
  split.
  - cbn [run step] in Hrun.
    destruct (now <? clock s); [discriminate|].
    rewrite (StabilizerFacts.handleICYTitle_new now rawB (player s) Hb Hcur Hab) in Hrun.
    match type of Hrun with
    | match run ?s1 acts with _ => _ end = _ =>
        destruct (run s1 acts) as [[s2 out2]|] eqn:Hrest; [|discriminate]
    end.
    injection Hrun as _ <-. cbn [app].
    refine (StabilizerFacts.run_never_shows _ acts _ s2 out2 _ _ Hnever Hrest).
    + exact Hcb.
    + cbn [player pendingTitle]. exact Hab.
  - intros pl Hne. unfold delayedApply.
    apply String.eqb_neq in Hne. now rewrite Hne.
Qed.

End Stabilizer.

Lemma title_stabilizer_steps_witness :
  Player.handleICYTitle 0 "Song A" (Player.player (Player.initial Player.display))
  = ({| Player.onNow := Player.display; Player.currentTitle := "";
        Player.pendingTitle := "Song A"; Player.firstSeenPending := 0 |},
     [], Some {| Player.pending := "Song A"; Player.wake := 6000000000 |}).
Proof.
  exact (proj1 (proj2 (proj2
           (title_stabilizer_steps (Player.player (Player.initial Player.display)) 0 "Song A")))
           ltac:(vm_compute; discriminate) ltac:(vm_compute; discriminate)
           ltac:(vm_compute; discriminate)).
Defined.

Lemma contradicted_title_not_shown_witness :
  "A" ∉ ["B"].
Proof.
  exact (proj1 (contradicted_title_not_shown
           {| Player.player := {| Player.onNow := Player.display; Player.currentTitle := "";
                                  Player.pendingTitle := "A"; Player.firstSeenPending := 0 |};
              Player.timers := [{| Player.pending := "A"; Player.wake := 6000000000 |}];
              Player.clock := 0 |}
           {| Player.player := {| Player.onNow := Player.display; Player.currentTitle := "B";
                                  Player.pendingTitle := "B";
                                  Player.firstSeenPending := 1000000000 |};
              Player.timers := [];
              Player.clock := 7000000000 |}
           1000000000 "B"
           [Player.Fire 6000000000 0; Player.Fire 7000000000 0] ["B"]
           eq_refl ltac:(vm_compute; discriminate) ltac:(vm_compute; discriminate)
           ltac:(vm_compute; discriminate) eq_refl eq_refl)).
Defined.

(** C4 as stated fails: a title that is contradicted within the window and
    received again before its delayed apply fires is shown by that delayed
    apply, although the sequence settles on the other title. *)
Lemma contradicted_title_shown_counterexample :
  ~ (forall (a b : string) (t0 t1 : Z) (acts : list Player.action)
            (s' : Player.System) (out : list string),
        a <> b -> t0 <= t1 < t0 + Player.stableWindow ->
        Player.run (Player.initial Player.display)
          (Player.Receive t0 a :: Player.Receive t1 b :: acts) = Some (s', out) ->
        Player.currentTitle (Player.player s') = b ->
        a ∉ out).
Proof.
  intros Hall.
  refine (Hall "A" "B" 0 1000000000
            [Player.Receive 5000000000 "A"; Player.Fire 6000000000 0;
             Player.Receive 7000000000 "B"; Player.Fire 7000000000 0]
            _ ["A"; "B"] ltac:(discriminate)
            ltac:(unfold Player.stableWindow, Player.Second; lia)
            eq_refl eq_refl _).
  apply elem_of_cons. now left.
Qed.

(** A title equal to the displayed one is dropped before the pending state
    is looked at: the pending title it contradicts stays armed and is shown
    when its delayed apply fires. *)
Example duplicate_of_display_keeps_pending :
  snd <$> Player.run (Player.initial Player.display)
            [Player.Receive 0 "X"; Player.Fire 6000000000 0;
             Player.Receive 10000000000 "A"; Player.Receive 11000000000 "X";
             Player.Fire 16000000000 0]
  = Some ["X"; "A"].
Proof. reflexivity. Qed.

(** ** Volume and mute *)

Module ControlFacts.
Import Controls Measure.

Lemma clamp_range (v : Z) : 0 <= clamp v 0 100 <= 100.
Proof.
  unfold clamp. destruct (v <? 0) eqn:H0; [lia|].
  destruct (100 <? v) eqn:H1; [lia|].
  apply Z.ltb_ge in H0, H1. lia.
Qed.

Lemma vlcMuted_app (a b : list vlcCall) :
  vlcMuted (a ++ b) = xorb (vlcMuted a) (vlcMuted b).
Proof.
  induction a as [|[v|] a IH]; cbn [app vlcMuted].
  - now destruct (vlcMuted b).
  - exact IH.
  - rewrite IH. now destruct (vlcMuted a), (vlcMuted b).
Qed.

Lemma vlcVolume_app (a b : list vlcCall) :
  vlcVolume (a ++ b)
  = match vlcVolume b with Some v => Some v | None => vlcVolume a end.
Proof.
  induction a as [|c a IH]; cbn [app vlcVolume].
  - now destruct (vlcVolume b).
  - rewrite IH. now destruct (vlcVolume b).
Qed.

Lemma exec_inSync (pl : Player) (calls : list vlcCall) (o : op) :
  inSync pl calls ->
  inSync (fst (exec pl o)) (calls ++ snd (exec pl o)).
Proof.
  intros (Hr & Hv & Hm). unfold inSync.
  rewrite vlcVolume_app, vlcMuted_app.
  destruct o as [err v | delta | | m]; cbn [exec SetVolume Vol ToggleMute SetMute fst snd
    volume muted vlcVolume vlcMuted].
  - split; [apply clamp_range|]. split; [reflexivity|]. rewrite Hm. now destruct (vlcMuted calls).
  - split; [apply clamp_range|]. split; [reflexivity|]. rewrite Hm. now destruct (vlcMuted calls).
  - split; [exact Hr|]. split; [exact Hv|]. rewrite Hm. now destruct (vlcMuted calls).
  - split; [exact Hr|]. rewrite <- Hm.
    destruct m, (muted pl); cbn; auto.
Qed.

Lemma execAll_inSync (ops : list op) :
  forall (pl : Player) (calls : list vlcCall),
    inSync pl calls ->
    inSync (fst (execAll pl ops)) (calls ++ snd (execAll pl ops)).
Proof.
  induction ops as [|o ops IH]; intros pl calls Hin; cbn [execAll].
  - cbn [fst snd]. now rewrite app_nil_r.
  - pose proof (exec_inSync pl calls o Hin) as H1.
    destruct (exec pl o) as [pl1 calls1]. cbn [fst snd] in H1.
    specialize (IH pl1 (calls ++ calls1) H1).
    destruct (execAll pl1 ops) as [pl2 calls2]. cbn [fst snd] in *.
    now rewrite app_assoc.
Qed.

Lemma Init_inSync (volume0 : Z) (muted0 : bool) :
  inSync (fst (Init volume0 muted0 NewPlayer)) (snd (Init volume0 muted0 NewPlayer)).
Proof.
  unfold Init, inSync. destruct muted0; cbn [fst snd volume muted NewPlayer app vlcVolume vlcMuted];
    (split; [apply clamp_range|]); split; reflexivity.
Qed.

Lemma session_inSync (volume0 : Z) (muted0 : bool) (ops : list op) :
  inSync (fst (session volume0 muted0 ops)) (snd (session volume0 muted0 ops)).
Proof.
  unfold session.
  pose proof (Init_inSync volume0 muted0) as H0.
  destruct (Init volume0 muted0 NewPlayer) as [pl calls0]. cbn [fst snd] in H0.
  pose proof (execAll_inSync ops pl calls0 H0) as H1.
  now destruct (execAll pl ops) as [pl' calls].
Qed.

End ControlFacts.

(** After [Init] and any calls of [SetVolume], [Vol], [ToggleMute] and
    [SetMute], with any arguments and whatever libVLC answers, the volume
    kept by the player lies between 0 and 100 and is the volume libVLC was
    last given; [Vol] returns that volume. *)
Theorem volume_stays_in_range (volume0 : Z) (muted0 : bool) (ops : list Measure.op)
    (delta : Z) :
  let '(pl, calls) := Measure.session volume0 muted0 ops in
  0 <= Controls.volume pl <= 100
  /\ Measure.vlcVolume calls = Some (Controls.volume pl)
  /\ (let '(pl', calls', v) := Controls.Vol delta pl in
      0 <= v <= 100 /\ Controls.volume pl' = v /\ calls' = [Controls.VlcSetVolume v]).
Proof.
  pose proof (ControlFacts.session_inSync volume0 muted0 ops) as (Hr & Hv & _).
  destruct (Measure.session volume0 muted0 ops) as [pl calls]. cbn [fst snd] in *.
  split; [exact Hr|]. split; [exact Hv|].
  cbn [Controls.Vol Controls.volume]. split; [apply ControlFacts.clamp_range|]. now split.
Qed.

(** After [Init] and any calls of the controls, the [muted] flag of the
    player is the mute state of libVLC: [SetMute] toggles libVLC exactly
    when the flag changes, and [ToggleMute] toggles both. *)
Theorem mute_flag_tracks_vlc (volume0 : Z) (muted0 : bool) (ops : list Measure.op)
    (m : bool) :
  let '(pl, calls) := Measure.session volume0 muted0 ops in
  Controls.muted pl = Measure.vlcMuted calls
  /\ (let '(pl', calls') := Controls.SetMute m pl in
      Controls.muted pl' = m /\ Measure.vlcMuted (calls ++ calls') = m).
Proof.
  pose proof (ControlFacts.session_inSync volume0 muted0 ops) as (_ & _ & Hm).
  destruct (Measure.session volume0 muted0 ops) as [pl calls]. cbn [fst snd] in *.
  split; [exact Hm|].
  cbn [Controls.SetMute Controls.muted]. split; [reflexivity|].
  rewrite ControlFacts.vlcMuted_app, <- Hm.
  now destruct m, (Controls.muted pl).
Qed.

(** [Init] is not a call of the controls: a second [Init] with the mute
    flag set toggles libVLC again and leaves the flag set. *)
Example second_Init_unmutes_vlc :
  let '(pl1, calls1) := Controls.Init 70 true Controls.NewPlayer in
  let '(pl2, calls2) := Controls.Init 70 true pl1 in
  Controls.muted pl2 = true /\ Measure.vlcMuted (calls1 ++ calls2) = false.
Proof. split; reflexivity. Qed.

(** ** The title stabilizer over a session *)

Module SessionFacts.
Import Strings Player StringFacts Measure.

(** The three outcomes of [handleICYTitle]. *)
Lemma handleICYTitle_cases (now : Z) (raw : string) (pl : Player) :
  let title := normalize raw in
  handleICYTitle now raw pl = (pl, [], None)
  \/ (title <> "" /\ title <> currentTitle pl /\ title <> pendingTitle pl
      /\ handleICYTitle now raw pl
         = ({| onNow := onNow pl; currentTitle := currentTitle pl;
               pendingTitle := title; firstSeenPending := now |},
            [], Some {| pending := title; wake := now + stableWindow |}))
  \/ (title <> "" /\ title <> currentTitle pl /\ title = pendingTitle pl
      /\ stableWindow <= now - firstSeenPending pl
      /\ handleICYTitle now raw pl
         = ({| onNow := onNow pl; currentTitle := title;
               pendingTitle := pendingTitle pl;
               firstSeenPending := firstSeenPending pl |},
            call (onNow pl) title, None)).
Proof.
  cbv zeta. unfold handleICYTitle. fold (normalize raw).
  destruct (String.eqb (normalize raw) "") eqn:He; [now left|].
  destruct (String.eqb (normalize raw) (currentTitle pl)) eqn:Hc; [now left|].
  apply eqb_nonempty in He. apply String.eqb_neq in Hc.
  destruct (String.eqb (normalize raw) (pendingTitle pl)) eqn:Hp; cbn [negb].
  - apply String.eqb_eq in Hp.
    destruct (now - firstSeenPending pl <? stableWindow) eqn:Hw; [now left|].
    apply Z.ltb_ge in Hw. right. right.
    cbn [remainingDur andb currentTitle onNow]. rewrite <- Hp. auto.
  - apply String.eqb_neq in Hp. right. left. auto.
Qed.

(** The two outcomes of a delayed apply. *)
Lemma delayedApply_cases (captured : string) (pl : Player) :
  delayedApply captured pl = (pl, [])
  \/ (pendingTitle pl = captured /\ currentTitle pl <> captured
      /\ delayedApply captured pl
         = ({| onNow := onNow pl; currentTitle := captured;
               pendingTitle := pendingTitle pl;
               firstSeenPending := firstSeenPending pl |},
            call (onNow pl) captured)).
Proof.
  unfold delayedApply.
  destruct (String.eqb (pendingTitle pl) captured) eqn:Hp; cbn [negb orb]; [|now left].
  destruct (String.eqb (currentTitle pl) captured) eqn:Hc; [now left|].
  apply String.eqb_eq in Hp. apply String.eqb_neq in Hc. right. auto.
Qed.

Lemma elem_of_remove {A} (x : A) (k : nat) (l : list A) : x ∈ remove k l -> x ∈ l.
Proof.
  revert k; induction l as [|y l IH]; intros k Hin; [now destruct k|].
  destruct k as [|k]; cbn [remove] in Hin.
  - now apply elem_of_cons; right.
  - apply elem_of_cons in Hin as [-> | Hin]; [now left | right; eauto].
Qed.

Lemma received_mono (hist more : list action) (t : string) (t0 : Z) :
  received hist t t0 -> received (hist ++ more) t t0.
Proof.
  intros (raw & Hin & Hn). exists raw. split; [|exact Hn].
  apply elem_of_app. now left.
Qed.

(** One step keeps the invariant, and shows at most one title: a title
    that is not empty, differs from the one displayed, and was received
    one [stableWindow] or more before. *)
Lemma step_armed (hist : list action) (s s' : System) (a : action) (out : list string) :
  armed hist s -> step s a = Some (s', out) ->
  armed (hist ++ [a]) s'
  /\ (out = [] /\ currentTitle (player s') = currentTitle (player s)
      \/ exists t t0,
           out = [t] /\ currentTitle (player s') = t
           /\ t <> "" /\ t <> currentTitle (player s)
           /\ received hist t t0 /\ t0 + stableWindow <= at_ a).
Proof.
  intros (Hcb & Htm & Hpend) Hstep.
  destruct a as [now raw | now k]; cbn [step] in Hstep.
  - destruct (now <? clock s); [discriminate|].
    destruct (handleICYTitle_cases now raw (player s)) as [E | [(H1 & H2 & H3 & E) | (H1 & H2 & H3 & H4 & E)]];
      rewrite E in Hstep; injection Hstep as <- <-; cbn [player timers].
    + split; [|now left]. rewrite app_nil_r.
      split; [exact Hcb|]. split.
      * intros tm Hin. destruct (Htm tm Hin) as [Hne Hrec].
        split; [exact Hne | now apply received_mono].
      * intros Hne. now apply received_mono, Hpend.
    + split; [|now left].
      assert (Hnew : received (hist ++ [Receive now raw]) (normalize raw) now).
      { exists raw. split; [|reflexivity]. apply elem_of_app. right. now left. }
      split; [exact Hcb|]. split.
      * intros tm Hin. apply elem_of_app in Hin as [Hin | Hin].
        -- destruct (Htm tm Hin) as [Hne Hrec].
           split; [exact Hne | now apply received_mono].
        -- apply list_elem_of_singleton in Hin. subst tm. cbn [pending wake].
           split; [exact H1|].
           now replace (now + stableWindow - stableWindow) with now by lia.
      * intros _. exact Hnew.
    + rewrite Hcb. cbn [call display]. split.
      * rewrite app_nil_r. split; [reflexivity|]. split.
        -- intros tm Hin. destruct (Htm tm Hin) as [Hne Hrec].
           split; [exact Hne | now apply received_mono].
        -- cbn [pendingTitle firstSeenPending]. intros Hne.
           now apply received_mono, Hpend.
      * right. exists (normalize raw), (firstSeenPending (player s)).
        cbn [currentTitle at_]. repeat split; try assumption; [|lia].
        rewrite H3. apply Hpend. now rewrite <- H3.
  - destruct (timers s !! k) as [tm|] eqn:Hk; [|discriminate].
    destruct ((now <? clock s) || (now <? wake tm)) eqn:Hnow; [discriminate|].
    apply orb_false_elim in Hnow as [_ Hwake]. apply Z.ltb_ge in Hwake.
    assert (Hin : tm ∈ timers s) by (eapply list_elem_of_lookup_2; exact Hk).
    destruct (Htm tm Hin) as [Hne Hrec].
    assert (Hkeep : forall tm', tm' ∈ remove k (timers s) ->
              pending tm' <> ""
              /\ received (hist ++ [Fire now k]) (pending tm') (wake tm' - stableWindow)).
    { intros tm' Hin'. apply elem_of_remove in Hin'.
      destruct (Htm tm' Hin') as [Hne' Hrec']. split; [exact Hne' | now apply received_mono]. }
    destruct (delayedApply_cases (pending tm) (player s)) as [E | (H1 & H2 & E)];
      rewrite E in Hstep; injection Hstep as <- <-; cbn [player timers].
    + split; [|now left]. split; [exact Hcb|]. split; [exact Hkeep|].
      intros Hne'. now apply received_mono, Hpend.
    + rewrite Hcb. cbn [call display]. split.
      * split; [reflexivity|]. split; [exact Hkeep|].
        cbn [pendingTitle firstSeenPending]. intros Hne'. now apply received_mono, Hpend.
      * right. exists (pending tm), (wake tm - stableWindow).
        cbn [currentTitle at_]. repeat split; auto; lia.
Qed.

Lemma initial_armed : armed [] (initial display).
Proof.
  split; [reflexivity|]. split.
  - intros tm Hin. cbn in Hin. now apply elem_of_nil in Hin.
  - cbn. congruence.
Qed.

Lemma run_armed (acts : list action) :
  forall (hist : list action) (s s' : System) (out : list string),
    armed hist s -> run s acts = Some (s', out) -> armed (hist ++ acts) s'.
Proof.
  induction acts as [|a acts IH]; intros hist s s' out Harm Hrun; cbn [run] in Hrun.
  - injection Hrun as <- _. now rewrite app_nil_r.
  - destruct (step s a) as [[s1 out1]|] eqn:Hstep; [|discriminate].
    destruct (run s1 acts) as [[s2 out2]|] eqn:Hrest; [|discriminate].
    injection Hrun as <- _.
    destruct (step_armed hist s s1 a out1 Harm Hstep) as [H1 _].
    replace (hist ++ a :: acts) with ((hist ++ [a]) ++ acts) by now rewrite <- app_assoc.
    exact (IH _ _ _ _ H1 Hrest).
Qed.


Lemma last_cons {A} (x : A) (l : list A) (d d' : A) :
  List.last (x :: l) d = List.last (x :: l) d'.
Proof.
  revert x; induction l as [|y l IH]; intros x; [reflexivity|].
  change (List.last (y :: l) d = List.last (y :: l) d'). apply IH.
Qed.


End SessionFacts.

(** When a title is shown, it was received at least one stabilization
    window (6 seconds) earlier: whatever the titles and the timing of the
    calls and of the delayed applies, the title shown by the step [a] that
    follows the actions [pre] is the normalized title of a call in [pre]
    made [stableWindow] or more before [a]. *)
Theorem shown_title_was_received_a_window_ago (pre : list Player.action)
    (a : Player.action) (s1 s2 : Player.System) (out1 out2 : list string) (t : string)
    (Hpre : Player.run (Player.initial Player.display) pre = Some (s1, out1))
    (Hstep : Player.step s1 a = Some (s2, out2))
    (Hshown : t ∈ out2) :
  exists (t0 : Z) (raw : string),
    Player.Receive t0 raw ∈ pre /\ Player.normalize raw = t
    /\ t0 + Player.stableWindow <= Measure.at_ a.
Proof.
  pose proof (SessionFacts.run_armed pre [] _ _ _ SessionFacts.initial_armed Hpre) as Harm.
  cbn [app] in Harm.
  destruct (SessionFacts.step_armed pre s1 s2 a out2 Harm Hstep)
    as [_ [[-> _] | (t' & t0 & -> & _ & _ & _ & (raw & Hin & Hn) & Hle)]].
  - now apply elem_of_nil in Hshown.
  - apply list_elem_of_singleton in Hshown. subst t'. now exists t0, raw.
Qed.

Lemma shown_title_was_received_a_window_ago_witness :
  exists (t0 : Z) (raw : string),
    Player.Receive t0 raw ∈ [Player.Receive 0 " Song &amp; Dance "]
    /\ Player.normalize raw = "Song & Dance"
    /\ t0 + Player.stableWindow <= 6000000000.
Proof.
  refine (shown_title_was_received_a_window_ago
            [Player.Receive 0 " Song &amp; Dance "] (Player.Fire 6000000000 0)
            _ _ _ _ "Song & Dance" eq_refl eq_refl _).
  apply elem_of_cons. now left.
Defined.



(** [Load] and [Stop] clear the displayed and the pending title and leave
    the sleeping delayed applies alone; these then show nothing: after the
    reset no title is shown before it is received again. *)
Theorem reset_silences_delayed_applies (s s' : Player.System) (acts : list Player.action)
    (out : list string) (t : string)
    (Hcb : Player.onNow (Player.player s) = Player.display)
    (Ht : t <> "")
    (Hnever : Player.neverReceives t acts = true)
    (Hrun : Player.run {| Player.player := Watcher.resetTitles (Player.player s);
                          Player.timers := Player.timers s;
                          Player.clock := Player.clock s |} acts = Some (s', out)) :
  t ∉ out.
Proof.
  refine (StabilizerFacts.run_never_shows t acts _ s' out _ _ Hnever Hrun).
  - exact Hcb.
  - cbn. congruence.
Qed.

Lemma reset_silences_delayed_applies_witness : "Song A" ∉ @nil string.
Proof.
  refine (reset_silences_delayed_applies
            {| Player.player :=
                 {| Player.onNow := Player.display; Player.currentTitle := "";
                    Player.pendingTitle := "Song A"; Player.firstSeenPending := 0 |};
               Player.timers := [ {| Player.pending := "Song A"; Player.wake := 6000000000 |} ];
               Player.clock := 4000000000 |}
            _ [Player.Fire 6000000000 0] [] "Song A" eq_refl _ eq_refl eq_refl).
  discriminate.
Defined.

(** The delayed applies outlive the reset: a title received again after
    [Stop] and [Play] is shown when the delayed apply armed before the
    reset wakes up, here one second after it was received again. *)
Example delayed_apply_outlives_reset :
  snd <$> Player.run
            {| Player.player :=
                 Watcher.resetTitles
                   {| Player.onNow := Player.display; Player.currentTitle := "";
                      Player.pendingTitle := "Song A"; Player.firstSeenPending := 0 |};
               Player.timers := [ {| Player.pending := "Song A"; Player.wake := 6000000000 |} ];
               Player.clock := 4000000000 |}
            [Player.Receive 5000000000 "Song A"; Player.Fire 6000000000 0]
  = Some ["Song A"].
Proof. reflexivity. Qed.

Module AnnounceFacts.
Import Strings Player StringFacts Measure.


End AnnounceFacts.



(** ** Frames of an ICY stream *)

Module StreamFacts.
Import Strings Metadata StringFacts.

(** A read that succeeds took its bytes from the front of the reader. *)
Lemma ReadFull_inv (r r' : Reader) (n : Z) (a : string) :
  0 <= n -> ReadFull r n = inl (a, r') ->
  buffered r = a +:+ buffered r' /\ len a = n /\ ending r' = ending r.
Proof.
  intros Hn. unfold ReadFull, len, sliceTo, sliceFrom.
  destruct (n <=? _) eqn:Hle; [|discriminate].
  apply Z.leb_le in Hle. intros [= <- <-]. cbn [buffered ending].
  rewrite take_drop, length_take. repeat split. lia.
Qed.

Lemma ReadByte_inv (r r' : Reader) (c : ascii) :
  ReadByte r = inl (c, r') ->
  buffered r = String c (buffered r') /\ ending r' = ending r.
Proof.
  unfold ReadByte. destruct (buffered r) as [|c0 rest]; [discriminate|].
  now intros [= <- <-].
Qed.

(** The skip loop that ends without an error has read [left] bytes. *)
Lemma skipAudio_inv (fuel : nat) :
  forall (left : Z) (r r' : Reader),
    (Z.to_nat left <= fuel)%nat ->
    skipAudio fuel left r = (None, r') ->
    exists audio,
      buffered r = audio +:+ buffered r' /\ len audio = Z.max 0 left
      /\ ending r' = ending r.
Proof.
  induction fuel as [|fuel IH]; intros left r r' Hfuel Hskip; cbn [skipAudio] in Hskip.
  - injection Hskip as <-. exists "". repeat split. unfold len. simpl. lia.
  - destruct (0 <? left) eqn:Hpos.
    + apply Z.ltb_lt in Hpos.
      set (chunk := if 4096 <? left then 4096 else left) in Hskip.
      assert (Hchunk : 0 < chunk <= left).
      { unfold chunk. destruct (4096 <? left) eqn:Hc; [apply Z.ltb_lt in Hc|]; lia. }
      destruct (ReadFull r chunk) as [[a r1]|[[? ?] ?]] eqn:Hread; [|discriminate].
      apply ReadFull_inv in Hread as (Hb & Ha & He); [|lia].
      apply IH in Hskip as (audio & Hb1 & Ha1 & He1); [|lia].
      exists (a +:+ audio). rewrite append_assoc, <- Hb1, <- Hb.
      split; [reflexivity|]. split; [|congruence].
      unfold len in *. rewrite length_append. lia.
    + apply Z.ltb_ge in Hpos. injection Hskip as <-.
      exists "". repeat split. unfold len. simpl. lia.
Qed.

End StreamFacts.

(** [firstMetaBlock] returns a title only from a whole frame: when it
    returns without an error, the reader held [metaInt] bytes of audio, a
    length byte that is not zero and all the [16 * L] bytes of the block;
    the title is what [extractStreamTitle] makes of the block, and the
    reader is left exactly behind the frame.  A stream that ends inside
    the frame gives no title. *)
Theorem firstMetaBlock_needs_whole_frame (r r' : Metadata.Reader) (metaInt : Z)
    (title : string)
    (Hok : Metadata.firstMetaBlock (Some r) metaInt = (title, None, Some r')) :
  exists (audio : string) (lb : ascii) (meta : string),
    Metadata.buffered r = audio +:+ String lb (meta +:+ Metadata.buffered r')
    /\ 0 < metaInt /\ Strings.len audio = metaInt
    /\ Strings.byteZ lb <> 0 /\ Strings.len meta = Strings.byteZ lb * 16
    /\ title = Metadata.extractStreamTitle meta /\ title <> ""
    /\ Metadata.ending r' = Metadata.ending r.
Proof.
  unfold Metadata.firstMetaBlock in Hok.
  destruct (metaInt <=? 0) eqn:Hpos; [discriminate|]. apply Z.leb_gt in Hpos.
  destruct (Metadata.skipAudio _ _ _) as [[err|] rd1] eqn:Hskip; [discriminate|].
  destruct (Metadata.ReadByte rd1) as [[lb rd2]|err] eqn:Hbyte; [|discriminate].
  destruct (Strings.byteZ lb =? 0) eqn:Hlb; [discriminate|]. apply Z.eqb_neq in Hlb.
  destruct (Metadata.ReadFull rd2 _) as [[meta rd3]|[[? ?] ?]] eqn:Hread; [|discriminate].
  destruct (String.eqb (Metadata.extractStreamTitle meta) "") eqn:Ht; [discriminate|].
  injection Hok as <- <-.
  apply StreamFacts.skipAudio_inv in Hskip as (audio & Hb1 & Ha & He1); [|lia].
  apply StreamFacts.ReadByte_inv in Hbyte as (Hb2 & He2).
  assert (Hbyte0 : 0 <= Strings.byteZ lb)
    by (unfold Strings.byteZ; lia).
  apply StreamFacts.ReadFull_inv in Hread as (Hb3 & Hm & He3); [|lia].
  exists audio, lb, meta.
  rewrite Hb1, Hb2, Hb3. split; [reflexivity|]. split; [exact Hpos|].
  split; [lia|]. split; [exact Hlb|]. split; [exact Hm|]. split; [reflexivity|].
  split; [now apply StringFacts.eqb_nonempty | congruence].
Qed.

Lemma firstMetaBlock_needs_whole_frame_witness :
  exists (audio : string) (lb : ascii) (meta : string),
    Sample.buildICYBody "Test Title" = audio +:+ String lb (meta +:+ "")
    /\ 0 < 1 /\ Strings.len audio = 1
    /\ Strings.byteZ lb <> 0 /\ Strings.len meta = Strings.byteZ lb * 16
    /\ "Test Title" = Metadata.extractStreamTitle meta /\ "Test Title" <> ""
    /\ None = @None Metadata.fault.
Proof.
  exact (firstMetaBlock_needs_whole_frame
           {| Metadata.buffered := Sample.buildICYBody "Test Title"; Metadata.ending := None |}
           {| Metadata.buffered := ""; Metadata.ending := None |}
           1 "Test Title" eq_refl).
Defined.

(** The read loop of the direct strategy works frame by frame.  With a
    whole frame at the front of the body ([metaInt] bytes of audio, the
    length byte, [16 * L] bytes of metadata), it emits one update when the
    block has a title and none when it has not (a zero length byte
    included), and goes on with the rest of the body; the error it ends
    with is the one the rest ends with. *)
Theorem readLoop_frame_by_frame (metaInt : Z) (station : string)
    (onUpdate : Metadata.Info -> list Metadata.event)
    (audio : string) (lb : ascii) (meta rest : string) (e : option Metadata.fault)
    (Hpos : 0 < metaInt) (Haudio : Strings.len audio = metaInt)
    (Hmeta : Strings.len meta = Strings.byteZ lb * 16) :
  let body := audio +:+ String lb (meta +:+ rest) in
  let text := Metadata.extractStreamTitle meta in
  Metadata.readLoop (String.length body) metaInt station onUpdate
    {| Metadata.buffered := body; Metadata.ending := e |}
  = let '(err, tr) :=
      Metadata.readLoop (String.length rest) metaInt station onUpdate
        {| Metadata.buffered := rest; Metadata.ending := e |} in
    (err,
     (if String.eqb text "" then []
      else onUpdate {| Metadata.Title := Metadata.fixMojibake text;
                       Metadata.Description := "";
                       Metadata.Station := Html.UnescapeString station |}) ++ tr).
Proof.
  cbv zeta.
  assert (Hlen : String.length (audio +:+ String lb (meta +:+ rest))
                 = S (String.length audio + String.length meta + String.length rest)).
  { rewrite StringFacts.length_append. cbn [String.length].
    rewrite StringFacts.length_append. lia. }
  rewrite Hlen. cbn [Metadata.readLoop].
  rewrite (FrameFacts.ReadFull_ok audio _ e metaInt Haudio).
  cbn [Metadata.ReadByte Metadata.buffered Metadata.ending].
  set (fuel := (String.length audio + String.length meta + String.length rest)%nat).
  assert (Hrest : forall r,
            Metadata.buffered r = rest ->
            Metadata.readLoop fuel metaInt station onUpdate r
            = Metadata.readLoop (String.length rest) metaInt station onUpdate r).
  { intros r Hr. apply DispatchFacts.readLoop_fuel; [exact Hpos| |]; rewrite Hr; unfold fuel; lia. }
  destruct (Strings.byteZ lb * 16 =? 0) eqn:Hz.
  - apply Z.eqb_eq in Hz. rewrite Hz in Hmeta.
    assert (meta = "") as -> by (destruct meta; [reflexivity | unfold Strings.len in Hmeta; simpl in Hmeta; lia]).
    cbn [String.append]. rewrite Hrest by reflexivity.
    change (String.eqb (Metadata.extractStreamTitle "") "") with true. cbn [app].
    now destruct (Metadata.readLoop _ _ _ _ _).
  - rewrite (FrameFacts.ReadFull_ok meta rest e _ Hmeta).
    rewrite Hrest by reflexivity.
    destruct (Metadata.readLoop _ _ _ _ _) as [err tr].
    now destruct (String.eqb (Metadata.extractStreamTitle meta) "").
Qed.

Lemma readLoop_frame_by_frame_witness :
  Metadata.readLoop 34 1 "Rock Paradise" Observe.recordUpdate
    {| Metadata.buffered := Sample.buildICYBody "Test Title"; Metadata.ending := None |}
  = (Metadata.io_EOF,
     [Metadata.EvUpdate {| Metadata.Title := "Test Title"; Metadata.Description := "";
                           Metadata.Station := "Rock Paradise" |}]).
Proof.
  exact (readLoop_frame_by_frame 1 "Rock Paradise" Observe.recordUpdate
           (Strings.ofBytes [0]) (ascii_of_nat 2)
           ("StreamTitle='Test Title';" +:+ Strings.ofBytes (repeat 0 7%nat)) "" None
           eq_refl eq_refl eq_refl).
Defined.

(** ** Values of [StreamTitle] that are not closed by a quote *)

Module ValueFacts.
Import Strings Metadata StringFacts Observe.

Lemma find_char (c : ascii) (v tail : string) :
  noneOf (String c "") v = true ->
  find (v +:+ String c tail) (String c "") = Some (String.length v).
Proof.
  induction v as [|b v IH]; intros Hv.
  - cbn [String.append find HasPrefix].
    now rewrite Ascii.eqb_refl, SiblingFacts.HasPrefix_nil.
  - cbn [noneOf mem] in Hv. apply andb_prop in Hv as [Hb Hv].
    rewrite orb_false_r in Hb. apply negb_true_iff in Hb.
    cbn [String.append find HasPrefix String.length].
    rewrite Ascii.eqb_sym, Hb. cbn [andb]. now rewrite (IH Hv).
Qed.

Lemma find_char_none (c : ascii) (v : string) :
  noneOf (String c "") v = true -> find v (String c "") = None.
Proof.
  induction v as [|b v IH]; intros Hv; [reflexivity|].
  cbn [noneOf mem] in Hv. apply andb_prop in Hv as [Hb Hv].
  rewrite orb_false_r in Hb. apply negb_true_iff in Hb.
  cbn [find HasPrefix]. rewrite Ascii.eqb_sym, Hb. cbn [andb]. now rewrite (IH Hv).
Qed.

(** [extractStreamTitle] up to the value behind the first key. *)
Lemma extractStreamTitle_value (pre rest : string) :
  find (pre +:+ "StreamTitle=" +:+ rest) "StreamTitle=" = Some (String.length pre) ->
  TrimSpace rest = rest ->
  extractStreamTitle (pre +:+ "StreamTitle=" +:+ rest)
  = match rest with
    | EmptyString => ""
    | String c0 tl =>
        Html.UnescapeString
          (TrimSpace
             (if Ascii.eqb c0 "'" || Ascii.eqb c0 "034" then
                let end_ := ofIndex (findClosingQuote c0 tl) in
                let end_ := if end_ <? 0 then LastIndexByte tl c0 else end_ in
                if 0 <=? end_ then sliceTo tl end_ else tl
              else
                let end_ := Index rest ";" in
                if 0 <=? end_ then sliceTo rest end_ else rest))
    end.
Proof.
  intros Hfirst Htrim.
  assert (Hidx : Index (pre +:+ "StreamTitle=" +:+ rest) "StreamTitle="
                 = Z.of_nat (String.length pre)) by (unfold Index; now rewrite Hfirst).
  unfold extractStreamTitle. rewrite Hidx.
  replace (String.eqb (pre +:+ "StreamTitle=" +:+ rest) "") with false by now destruct pre.
  replace (Z.of_nat (String.length pre) <? 0) with false by (symmetry; apply Z.ltb_ge; lia).
  unfold sliceFrom.
  replace (Z.to_nat (Z.of_nat (String.length pre) + 12))
    with (String.length pre + 12)%nat by lia.
  rewrite drop_add, drop_append.
  change (drop 12 ("StreamTitle=" +:+ rest)) with rest.
  rewrite Htrim. now destruct rest.
Qed.

End ValueFacts.

(** A value without quotes ends at the first [';'] behind it: for a block
    whose first [StreamTitle=] is followed by a value [v] that does not
    start with a quote and has no [';'], then a [';'] and anything, the
    result is [v], trimmed and entity-decoded; the text behind the [';']
    has no influence. *)
Theorem extractStreamTitle_unquoted_value (pre v tail : string)
    (Hfirst : Strings.find (pre +:+ "StreamTitle=" +:+ v +:+ String ";" tail) "StreamTitle="
              = Some (String.length pre))
    (Hends : Strings.TrimSpace (v +:+ String ";" tail) = v +:+ String ";" tail)
    (Hquote : Strings.HasPrefix v "'" = false /\ Strings.HasPrefix v (String "034" "") = false)
    (Hv : Observe.noneOf ";" v = true) :
  Metadata.extractStreamTitle (pre +:+ "StreamTitle=" +:+ v +:+ String ";" tail)
  = Html.UnescapeString (Strings.TrimSpace v).
Proof.
  rewrite (ValueFacts.extractStreamTitle_value pre _ Hfirst Hends).
  destruct Hquote as [Hq1 Hq2].
  assert (Hidx : Strings.Index (v +:+ String ";" tail) ";" = Z.of_nat (String.length v)).
  { unfold Strings.Index. now rewrite (ValueFacts.find_char ";" v tail Hv). }
  assert (Hcut : (if 0 <=? Strings.Index (v +:+ String ";" tail) ";"
                  then Strings.sliceTo (v +:+ String ";" tail)
                         (Strings.Index (v +:+ String ";" tail) ";")
                  else v +:+ String ";" tail) = v).
  { rewrite Hidx.
    replace (0 <=? Z.of_nat (String.length v)) with true by (symmetry; apply Z.leb_le; lia).
    unfold Strings.sliceTo. now rewrite Nat2Z.id, StringFacts.take_append. }
  destruct v as [|c v'].
  - cbn [String.append] in *. cbv zeta. change (Ascii.eqb ";" "'" || Ascii.eqb ";" "034") with false.
    cbv iota. now rewrite Hcut.
  - cbn [Strings.HasPrefix] in Hq1, Hq2.
    rewrite SiblingFacts.HasPrefix_nil, andb_true_r in Hq1, Hq2.
    change (String c v' +:+ String ";" tail) with (String c (v' +:+ String ";" tail)) in *.
    cbv beta iota zeta. rewrite (Ascii.eqb_sym c "'"), Hq1, (Ascii.eqb_sym c "034"), Hq2.
    cbn [orb]. now rewrite Hcut.
Qed.

Lemma extractStreamTitle_unquoted_value_witness :
  Metadata.extractStreamTitle "StreamTitle=Artist - It's Live;StreamUrl='';"
  = "Artist - It's Live".
Proof.
  exact (extractStreamTitle_unquoted_value "" "Artist - It's Live" "StreamUrl='';"
           eq_refl eq_refl (conj eq_refl eq_refl) eq_refl).
Defined.

(** A quoted value that is never closed is taken to the end of the block:
    when the first [StreamTitle=] is followed by a quote and a text [v]
    without that quote, the result is [v], trimmed and entity-decoded. *)
Theorem extractStreamTitle_open_quote (pre : string) (q : ascii) (v : string)
    (Hq : q = "'"%char \/ q = "034"%char)
    (Hfirst : Strings.find (pre +:+ "StreamTitle=" +:+ String q v) "StreamTitle="
              = Some (String.length pre))
    (Hends : Strings.TrimSpace (String q v) = String q v)
    (Hv : Observe.noneOf (String q "") v = true) :
  Metadata.extractStreamTitle (pre +:+ "StreamTitle=" +:+ String q v)
  = Html.UnescapeString (Strings.TrimSpace v).
Proof.
  rewrite (ValueFacts.extractStreamTitle_value pre _ Hfirst Hends).
  replace (Ascii.eqb q "'" || Ascii.eqb q "034") with true
    by (destruct Hq as [-> | ->]; reflexivity).
  cbv beta iota zeta. rewrite (ExtractFacts.findClosingQuote_absent q v Hv).
  cbn [Strings.ofIndex Z.ltb Z.compare]. unfold Strings.LastIndexByte.
  rewrite (ExtractFacts.findLast_absent q v Hv). reflexivity.
Qed.

Lemma extractStreamTitle_open_quote_witness :
  Metadata.extractStreamTitle "StreamTitle='Half a title &amp; no end" = "Half a title & no end".
Proof.
  exact (extractStreamTitle_open_quote "" "'" "Half a title &amp; no end"
           (or_introl eq_refl) eq_refl eq_refl eq_refl).
Defined.

(** ** Sessions of the provider and of the watcher *)

Module TrafficFacts.
Import Strings Metadata StringFacts Observe DispatchFacts Traffic.

Lemma requestsOf_app (a b : list event) : requestsOf (a ++ b) = requestsOf a ++ requestsOf b.
Proof. apply omap_app. Qed.

Lemma pausesOf_app (a b : list event) : pausesOf (a ++ b) = pausesOf a ++ pausesOf b.
Proof. apply omap_app. Qed.

Lemma requestsOf_pollIO (tr : list event) :
  Forall isPollIO tr -> Forall (fun r => fst r = false) (requestsOf tr).
Proof.
  induction 1 as [|ev tr Hev _ IH]; [constructor|].
  destruct ev as [| [|] ? ? | | | |]; cbn in *; try contradiction; auto.
Qed.

Lemma callsOf_pollIO (tr : list event) : Forall isPollIO tr -> callsOf tr = [].
Proof.
  induction 1 as [|ev tr Hev _ IH]; [reflexivity|].
  destruct ev as [| [|] ? ? | | | |]; cbn in *; try contradiction; auto.
Qed.

Lemma strategiesOf_pollIO (tr : list event) : Forall isPollIO tr -> strategiesOf tr = [].
Proof.
  induction 1 as [|ev tr Hev _ IH]; [reflexivity|].
  destruct ev as [| [|] ? ? | | | |]; cbn in *; try contradiction; auto.
Qed.

Lemma strategiesOf_requests (tr : list event) : Forall isRequest tr -> strategiesOf tr = [].
Proof.
  intros Hreq. apply strategiesOf_none.
  eapply Forall_impl; [exact Hreq | exact isRequest_noStrategy].
Qed.

Lemma strategiesOf_updates (tr : list event) : Forall isUpdate tr -> strategiesOf tr = [].
Proof.
  intros Hup. apply strategiesOf_none.
  eapply Forall_impl; [exact Hup | exact isUpdate_noStrategy].
Qed.

Section Sessions.
Context `{GoLib}.

(** The probes of a scan: one request at most for a candidate, one pause
    at most between two candidates. *)
Lemma probeEach_bounded (u : URL) (cands : list string) :
  forall (w : World) res (tr : list event) (w' : World),
    probeEach u cands w = (res, tr, w') ->
    (length (requestsOf tr) <= length cands)%nat
    /\ (length (pausesOf tr) <= length cands - 1)%nat
    /\ Forall (fun d => d = 80 * Millisecond) (pausesOf tr)
    /\ Forall (fun r => fst r = true) (requestsOf tr).
Proof.
  induction cands as [|suffix rest IH]; intros w res tr w' Heq; cbn [probeEach] in Heq.
  - injection Heq as _ <- _. cbn. repeat split; first [lia | constructor].
  - destruct (ctxDone w); [injection Heq as _ <- _; cbn; repeat split; first [lia | constructor]|].
    set (cand := URL_String _) in Heq.
    assert (Hprobe : forall r ev w1, probeCandidate w cand = (r, ev, w1) ->
              (length (requestsOf ev) <= 1)%nat /\ pausesOf ev = []
              /\ Forall (fun r => fst r = true) (requestsOf ev)).
    { intros r ev w1. unfold probeCandidate.
      destruct (url_Parse cand);
        [|intros [= _ <- _]; cbn; repeat split; first [lia | constructor]].
      destruct (clientDo w cand). intros [= _ <- _]. cbn.
      repeat split; first [lia | repeat constructor]. }
    destruct (probeCandidate w cand) as [[[[title station] ok] ev] w1] eqn:Hp.
    destruct (Hprobe _ _ _ eq_refl) as (Hr & Hs & Hicy).
    destruct ok.
    + injection Heq as _ <- _. rewrite Hs. cbn [length].
      repeat split; first [lia | assumption | constructor].
    + destruct (probeEach u rest w1) as [[res2 tr2] w2] eqn:Hrest.
      destruct (IH _ _ _ _ Hrest) as (Hr2 & Hs2 & Hd2 & Hicy2).
      set (pause := match rest with [] => [] | _ :: _ => [EvSleep (80 * Millisecond)] end) in Heq.
      assert (Hpause : requestsOf pause = []
                       /\ (length (pausesOf pause) + (length rest - 1) <= length rest)%nat
                       /\ Forall (fun d => d = 80 * Millisecond) (pausesOf pause)).
      { unfold pause. destruct rest; cbn; repeat split; first [lia | repeat constructor]. }
      destruct Hpause as (Hp1 & Hp2 & Hp3).
      injection Heq as _ <- _.
      rewrite !requestsOf_app, !pausesOf_app, Hs, Hp1, !length_app. cbn [app length].
      split; [lia|]. split; [lia|]. split; [now apply Forall_app|].
      now apply Forall_app.
Qed.

Lemma buildSiblingCandidates_length (path : string) :
  (length (buildSiblingCandidates path) <= 13)%nat.
Proof.
  unfold buildSiblingCandidates.
  destruct (String.eqb path ""); [cbn; lia|].
  destruct (String.eqb (detectSiblingSuffix _) ""); [cbn; lia|].
  rewrite length_fmap. cbn. lia.
Qed.

(** A hint-driven direct watch reports its own target, once at most. *)
Lemma runDirect_trace (w : World) (url : string) :
  let tr := fst (runDirect w url recordUpdate recordStrategy) in
  Forall (fun s => s = Direct) (callsOf tr)
  /\ (strategiesOf tr = []
      \/ strategiesOf tr = [ {| Type_ := MetadataTypeICY; URL_ := url |} ]).
Proof.
  cbv zeta. unfold runDirect.
  destruct (directWatch w url _ recordUpdate) as [[err tr] w'] eqn:Hd. cbn [fst].
  split; [eapply directWatch_calls; [|exact Hd]; reflexivity|].
  destruct (directWatch_trace _ _ _ _ _ _ Hd) as (reqs & tail & -> & Hreq & _ & Htail).
  rewrite strategiesOf_app, (strategiesOf_requests _ Hreq). cbn [app].
  destruct Htail as [-> | (ups1 & ups2 & u & resp & -> & H1 & H2 & _)]; [now left|].
  right. rewrite !strategiesOf_app, (strategiesOf_updates _ H1), (strategiesOf_updates _ H2).
  reflexivity.
Qed.

(** A hint-driven status watch reports the endpoint it polled, once at
    most, and makes no ICY request. *)
Lemma runStatus_trace (w : World) (url apiURL : string) :
  let tr := fst (runStatus w url apiURL recordUpdate recordStrategy) in
  callsOf tr = [Status]
  /\ Forall (fun r => fst r = false) (requestsOf tr)
  /\ (strategiesOf tr = []
      \/ exists api, strategiesOf tr = [ {| Type_ := MetadataTypeJSON; URL_ := api |} ]).
Proof.
  cbv zeta. unfold runStatus.
  destruct (statusWatch w url apiURL _ recordUpdate) as [[err tr] w'] eqn:Hs. cbn [fst].
  destruct (statusWatch_trace _ _ _ _ _ _ _ Hs)
    as (tail & -> & [Hpoll | (api & resp & rest & -> & _ & Hpoll)]).
  - rewrite callsOf_call, (callsOf_pollIO _ Hpoll).
    split; [reflexivity|]. split; [exact (requestsOf_pollIO _ Hpoll)|]. left.
    exact (strategiesOf_pollIO _ Hpoll).
  - cbn [notify recordStrategy app].
    set (h := {| Type_ := MetadataTypeJSON; URL_ := api |}).
    change (callsOf (EvCall Status url :: EvDo false api (DoOK resp) :: EvStrategy h :: rest))
      with (Status :: callsOf rest).
    change (requestsOf (EvCall Status url :: EvDo false api (DoOK resp) :: EvStrategy h :: rest))
      with ((false, api) :: requestsOf rest).
    change (strategiesOf (EvCall Status url :: EvDo false api (DoOK resp) :: EvStrategy h :: rest))
      with (h :: strategiesOf rest).
    rewrite (callsOf_pollIO _ Hpoll), (strategiesOf_pollIO _ Hpoll).
    split; [reflexivity|]. split.
    + constructor; [reflexivity | exact (requestsOf_pollIO _ Hpoll)].
    + right. now exists api.
Qed.

(** With a recognised hint, [Watch] is the hint-driven run. *)
Lemma Watch_hinted (cache : siblingCache) (w : World) (url : string) (hint : StrategyHint) :
  url <> "" ->
  let hType := ToUpper unicode_ToUpper (TrimSpace (Type_ hint)) in
  (hType = MetadataTypeICY ->
   Watch cache w url hint (Some recordUpdate) recordStrategy
   = (fst (runDirect w (if String.eqb (URL_ hint) "" then url else URL_ hint)
             recordUpdate recordStrategy),
      cache,
      snd (runDirect w (if String.eqb (URL_ hint) "" then url else URL_ hint)
             recordUpdate recordStrategy)))
  /\ (hType = MetadataTypeJSON ->
      Watch cache w url hint (Some recordUpdate) recordStrategy
      = (fst (runStatus w url (URL_ hint) recordUpdate recordStrategy), cache,
         snd (runStatus w url (URL_ hint) recordUpdate recordStrategy))).
Proof.
  intros Hurl. cbv zeta. unfold Watch.
  apply eqb_nonempty in Hurl. rewrite Hurl.
  split; intros ->.
  - change (String.eqb MetadataTypeICY MetadataTypeJSON) with false.
    change (String.eqb MetadataTypeICY MetadataTypeICY) with true. cbv iota.
    now destruct (runDirect w _ recordUpdate recordStrategy).
  - change (String.eqb MetadataTypeJSON MetadataTypeJSON) with true. cbv iota.
    now destruct (runStatus w url _ recordUpdate recordStrategy).
Qed.

End Sessions.
End TrafficFacts.

Section ProviderSessions.
Context `{Metadata.GoLib}.
Import Strings Metadata Observe Traffic.

(** Sibling discovery is bounded: for any stream URL, cache and network,
    one call of [Discover] makes at most 13 requests, all with the ICY
    header, and at most 12 pauses, each of 80 milliseconds. *)
Theorem discover_is_bounded (cache : siblingCache) (w : World) (streamURL : string) :
  let '(_, tr, _, _) := Discover cache w streamURL in
  (length (requestsOf tr) <= 13)%nat
  /\ Forall (fun r => fst r = true) (requestsOf tr)
  /\ (length (pausesOf tr) <= 12)%nat
  /\ Forall (fun d => d = 80 * Millisecond) (pausesOf tr).
Proof.
  unfold Discover.
  destruct (cacheLoad cache (stationCacheKey streamURL)); [cbn; repeat split; first [lia | constructor]|].
  destruct (scanCandidates w streamURL) as [[[[target info] err] tr] w'] eqn:Hscan.
  change (requestsOf (EvCall Sibling streamURL :: tr)) with (requestsOf tr).
  change (pausesOf (EvCall Sibling streamURL :: tr)) with (pausesOf tr).
  unfold scanCandidates in Hscan.
  destruct (url_Parse streamURL) as [u|]; [|injection Hscan as _ _ _ <- _; cbn; repeat split; first [lia | constructor]].
  pose proof (TrafficFacts.buildSiblingCandidates_length (Path u)) as Hlen.
  destruct (buildSiblingCandidates (Path u)) as [|c cands] eqn:Hc;
    [injection Hscan as _ _ _ <- _; cbn; repeat split; first [lia | constructor]|].
  destruct (TrafficFacts.probeEach_bounded _ _ _ _ _ _ Hscan) as (Hr & Hs & Hd & Hicy).
  cbn [length] in *. repeat split; first [lia | assumption].
Qed.

(** A session with a recognised hint never falls back.  With the hint
    type ICY (in any case, blanks around it ignored) only the direct
    strategy runs, against the hint's URL or, if that is empty, the stream
    URL, and the only strategy it can report is that target; with the hint
    type JSON only the status strategy runs and no ICY request is made.
    The sibling cache is left as it was. *)
Theorem hinted_watch_never_falls_back (cache : siblingCache) (w : World)
    (streamURL : string) (hint : StrategyHint)
    (Hurl : streamURL <> "") :
  let hType := ToUpper unicode_ToUpper (TrimSpace (Type_ hint)) in
  let target := if String.eqb (URL_ hint) "" then streamURL else URL_ hint in
  let '(tr, cache', _) := Watch cache w streamURL hint (Some recordUpdate) recordStrategy in
  (hType = MetadataTypeICY ->
   cache' = cache
   /\ Forall (fun s => s = Direct) (callsOf tr)
   /\ (strategiesOf tr = []
       \/ strategiesOf tr = [ {| Type_ := MetadataTypeICY; URL_ := target |} ]))
  /\ (hType = MetadataTypeJSON ->
      cache' = cache
      /\ callsOf tr = [Status]
      /\ Forall (fun r => fst r = false) (requestsOf tr)
      /\ (strategiesOf tr = []
          \/ exists api, strategiesOf tr = [ {| Type_ := MetadataTypeJSON; URL_ := api |} ])).
Proof.
  cbv zeta.
  destruct (TrafficFacts.Watch_hinted cache w streamURL hint Hurl) as [Hicy Hjson].
  destruct (Watch cache w streamURL hint (Some recordUpdate) recordStrategy)
    as [[tr cache'] w'].
  split; intros Ht.
  - specialize (Hicy Ht). injection Hicy as -> -> _.
    split; [reflexivity|]. apply TrafficFacts.runDirect_trace.
  - specialize (Hjson Ht). injection Hjson as -> -> _.
    split; [reflexivity|]. apply TrafficFacts.runStatus_trace.
Qed.

End ProviderSessions.

Lemma hinted_watch_never_falls_back_witness :
  Observe.callsOf
    (fst (fst (Metadata.Watch (H := Sample.lib) ∅ [Sample.testServer; Sample.testServer]
                 "http://host/rock-flac"
                 {| Metadata.Type_ := " json "; Metadata.URL_ := "" |}
                 (Some Observe.recordUpdate) Observe.recordStrategy)))
  = [Metadata.Status].
Proof.
  pose proof (hinted_watch_never_falls_back (H := Sample.lib) ∅
                [Sample.testServer; Sample.testServer] "http://host/rock-flac"
                {| Metadata.Type_ := " json "; Metadata.URL_ := "" |}
                ltac:(discriminate)) as Hw.
  cbv zeta in Hw.
  destruct (Metadata.Watch _ _ _ _ _ _) as [[tr cache'] w'].
  exact (proj1 (proj2 (proj2 Hw eq_refl))).
Defined.

(** ** The key of the sibling cache *)

Module KeyFacts.
Import Strings Metadata StringFacts Observe.

Lemma noneOf_weaken (big small s : string) :
  (forall c, mem c small = true -> mem c big = true) ->
  noneOf big s = true -> noneOf small s = true.
Proof.
  intros Hsub. induction s as [|c s IH]; [reflexivity|]. cbn [noneOf].
  intros Hn. apply andb_prop in Hn as [Hc Hs]. rewrite (IH Hs), andb_true_r.
  apply negb_true_iff in Hc. apply negb_true_iff.
  destruct (mem c small) eqn:Hm; [|reflexivity]. now rewrite (Hsub c Hm) in Hc.
Qed.

Lemma noneOf_app (cs a b : string) :
  noneOf cs (a +:+ b) = noneOf cs a && noneOf cs b.
Proof.
  induction a as [|c a IH]; [reflexivity|]. cbn [String.append noneOf].
  now rewrite IH, andb_assoc.
Qed.

Lemma noneOf_rev (cs a : string) : noneOf cs (rev a) = noneOf cs a.
Proof.
  induction a as [|c a IH]; [reflexivity|]. cbn [rev noneOf].
  rewrite noneOf_app, IH. cbn [noneOf]. rewrite andb_true_r. apply andb_comm.
Qed.

Lemma findLast_none (p : ascii -> bool) (cs s : string) :
  (forall c, p c = true -> mem c cs = true) ->
  noneOf cs s = true -> findLast p s = None.
Proof.
  intros Hsub. induction s as [|c s IH]; [reflexivity|]. cbn [noneOf findLast].
  intros Hn. apply andb_prop in Hn as [Hc Hs]. rewrite (IH Hs).
  apply negb_true_iff in Hc.
  destruct (p c) eqn:Hp; [|reflexivity]. now rewrite (Hsub c Hp) in Hc.
Qed.

(** Behind a prefix without a match the last match keeps its place. *)
Lemma findLast_skip (p : ascii -> bool) (a b : string) :
  findLast p a = None ->
  findLast p (a +:+ b) = (fun n => (String.length a + n)%nat) <$> findLast p b.
Proof.
  induction a as [|c a IH]; cbn [String.append findLast String.length].
  - intros _. now destruct (findLast p b).
  - destruct (findLast p a) eqn:Ha; [discriminate|].
    destruct (p c) eqn:Hc; [discriminate|]. intros _.
    rewrite (IH eq_refl). now destruct (findLast p b).
Qed.

Lemma HasPrefix_app (s t : string) : HasPrefix (s +:+ t) s = true.
Proof.
  induction s as [|c s IH]; [apply SiblingFacts.HasPrefix_nil|].
  cbn [String.append HasPrefix]. now rewrite Ascii.eqb_refl, IH.
Qed.

Lemma take_all (s : string) : take (String.length s) s = s.
Proof. induction s as [|c s IH]; [reflexivity|]. cbn. now rewrite IH. Qed.

Lemma TrimSuffix_app (pre ext : string) : TrimSuffix (pre +:+ ext) ext = pre.
Proof.
  unfold TrimSuffix. rewrite rev_append, HasPrefix_app, length_append.
  replace (String.length pre + String.length ext - String.length ext)%nat
    with (String.length pre) by lia.
  apply take_append.
Qed.

(** The last element of a path that does not end in a slash. *)
Lemma path_Base_last (dir b : string) :
  dir = "" \/ (exists d, dir = d +:+ "/") ->
  b <> "" -> noneOf "/" b = true ->
  path_Base (dir +:+ b) = b.
Proof.
  intros Hdir Hb Hn. unfold path_Base.
  replace (String.eqb (dir +:+ b) "") with false
    by (symmetry; apply eqb_nonempty; intros E; now apply append_eq_nil in E as [_ E]).
  assert (Htrim : trimLeftChars "/" (rev (dir +:+ b)) = rev (dir +:+ b)).
  { rewrite rev_append.
    pose proof (noneOf_rev "/" b) as Hr. rewrite Hn in Hr.
    destruct (rev b) as [|c r] eqn:Hrb.
    - exfalso. apply Hb. rewrite <- (rev_involutive b), Hrb. reflexivity.
    - cbn [noneOf] in Hr. apply andb_prop in Hr as [Hc _]. apply negb_true_iff in Hc.
      cbn [String.append trimLeftChars]. now rewrite Hc. }
  rewrite Htrim, rev_involutive.
  assert (Hnone : findLast (Ascii.eqb "/") b = None)
    by now apply ExtractFacts.findLast_absent.
  destruct Hdir as [-> | [d ->]].
  - cbn [String.append]. unfold LastIndexByte. rewrite Hnone. cbn [ofIndex].
    change (0 <=? -1) with false. cbv iota.
    now replace (String.eqb b "") with false by (symmetry; now apply eqb_nonempty).
  - rewrite append_assoc. cbn [String.append]. unfold LastIndexByte.
    rewrite (findLast_append_hit _ d "/" b (Ascii.eqb_refl _) Hnone). cbn [ofIndex].
    replace (0 <=? Z.of_nat (String.length d)) with true by (symmetry; apply Z.leb_le; lia).
    unfold sliceFrom.
    replace (Z.to_nat (Z.of_nat (String.length d) + 1)) with (String.length d + 1)%nat by lia.
    rewrite drop_add, drop_append. cbn [drop].
    now replace (String.eqb b "") with false by (symmetry; now apply eqb_nonempty).
Qed.

(** Cutting the extension leaves what stands before the last dot. *)
Lemma TrimSuffix_Ext (a x : string) :
  findLast (fun c => Ascii.eqb c "." || Ascii.eqb c "/") a = None ->
  exists x1, TrimSuffix (a +:+ x) (path_Ext (a +:+ x)) = a +:+ x1.
Proof.
  intros Ha.
  assert (Hplain : TrimSuffix (a +:+ x) "" = a +:+ x).
  { unfold TrimSuffix. cbn [rev String.length].
    rewrite SiblingFacts.HasPrefix_nil, Nat.sub_0_r. apply take_all. }
  unfold path_Ext. rewrite (findLast_skip _ a x Ha).
  destruct (findLast _ x) as [j|]; cbn [fmap option_fmap option_map]; [|now exists x].
  rewrite drop_add, drop_append.
  destruct (drop j x) as [|c rest] eqn:Hd; [now exists x|].
  destruct (Ascii.eqb c "."); [|now exists x].
  exists (take j x).
  rewrite <- (take_drop j x) at 1. rewrite Hd, <- append_assoc.
  apply TrimSuffix_app.
Qed.

Lemma findSep_first (stem : string) (sep : ascii) (x : string) :
  noneOf "-_" stem = true -> sep = "-"%char \/ sep = "_"%char ->
  findSep (stem +:+ String sep x) = Some (String.length stem).
Proof.
  intros Hn Hsep. induction stem as [|c stem IH].
  - cbn [String.append findSep]. now destruct Hsep as [-> | ->].
  - cbn [noneOf mem] in Hn. apply andb_prop in Hn as [Hc Hs].
    rewrite orb_false_r in Hc. apply negb_true_iff in Hc.
    cbn [String.append findSep String.length]. now rewrite Hc, (IH Hs).
Qed.

End KeyFacts.

Section CacheKey.
Context `{Metadata.GoLib}.
Import Strings Metadata Observe.

(** The key of the sibling cache does not depend on the token that
    sibling discovery swaps: for a path whose last element is a stem
    without ['-'], ['_'] and ['.'], one of ['-'] and ['_'], and any text, the
    base name is the stem in lower case, whatever the text and the
    extension, so all the streams of one host that share the stem share
    the key. *)
Theorem cache_key_ignores_token (u : URL) (dir stem x : string) (sep : ascii)
    (Hdir : dir = "" \/ (exists d, dir = d +:+ "/"))
    (Hstem : noneOf "/-_." stem = true)
    (Hsep : sep = "-"%char \/ sep = "_"%char)
    (Hx : noneOf "/" x = true)
    (Hpath : Path u = dir +:+ stem +:+ String sep x) :
  baseNameFromURL (Some u) = lower stem
  /\ forall raw, url_Parse raw = Some u ->
                 stationCacheKey raw = lower (Host u) +:+ "|" +:+ lower stem.
Proof.
  assert (Hbase : baseNameFromURL (Some u) = lower stem).
  { unfold baseNameFromURL. rewrite Hpath.
    assert (Hs1 : noneOf "/" stem = true).
    { apply (KeyFacts.noneOf_weaken "/-_." "/" stem); [|exact Hstem].
      intros c. cbn [mem]. destruct (Ascii.eqb c "/"); [reflexivity | discriminate]. }
    assert (Hs2 : noneOf "-_" stem = true).
    { apply (KeyFacts.noneOf_weaken "/-_." "-_" stem); [|exact Hstem].
      intros c. cbn [mem].
      destruct (Ascii.eqb c "/"), (Ascii.eqb c "-"), (Ascii.eqb c "_"); cbn;
        intros; first [reflexivity | discriminate]. }
    assert (Hs3 : noneOf "./" stem = true).
    { apply (KeyFacts.noneOf_weaken "/-_." "./" stem); [|exact Hstem].
      intros c. cbn [mem].
      destruct (Ascii.eqb c "/"), (Ascii.eqb c "."), (Ascii.eqb c "-"), (Ascii.eqb c "_"); cbn;
        intros; first [reflexivity | discriminate]. }
    rewrite (KeyFacts.path_Base_last dir (stem +:+ String sep x) Hdir).
    2:{ intros E. apply StringFacts.append_eq_nil in E as [_ E]. discriminate. }
    2:{ rewrite KeyFacts.noneOf_app, Hs1. cbn [noneOf mem andb].
        rewrite Hx. now destruct Hsep as [-> | ->]. }
    assert (Ha : findLast (fun c => Ascii.eqb c "." || Ascii.eqb c "/")
                   (stem +:+ String sep "") = None).
    { apply (KeyFacts.findLast_none _ "./").
      - intros c. cbn [mem]. now rewrite orb_false_r.
      - rewrite KeyFacts.noneOf_app, Hs3. now destruct Hsep as [-> | ->]. }
    replace (stem +:+ String sep x) with ((stem +:+ String sep "") +:+ x)
      by now rewrite StringFacts.append_assoc.
    destruct (KeyFacts.TrimSuffix_Ext (stem +:+ String sep "") x Ha) as [x1 ->].
    rewrite StringFacts.append_assoc. cbn [String.append].
    rewrite (KeyFacts.findSep_first stem sep x1 Hs2 Hsep).
    now rewrite StringFacts.take_append. }
  split; [exact Hbase|].
  intros raw Hraw. unfold stationCacheKey. now rewrite Hraw, Hbase.
Qed.

End CacheKey.

Lemma cache_key_ignores_token_witness :
  Metadata.stationCacheKey (H := Sample.lib) "http://Host/live/rock-320.mp3" = "host|rock"
  /\ Metadata.stationCacheKey (H := Sample.lib) "http://Host/live/rock_flac" = "host|rock".
Proof.
  split.
  - exact (proj2 (cache_key_ignores_token (H := Sample.lib)
                    {| Metadata.Scheme := "http"; Metadata.Host := "Host";
                       Metadata.Path := "/live/rock-320.mp3"; Metadata.RawQuery := "" |}
                    "/live/" "rock" "320.mp3" "-"
                    (or_intror (ex_intro _ "/live" eq_refl)) eq_refl (or_introl eq_refl)
                    eq_refl eq_refl)
                 "http://Host/live/rock-320.mp3" eq_refl).
  - exact (proj2 (cache_key_ignores_token (H := Sample.lib)
                    {| Metadata.Scheme := "http"; Metadata.Host := "Host";
                       Metadata.Path := "/live/rock_flac"; Metadata.RawQuery := "" |}
                    "/live/" "rock" "flac" "_"
                    (or_intror (ex_intro _ "/live" eq_refl)) eq_refl (or_intror eq_refl)
                    eq_refl eq_refl)
                 "http://Host/live/rock_flac" eq_refl).
Defined.

(** ** The status document and the callbacks of the watcher *)

Module WatcherFacts.
Import Strings Metadata StringFacts Observe DispatchFacts Traffic Watcher.

Lemma firstTitled_find (sources : list iceSource) :
  firstTitled sources
  = match List.find titled sources with
    | Some src => (srcTitle src, stationOf src, true)
    | None => ("", "", false)
    end.
Proof.
  induction sources as [|src rest IH]; [reflexivity|].
  cbn [firstTitled List.find]. unfold titled at 1.
  destruct (negb (String.eqb (TrimSpace (srcTitle src)) "")); [reflexivity | exact IH].
Qed.

Lemma last_cons_default {A} (x : A) (l : list A) (d : A) :
  List.last (x :: l) d = List.last l x.
Proof.
  destruct l as [|y l]; [reflexivity|].
  change (List.last (y :: l) d = List.last (y :: l) x). apply SessionFacts.last_cons.
Qed.

(** The [onUpdate] closure in one equation. *)
Lemma onUpdate_eq (cbStation : option (string -> list string)) (did : bool) (info : Info) :
  onUpdate cbStation did info
  = (did || (isSomeB cbStation && namesStation info),
     if negb did && isSomeB cbStation && namesStation info
     then Player.call cbStation (Html.UnescapeString (TrimSpace (Station info))) else [],
     match forwardedTitle info with Some s => [s] | None => [] end).
Proof.
  unfold onUpdate, namesStation, forwardedTitle.
  destruct did, cbStation as [f|]; cbn [negb andb orb isSomeB];
    destruct (negb (String.eqb (TrimSpace (Station info)) ""));
    destruct (negb (String.eqb (TrimSpace (Title info)) "")); reflexivity.
Qed.

(** What the closures make of the events of a watcher. *)
Lemma deliver_spec {E} (cbStation : option (string -> list string))
    (resolvedCb : option (string -> string -> list E)) (tr : list event) :
  forall (did : bool) (hint : StrategyHint),
    let '(_, hint', sent, titles, _) := deliver cbStation resolvedCb did hint tr in
    sent = (if did then []
            else match List.find namesStation (updatesOf tr) with
                 | Some i => Player.call cbStation (Html.UnescapeString (TrimSpace (Station i)))
                 | None => []
                 end)
    /\ titles = omap forwardedTitle (updatesOf tr)
    /\ hint' = List.last (strategiesOf tr) hint.
Proof.
  induction tr as [|ev tr IH]; intros did hint.
  - cbn. now destruct did.
  - destruct ev as [s url | icy url res | d | d | info | sel]; cbn [deliver];
      try (specialize (IH did hint);
           destruct (deliver cbStation resolvedCb did hint tr) as [[[[did' hint'] sent] titles] res'];
           exact IH).
    + change (updatesOf (EvUpdate info :: tr)) with (info :: updatesOf tr).
      change (strategiesOf (EvUpdate info :: tr)) with (strategiesOf tr).
      rewrite onUpdate_eq. cbn [List.find].
      specialize (IH (did || (isSomeB cbStation && namesStation info)) hint).
      destruct (deliver cbStation resolvedCb _ hint tr) as [[[[did' hint'] sent] titles] res'].
      destruct IH as (-> & -> & ->).
      split; [|split; [|reflexivity]].
      * destruct did; cbn [negb andb orb]; [reflexivity|].
        destruct cbStation as [f|]; cbn [isSomeB andb Player.call].
        -- destruct (namesStation info); [apply app_nil_r | reflexivity].
        -- destruct (namesStation info); [|reflexivity].
           now destruct (List.find namesStation (updatesOf tr)).
      * cbn [omap list_omap]. now destruct (forwardedTitle info).
    + change (updatesOf (EvStrategy sel :: tr)) with (updatesOf tr).
      change (strategiesOf (EvStrategy sel :: tr)) with (sel :: strategiesOf tr).
      unfold onStrategy.
      specialize (IH did {| Type_ := Type_ sel; URL_ := URL_ sel |}).
      destruct (deliver cbStation resolvedCb did _ tr) as [[[[did' hint'] sent] titles] res'].
      destruct IH as (-> & -> & ->). split; [reflexivity|]. split; [reflexivity|].
      rewrite last_cons_default. now destruct sel.
Qed.

Section Kinds.
Context `{GoLib}.

(** A hint behind a handshake, or taken from the cache, is an ICY or a
    JSON hint. *)
Lemma handshake_kind (h : StrategyHint) (seen : list event) :
  existsb (handshake h) seen = true ->
  Type_ h = MetadataTypeICY \/ Type_ h = MetadataTypeJSON.
Proof.
  intros Hex. apply existsb_exists in Hex as (ev & _ & Hev).
  unfold handshake in Hev. destruct ev as [| icy url [f|resp] | | | |]; try discriminate.
  destruct (String.eqb (Type_ h) MetadataTypeICY) eqn:E1;
    [left; now apply String.eqb_eq|].
  destruct (String.eqb (Type_ h) MetadataTypeJSON) eqn:E2;
    [right; now apply String.eqb_eq | discriminate].
Qed.

Lemma reported_kind (cache : siblingCache) (s : session) (h : StrategyHint) :
  h ∈ strategiesOf (fst (runSession cache s)) ->
  Type_ h = MetadataTypeICY \/ Type_ h = MetadataTypeJSON.
Proof.
  intros Hin. unfold strategiesOf in Hin.
  apply list_elem_of_omap in Hin as (ev & Hev & Hh).
  destruct ev; try discriminate. injection Hh as ->.
  apply list_elem_of_split in Hev as (pre & post & Heq).
  pose proof (ResolveFacts.runSession_session cache s) as Hb. rewrite Heq in Hb.
  destruct (ResolveFacts.backedBut_split _ [] pre h post Hb) as [Hhs | Hc].
  - exact (handshake_kind h _ Hhs).
  - unfold cachedSibling in Hc. apply andb_prop in Hc as [Hc _].
    left. now apply String.eqb_eq.
Qed.

End Kinds.
End WatcherFacts.

Section Watchers.
Context `{Metadata.GoLib}.
Import Strings Metadata Observe Traffic.

(** A poll reports the first source with a title that is not blank: for a
    2xx answer whose body decodes, the title is the title of that source
    as it stands (not trimmed), the station its [server_name], or its
    [icy-name] when the [server_name] is blank; the sources behind it are
    not looked at. *)
Theorem poll_reports_first_titled_source (resp : Response) (source : any)
    (Hstatus : 200 <= StatusCode resp < 300)
    (Hdecode : json_Decode (sliceTo (buffered (Body resp)) 1048576) = Some source) :
  pollResult (DoOK resp)
  = match List.find titled (extractSources source) with
    | Some src => (srcTitle src, stationOf src, true)
    | None => ("", "", false)
    end.
Proof.
  unfold pollResult.
  replace ((StatusCode resp <? 200) || (300 <=? StatusCode resp)) with false
    by (symmetry; apply orb_false_iff; split; [apply Z.ltb_ge | apply Z.leb_gt]; lia).
  rewrite Hdecode. apply WatcherFacts.firstTitled_find.
Qed.

(** The watcher hands the station name to [onStation] once: for the
    first [Info] whose station is not blank, trimmed and entity-decoded,
    and never again; every title that is not blank goes to the stabilizer,
    trimmed, in the order of the updates; and the hint the player keeps is
    the last strategy reported, or the old hint when none was. *)
Theorem watcher_forwards_station_once {E} (cbStation : option (string -> list string))
    (resolvedCb : option (string -> string -> list E)) (hint : StrategyHint)
    (tr : list event) :
  let '(_, hint', sent, titles, _) := Watcher.deliver cbStation resolvedCb false hint tr in
  sent = match List.find namesStation (updatesOf tr) with
         | Some i => Player.call cbStation (Html.UnescapeString (TrimSpace (Station i)))
         | None => []
         end
  /\ titles = omap forwardedTitle (updatesOf tr)
  /\ hint' = List.last (strategiesOf tr) hint.
Proof. exact (WatcherFacts.deliver_spec cbStation resolvedCb tr false hint). Qed.

(** A resolved strategy is not resolved again.  When a watcher reported a
    strategy, the hint the player keeps is that strategy, of type ICY or
    JSON, and the next watcher started with it, for any stream and
    network, runs the hinted strategy only: sibling discovery is not
    entered and the sibling cache is left as it was. *)
Theorem resolved_hint_skips_discovery (cache : siblingCache) (w w2 : World)
    (url url2 : string) (hint : StrategyHint)
    (Hurl2 : url2 <> "") :
  let '(tr, cache1, _) := Watcher.startICYWatcher cache w url hint in
  let '(_, hint1, _, _, _) :=
    Watcher.deliver (E := string) None None false hint tr in
  strategiesOf tr <> [] ->
  hint1 ∈ strategiesOf tr
  /\ (Type_ hint1 = MetadataTypeICY \/ Type_ hint1 = MetadataTypeJSON)
  /\ (let '(tr2, cache2, _) := Watcher.startICYWatcher cache1 w2 url2 hint1 in
      cache2 = cache1 /\ Sibling ∉ callsOf tr2).
Proof.
  pose proof (WatcherFacts.reported_kind cache
                {| sURL := url; sHint := hint; sScript := w |}) as Hkind.
  unfold runSession in Hkind. cbn [sURL sHint sScript] in Hkind.
  unfold Watcher.startICYWatcher.
  destruct (String.eqb url "") eqn:Hurl.
  { cbn. intros Hne. now contradiction Hne. }
  change (Some (fun i => [EvUpdate i])) with (Some recordUpdate).
  change (Some (fun h : StrategyHint => [EvStrategy h])) with recordStrategy.
  destruct (Watch cache w url hint (Some recordUpdate) recordStrategy)
    as [[tr cache1] w1]. cbn [fst] in Hkind.
  pose proof (WatcherFacts.deliver_spec (E := string) None None tr false hint) as Hspec.
  destruct (Watcher.deliver None None false hint tr) as [[[[did hint1] sent] titles] res].
  destruct Hspec as (_ & _ & ->).
  intros Hne.
  assert (Hin : List.last (strategiesOf tr) hint ∈ strategiesOf tr).
  { destruct (strategiesOf tr) as [|h l] eqn:Hs; [now contradiction Hne|].
    rewrite WatcherFacts.last_cons_default. clear.
    revert h. induction l as [|y l IH]; intros h; [now left|].
    rewrite WatcherFacts.last_cons_default. right. apply IH. }
  split; [exact Hin|]. specialize (Hkind _ Hin). split; [exact Hkind|].
  apply StringFacts.eqb_nonempty in Hurl2. rewrite Hurl2.
  apply StringFacts.eqb_nonempty in Hurl2.
  destruct (TrafficFacts.Watch_hinted cache1 w2 url2 (List.last (strategiesOf tr) hint) Hurl2)
    as [Hicy Hjson].
  destruct Hkind as [Hk | Hk].
  - rewrite Hicy by (rewrite Hk; reflexivity). split; [reflexivity|].
    destruct (TrafficFacts.runDirect_trace w2
                (if String.eqb (URL_ (List.last (strategiesOf tr) hint)) "" then url2
                 else URL_ (List.last (strategiesOf tr) hint))) as [Hcalls _].
    intros Hs. rewrite Forall_forall in Hcalls. specialize (Hcalls _ Hs). discriminate.
  - rewrite Hjson by (rewrite Hk; reflexivity). split; [reflexivity|].
    destruct (TrafficFacts.runStatus_trace w2 url2 (URL_ (List.last (strategiesOf tr) hint)))
      as [Hcalls _].
    rewrite Hcalls. intros Hs. apply list_elem_of_singleton in Hs. discriminate.
Qed.

End Watchers.

Lemma poll_reports_first_titled_source_witness :
  Metadata.pollResult (H := Sample.lib) (Metadata.DoOK (Sample.plainResponse 200 "A - B"))
  = ("A - B", "Station", true).
Proof.
  refine (poll_reports_first_titled_source (H := Sample.lib)
            (Sample.plainResponse 200 "A - B") _ _ eq_refl).
  cbn. lia.
Defined.

Lemma resolved_hint_skips_discovery_witness :
  {| Metadata.Type_ := "ICY"; Metadata.URL_ := "http://host/rock-320" |}
    ∈ [ {| Metadata.Type_ := "ICY"; Metadata.URL_ := "http://host/rock-320" |} ]
  /\ ("ICY" = Metadata.MetadataTypeICY \/ "ICY" = Metadata.MetadataTypeJSON)
  /\ ((<["host|rock" := "http://host/rock-320"]> ∅ : Metadata.siblingCache)
        = <["host|rock" := "http://host/rock-320"]> ∅
      /\ Metadata.Sibling ∉ Observe.callsOf
            (fst (Metadata.runDirect (H := Sample.lib) [Sample.testServer]
                    "http://host/rock-320" Observe.recordUpdate Observe.recordStrategy))).
Proof.
  refine (resolved_hint_skips_discovery (H := Sample.lib)
            (<["host|rock" := "http://host/rock-320"]> ∅)
            [Sample.testServer] [Sample.testServer]
            "http://host/rock-flac" "http://host/rock-flac"
            {| Metadata.Type_ := ""; Metadata.URL_ := "" |} _ _);
    discriminate.
Defined.

(** ** The sibling cache over the sessions, and what the direct strategy emits *)

Module PersistFacts.
Import Strings Metadata StringFacts Observe DispatchFacts Traffic.

Lemma HasPrefix_split (s p : string) :
  HasPrefix s p = true -> s = p +:+ drop (String.length p) s.
Proof.
  revert s; induction p as [|a p IH]; intros s Hp; [reflexivity|].
  destruct s as [|b s]; [discriminate|]. cbn [HasPrefix] in Hp.
  apply andb_prop in Hp as [Hab Hp]. apply Ascii.eqb_eq in Hab. subst b.
  cbn [String.append String.length drop]. now rewrite <- (IH s Hp).
Qed.

Lemma find_Some (s sub : string) :
  forall i, find s sub = Some i -> HasPrefix (drop i s) sub = true.
Proof.
  induction s as [|c s IH]; intros i; cbn [find].
  - destruct (HasPrefix "" sub) eqn:Hp; [|discriminate]. now intros [= <-].
  - destruct (HasPrefix (String c s) sub) eqn:Hp; [now intros [= <-]|].
    destruct (find s sub) as [j|] eqn:Hj; [|discriminate].
    cbn. intros [= <-]. cbn [drop]. now apply IH.
Qed.

(** Replacing a text by itself changes nothing. *)
Lemma Replace1_same (s old : string) : Replace1 s old old = s.
Proof.
  unfold Replace1. destruct (find s old) as [i|] eqn:Hf; [|reflexivity].
  apply find_Some, HasPrefix_split in Hf.
  rewrite drop_add, <- Hf. apply take_drop.
Qed.

Lemma updatesOf_app (a b : list event) : updatesOf (a ++ b) = updatesOf a ++ updatesOf b.
Proof. apply omap_app. Qed.

Lemma updatesOf_call (st : strategy) (url : string) (tr : list event) :
  updatesOf (EvCall st url :: tr) = updatesOf tr.
Proof. reflexivity. Qed.

Lemma updatesOf_do (icy : bool) (url : string) (res : HttpResult) (tr : list event) :
  updatesOf (EvDo icy url res :: tr) = updatesOf tr.
Proof. reflexivity. Qed.

(** The updates of the read loop carry the station it was given. *)
Lemma readLoop_stations (fuel : nat) (metaInt : Z) (station : string) :
  forall (r : Reader) (err : error) (tr : list event),
    readLoop fuel metaInt station recordUpdate r = (err, tr) ->
    Forall (fun i => Station i = Html.UnescapeString station) (updatesOf tr).
Proof.
  induction fuel as [|fuel IH]; intros r err tr Heq; cbn [readLoop] in Heq.
  - injection Heq as _ <-. constructor.
  - destruct (ReadFull r metaInt) as [[? r1]|[[? e1] ?]]; [|injection Heq as _ <-; constructor].
    destruct (ReadByte r1) as [[lb r2]|e2]; [|injection Heq as _ <-; constructor].
    destruct (byteZ lb * 16 =? 0); [now apply (IH r2 err)|].
    destruct (ReadFull r2 (byteZ lb * 16)) as [[metaBuf r3]|[[? e3] ?]];
      [|injection Heq as _ <-; constructor].
    destruct (readLoop fuel metaInt station recordUpdate r3) as [err0 tr0] eqn:Hloop.
    injection Heq as _ <-. rewrite updatesOf_app. apply Forall_app. split; [|now apply (IH r3 err0)].
    destruct (negb (String.eqb (extractStreamTitle metaBuf) "")); cbn; repeat constructor.
Qed.

Section Persist.
Context `{GoLib}.

Lemma directWatch_stations (onReady : option (list event)) :
  updatesOf (match onReady with Some f => f | None => [] end) = [] ->
  forall (w : World) (url : string) (err : error) (tr : list event) (w' : World),
    directWatch w url onReady recordUpdate = (err, tr, w') ->
    Forall (fun i => exists resp,
                finalResponse w url = Some resp
                /\ Station i = Html.UnescapeString (TrimSpace (IcyName resp)))
           (updatesOf tr).
Proof.
  intros Hready w. induction w as [|h w IH]; intros url err tr w' Heq;
    cbn [directWatch] in Heq; cbn [finalResponse].
  - destruct (url_Parse url); injection Heq as _ <- _; constructor.
  - destruct (url_Parse url); [|injection Heq as _ <- _; constructor].
    destruct (h url) as [f|resp]; [injection Heq as _ <- _; constructor|].
    destruct (isRedirect resp).
    + destruct (String.eqb (Location resp) ""); [injection Heq as _ <- _; constructor|].
      destruct (directWatch w (Location resp) onReady recordUpdate) as [[e1 tr1] w1] eqn:Hd.
      injection Heq as _ <- _.
      cbn [app]. rewrite updatesOf_call, updatesOf_do.
      exact (IH _ _ _ _ Hd).
    + destruct (metaIntOf resp) as [metaInt|]; [|injection Heq as _ <- _; constructor].
      destruct (readLoop _ metaInt _ recordUpdate (Body resp)) as [e1 tr1] eqn:Hloop.
      injection Heq as _ <- _.
      cbn [app]. rewrite updatesOf_call, updatesOf_do.
      rewrite !updatesOf_app, Hready. cbn [app]. apply Forall_app. split.
      * destruct (negb (String.eqb (TrimSpace (IcyName resp)) "")); cbn;
          repeat constructor. now exists resp.
      * eapply Forall_impl; [exact (readLoop_stations _ _ _ _ _ _ Hloop)|].
        intros i Hi. now exists resp.
Qed.

(** [Discover] leaves the entries of the cache that hold a URL alone. *)
Lemma Discover_keeps (cache : siblingCache) (w : World) (url : string) res
    (tr : list event) (cache' : siblingCache) (w' : World) (k v : string) :
  Discover cache w url = (res, tr, cache', w') ->
  cache !! k = Some v -> v <> "" -> cache' !! k = Some v.
Proof.
  unfold Discover. intros Heq Hk Hv.
  destruct (cacheLoad cache (stationCacheKey url)) as [t|] eqn:Hload;
    [now injection Heq as _ _ <- _|].
  destruct (scanCandidates w url) as [[[[target info] err] tr0] w0].
  injection Heq as _ _ <- _.
  destruct (negb (isSomeB err) && negb (String.eqb (stationCacheKey url) "")) eqn:Hins;
    [|exact Hk].
  apply andb_prop in Hins as [_ Hkey]. apply negb_true_iff, eqb_nonempty in Hkey.
  destruct (decide (k = stationCacheKey url)) as [-> | Hne].
  - rewrite (proj2 (CacheFacts.cacheLoad_Some cache _ v) (conj Hkey (conj Hk Hv))) in Hload.
    discriminate.
  - now rewrite lookup_insert_ne.
Qed.

Lemma Watch_keeps (cache : siblingCache) (w : World) (url : string) (hint : StrategyHint)
    (onUpdate : option (Info -> list event))
    (onStrategy : option (StrategyHint -> list event)) (k v : string) :
  cache !! k = Some v -> v <> "" ->
  snd (fst (Watch cache w url hint onUpdate onStrategy)) !! k = Some v.
Proof.
  intros Hk Hv. unfold Watch.
  destruct onUpdate as [onUpdate|]; [|exact Hk].
  destruct (String.eqb url ""); [exact Hk|].
  destruct (String.eqb _ MetadataTypeJSON);
    [now destruct (runStatus w url (URL_ hint) onUpdate onStrategy)|].
  destruct (String.eqb _ MetadataTypeICY);
    [now destruct (runDirect w _ onUpdate onStrategy)|].
  unfold autoWatch.
  destruct (directWatch w url _ onUpdate) as [[err tr1] w1].
  destruct (negb (isNoICY err)); [exact Hk|].
  destruct (Discover cache w1 url) as [[[[[target info] derr] tr2] cache2] w2] eqn:Hd.
  pose proof (Discover_keeps _ _ _ _ _ _ _ k v Hd Hk Hv) as Hk2.
  destruct derr.
  - now destruct (statusWatch w2 url "" _ onUpdate) as [[? ?] ?].
  - now destruct (directWatch w2 target None onUpdate) as [[? ?] ?].
Qed.

End Persist.
End PersistFacts.

Section CacheSessions.
Context `{Metadata.GoLib}.
Import Strings Metadata Observe Traffic.

(** An entry of the sibling cache is for good: over any sessions of the
    process, with any hints and networks, a key that holds a sibling URL
    keeps that URL; discovery neither replaces nor drops it. *)
Theorem cache_entries_persist (ss : list session) (cache : siblingCache) (k v : string)
    (Hk : cache !! k = Some v) (Hv : v <> "") :
  snd (runSessions cache ss) !! k = Some v.
Proof.
  revert cache Hk. induction ss as [|s ss IH]; intros cache Hk; [exact Hk|].
  cbn [runSessions].
  pose proof (PersistFacts.Watch_keeps cache (sScript s) (sURL s) (sHint s)
                (Some recordUpdate) recordStrategy k v Hk Hv) as H1.
  unfold runSession.
  destruct (Watch cache (sScript s) (sURL s) (sHint s) (Some recordUpdate) recordStrategy)
    as [[tr cache1] w1]. cbn [fst snd] in H1.
  specialize (IH cache1 H1).
  now destruct (runSessions cache1 ss) as [tr' cache2].
Qed.

(** Every [Info] of a hint-driven direct watch names the station of the
    response that ended the redirects: its [icy-name] header, trimmed and
    entity-decoded (empty when the header is blank), in the update that
    precedes the titles and in every title update. *)
Theorem direct_updates_name_the_station (w : World) (url : string) :
  Forall (fun i => exists resp,
              finalResponse w url = Some resp
              /\ Station i = Html.UnescapeString (TrimSpace (IcyName resp)))
         (updatesOf (fst (runDirect w url recordUpdate recordStrategy))).
Proof.
  unfold runDirect.
  destruct (directWatch w url _ recordUpdate) as [[err tr] w'] eqn:Hd. cbn [fst].
  eapply PersistFacts.directWatch_stations; [|exact Hd]. reflexivity.
Qed.

(** Sibling discovery probes the stream itself again when the token of
    its path is one of the labels: the path is then one of its own
    candidates. *)
Theorem stream_is_its_own_candidate (path : string)
    (Hpath : path <> "")
    (Htoken : detectSiblingSuffix (withSlash path) ∈ priorities) :
  withSlash path ∈ buildSiblingCandidates path.
Proof.
  rewrite SiblingFacts.buildSiblingCandidates_eq.
  - apply list_elem_of_fmap. exists (detectSiblingSuffix (withSlash path)).
    split; [|exact Htoken]. symmetry. apply PersistFacts.Replace1_same.
  - now apply StringFacts.eqb_nonempty.
  - apply StringFacts.eqb_nonempty. intros E. rewrite E in Htoken.
    revert Htoken. clear. unfold priorities. intros Hin.
    repeat (apply elem_of_cons in Hin as [Hin | Hin]; [discriminate|]).
    now apply elem_of_nil in Hin.
Qed.

End CacheSessions.

Lemma cache_entries_persist_witness :
  snd (Observe.runSessions (H := Sample.lib)
         (<["host|rock" := "http://host/rock-128"]> ∅)
         [ {| Observe.sURL := "http://host/rock-flac";
              Observe.sHint := {| Metadata.Type_ := ""; Metadata.URL_ := "" |};
              Observe.sScript := [Sample.testServer; Sample.testServer] |} ])
    !! "host|rock" = Some "http://host/rock-128".
Proof.
  apply (cache_entries_persist (H := Sample.lib)); [reflexivity | discriminate].
Defined.

Lemma stream_is_its_own_candidate_witness :
  "/rock-320" ∈ Metadata.buildSiblingCandidates "/rock-320".
Proof.
  apply (stream_is_its_own_candidate "/rock-320"); [discriminate|].
  apply elem_of_cons. now left.
Defined.

(** ** What the fallback chain reports *)

Module ReportFacts.
Import Strings Metadata StringFacts Observe DispatchFacts Traffic.

Lemma strategiesOf_call (st : strategy) (url : string) (tr : list event) :
  strategiesOf (EvCall st url :: tr) = strategiesOf tr.
Proof. reflexivity. Qed.

Lemma strategiesOf_do (icy : bool) (url : string) (res : HttpResult) (tr : list event) :
  strategiesOf (EvDo icy url res :: tr) = strategiesOf tr.
Proof. reflexivity. Qed.

Section Reports.
Context `{GoLib}.

(** The direct strategy calls [onReady] exactly when the response that
    ends the redirects has a valid [icy-metaint]. *)
Lemma directWatch_reports (h : StrategyHint) :
  forall (w : World) (url : string) (err : error) (tr : list event) (w' : World),
    directWatch w url (Some [EvStrategy h]) recordUpdate = (err, tr, w') ->
    strategiesOf tr
    = match finalResponse w url with
      | Some resp => if isSomeB (metaIntOf resp) then [h] else []
      | None => []
      end.
Proof.
  induction w as [|hd w IH]; intros url err tr w' Heq;
    cbn [directWatch] in Heq; cbn [finalResponse].
  - now destruct (url_Parse url); injection Heq as _ <- _.
  - destruct (url_Parse url); [|now injection Heq as _ <- _].
    destruct (hd url) as [f|resp]; [now injection Heq as _ <- _|].
    destruct (isRedirect resp).
    + destruct (String.eqb (Location resp) ""); [now injection Heq as _ <- _|].
      destruct (directWatch w (Location resp) _ recordUpdate) as [[e1 tr1] w1] eqn:Hd.
      injection Heq as _ <- _. cbn [app]. rewrite strategiesOf_call, strategiesOf_do.
      exact (IH _ _ _ _ Hd).
    + destruct (metaIntOf resp) as [metaInt|]; [|now injection Heq as _ <- _].
      destruct (readLoop _ metaInt _ recordUpdate (Body resp)) as [e1 tr1] eqn:Hloop.
      injection Heq as _ <- _. cbn [isSomeB app].
      destruct (readLoop_updates _ _ _ _ _ _ Hloop) as [_ Hup].
      rewrite strategiesOf_call, strategiesOf_do, strategiesOf_app,
        ResolveFacts.strategiesOf_strategy, (TrafficFacts.strategiesOf_updates _ Hup).
      now destruct (negb (String.eqb (TrimSpace (IcyName resp)) "")).
Qed.

(** The status strategy calls [onReady] with the endpoint it resolved,
    exactly when the first poll succeeds. *)
Lemma statusWatch_reports (w : World) (url apiURL : string)
    (err : error) (tr : list event) (w' : World) :
  statusWatch w url apiURL
    (Some (fun api => [EvStrategy {| Type_ := MetadataTypeJSON; URL_ := api |}]))
    recordUpdate = (err, tr, w') ->
  strategiesOf tr
  = match resolvedAPI url apiURL with
    | Some api =>
        if snd (fst (fst (pollOnce w api)))
        then [ {| Type_ := MetadataTypeJSON; URL_ := api |} ] else []
    | None => []
    end.
Proof.
  unfold statusWatch, resolvedAPI.
  destruct (if String.eqb (TrimSpace apiURL) "" then buildStatusURL url else Some apiURL)
    as [api|]; [|now intros [= _ <- _]].
  destruct (pollOnce w api) as [[[[title station] ok] ev] w1] eqn:Hpoll. cbn [fst snd].
  assert (Hev : strategiesOf ev = []).
  { destruct (pollOnce_events _ _ _ _ _ Hpoll) as [[-> _] | (res & -> & _)]; reflexivity. }
  destruct ok; cbn [negb].
  - destruct (pollLoop w1 api recordUpdate) as [[e1 tr1] w2] eqn:Hloop.
    intros [= _ <- _].
    rewrite strategiesOf_call, strategiesOf_app, Hev, ResolveFacts.strategiesOf_strategy.
    change (strategiesOf (EvUpdate {| Title := title; Description := ""; Station := station |}
                          :: tr1)) with (strategiesOf tr1).
    now rewrite (TrafficFacts.strategiesOf_pollIO _ (pollLoop_events _ _ _ _ _ Hloop)).
  - intros [= _ <- _]. rewrite strategiesOf_call. exact Hev.
Qed.

End Reports.
End ReportFacts.

Section Resolution2.
Context `{Metadata.GoLib}.
Import Strings Metadata Observe Traffic.

(** The one strategy that the fallback chain reports is the one that
    produced data.  When the direct strategy does not end with
    "ICY unavailable", the report is the stream URL as an ICY strategy
    (the URL asked for, also behind redirects), made exactly when the last
    response has a valid [icy-metaint].  Otherwise, when discovery finds a
    sibling, the report is that sibling as an ICY strategy; and when it
    does not, the report is the status endpoint built from the stream URL
    as a JSON strategy, made exactly when its first poll succeeds. *)
Theorem auto_reports_what_it_resolved (cache : siblingCache) (w : World) (url : string) :
  let direct := {| Type_ := MetadataTypeICY; URL_ := url |} in
  let '(err, _, w1) :=
    directWatch w url (Some (notify recordStrategy direct)) recordUpdate in
  let '((target, _, derr), _, _, w2) := Discover cache w1 url in
  let '(tr, _, _) := autoWatch cache w url recordUpdate recordStrategy in
  strategiesOf tr
  = if negb (isNoICY err) then
      match finalResponse w url with
      | Some resp => if isSomeB (metaIntOf resp) then [direct] else []
      | None => []
      end
    else
      match derr with
      | None => [ {| Type_ := MetadataTypeICY; URL_ := target |} ]
      | Some _ =>
          match buildStatusURL url with
          | Some api =>
              if snd (fst (fst (pollOnce w2 api)))
              then [ {| Type_ := MetadataTypeJSON; URL_ := api |} ] else []
          | None => []
          end
      end.
Proof.
  cbv zeta. unfold autoWatch.
  destruct (directWatch w url _ recordUpdate) as [[err tr1] w1] eqn:Hd.
  pose proof (ReportFacts.directWatch_reports _ _ _ _ _ _ Hd) as H1.
  pose proof (proj1 (DispatchFacts.directWatch_noICY _ _ _ _ _ _ _ Hd)) as Hno.
  destruct (Discover cache w1 url) as [[[[[target info] derr] tr2] cache2] w2] eqn:Hs.
  pose proof (ResolveFacts.Discover_noStrategy _ _ _ _ _ _ _ Hs) as H2.
  destruct (isNoICY err); cbn [negb]; [|exact H1].
  destruct (Hno eq_refl) as (resp & Hfin & Hmi). rewrite Hfin, Hmi in H1. cbn [isSomeB] in H1.
  destruct derr as [e|].
  - destruct (statusWatch w2 url "" _ recordUpdate) as [[e3 tr3] w3] eqn:Hst.
    pose proof (ReportFacts.statusWatch_reports _ _ _ _ _ _ Hst) as H3.
    rewrite !DispatchFacts.strategiesOf_app, H1, (DispatchFacts.strategiesOf_none _ H2).
    exact H3.
  - destruct (directWatch w2 target None recordUpdate) as [[e3 tr3] w3] eqn:Hd2.
    pose proof (ResolveFacts.directWatch_silent _ _ _ _ _ Hd2) as H3.
    rewrite !DispatchFacts.strategiesOf_app, H1, (DispatchFacts.strategiesOf_none _ H2),
      (DispatchFacts.strategiesOf_none _ H3), app_nil_r.
    cbn [notify recordStrategy app].
    rewrite ResolveFacts.strategiesOf_strategy, ResolveFacts.strategiesOf_update.
    reflexivity.
Qed.

End Resolution2.

(** ** Sanity checks of the library models *)

Example TrimSpace_ex1 : Strings.TrimSpace "  a b	" = "a b".
Proof. reflexivity. Qed.

Example Index_ex1 : Strings.Index "xxStreamTitle=1" "StreamTitle=" = 2.
Proof. reflexivity. Qed.

Example Index_ex2 : Strings.Index "abc" "d" = -1.
Proof. reflexivity. Qed.

Example Replace1_ex : Strings.Replace1 "/128/radio-128" "128" "320" = "/320/radio-128".
Proof. reflexivity. Qed.

Example Trim_ex : Strings.Trim "//live/rock/" "/" = "live/rock".
Proof. reflexivity. Qed.

Example Unescape_ex1 : Html.UnescapeString "AC/DC &amp; Friends" = "AC/DC & Friends".
Proof. reflexivity. Qed.

Example Unescape_ex2 : Html.UnescapeString "a &lt b &#39;c&#x27; &ampd &zz; &" = "a < b 'c' &d &zz; &".
Proof. reflexivity. Qed.
